(** * ComponentFocusManager: a shallow embedding and its verified properties

    The development models the class [ComponentFocusManager] of
    [packages/react-query-component-focus/src/componentFocusManager.ts].

    - JavaScript objects that the manager shares by reference (the
      per-component state objects captured by unsubscribe closures) live in
      an explicit object store, addressed by natural numbers.
    - The [#components] map is a JavaScript [Map]: an insertion-ordered
      association list with unique keys.  The two observer maps are never
      iterated, they are finite maps.
    - Every call that leaves the manager (console, listener callbacks, the
      query client, observer construction and disconnection) is recorded,
      in order, in a trace of events.
    - Listener callbacks and query clients are opaque identities; a callback
      that re-enters the manager while it is being notified is outside the
      model.
    - Of the host, the model keeps the pointer listeners attached to
      elements; what the host reports to a callback (intersection entries,
      removed nodes, the bounding rectangle against the viewport, the
      visibility state) is an argument of that callback. *)

From stdpp Require Import base option list gmap strings.

Set Default Proof Using "Type".

(** ** JavaScript data *)

(** Component keys are strings; listeners and query clients are objects,
    told apart by their identity. *)
Abbreviation ComponentKey := string.
Abbreviation ComponentListener := nat.
Abbreviation QueryClient := nat.

(** An optional property of an object literal: [None] when the object has no
    such own property, [Some None] when the property is present and holds
    [undefined], [Some (Some v)] when it holds [v]. *)
Definition Optional (A : Type) : Type := option (option A).

(** Reading [o.p]: a missing property reads as [undefined]. *)
Definition read {A} (p : Optional A) : option A :=
  match p with Some v => v | None => None end.

(** Truthiness of a boolean-or-undefined value. *)
Definition truthy (v : option bool) : bool :=
  match v with Some true => true | _ => false end.

(** One property of [{...base, ...top}]. *)
Definition over {A} (base top : Optional A) : Optional A :=
  match top with Some v => Some v | None => base end.

Inductive FilterValue :=
| FString (s : string)
| FBool (b : bool)
| FOpaque (n : nat).

(** [InvalidateQueryFilters | RefetchQueryFilters]: an object with string
    property names. *)
Abbreviation QueryFilters := (gmap string FilterValue).

Record ComponentFocusManagerOptions := {
  refetchOnFocus : Optional bool;
  invalidateOnFocus : Optional bool;
  resetOnFocus : Optional bool;
  forceRefetch : Optional bool;
  queryFilters : Optional QueryFilters }.

(** The empty object literal. *)
Definition noOptions : ComponentFocusManagerOptions :=
  {| refetchOnFocus := None; invalidateOnFocus := None; resetOnFocus := None;
     forceRefetch := None; queryFilters := None |}.

(** [{...a, ...b}] on option objects. *)
Definition spread (a b : ComponentFocusManagerOptions) : ComponentFocusManagerOptions :=
  {| refetchOnFocus := over (refetchOnFocus a) (refetchOnFocus b);
     invalidateOnFocus := over (invalidateOnFocus a) (invalidateOnFocus b);
     resetOnFocus := over (resetOnFocus a) (resetOnFocus b);
     forceRefetch := over (forceRefetch a) (forceRefetch b);
     queryFilters := over (queryFilters a) (queryFilters b) |}.

(** Spreading [undefined] contributes no property. *)
Definition orEmpty (o : option ComponentFocusManagerOptions) : ComponentFocusManagerOptions :=
  default noOptions o.

Definition spreadFilters (f : option QueryFilters) : QueryFilters := default ∅ f.

(** The literal the constructor spreads its argument over. *)
Definition defaultOptions : ComponentFocusManagerOptions :=
  {| refetchOnFocus := Some (Some true);
     invalidateOnFocus := Some (Some true);
     resetOnFocus := Some (Some false);
     forceRefetch := Some (Some true);
     queryFilters := None |}.

Record ComponentFocusState := {
  focused : bool;
  queryClient : option QueryClient;
  listeners : list ComponentListener;
  options : option ComponentFocusManagerOptions }.

Definition withFocused (b : bool) (c : ComponentFocusState) : ComponentFocusState :=
  {| focused := b; queryClient := queryClient c; listeners := listeners c;
     options := options c |}.

Definition withQueryClient (q : option QueryClient) (c : ComponentFocusState) :=
  {| focused := focused c; queryClient := q; listeners := listeners c;
     options := options c |}.

Definition withListeners (ls : list ComponentListener) (c : ComponentFocusState) :=
  {| focused := focused c; queryClient := queryClient c; listeners := ls;
     options := options c |}.

Definition withOptions (o : option ComponentFocusManagerOptions) (c : ComponentFocusState) :=
  {| focused := focused c; queryClient := queryClient c; listeners := listeners c;
     options := o |}.

(** ** [Set] and [Map] with insertion order *)

Module JsSet.
(** [Set.prototype.add]: a member keeps its place, a new one goes last. *)
Definition add (x : nat) (s : list nat) : list nat :=
  if decide (x ∈ s) then s else s ++ [x].

(** [Set.prototype.delete]. *)
Definition delete (x : nat) (s : list nat) : list nat :=
  filter (λ y, y ≠ x) s.
End JsSet.

Module JsMap.
Section Ops.
Context {V : Type}.

Fixpoint get (k : string) (m : list (string * V)) : option V :=
  match m with
  | [] => None
  | (k', v) :: r => if decide (k' = k) then Some v else get k r
  end.

(** [Map.prototype.set]: an existing key keeps its place. *)
Fixpoint set (k : string) (v : V) (m : list (string * V)) : list (string * V) :=
  match m with
  | [] => [(k, v)]
  | (k', v') :: r =>
      if decide (k' = k) then (k, v) :: r else (k', v') :: set k v r
  end.

(** [Map.prototype.delete]. *)
Definition delete (k : string) (m : list (string * V)) : list (string * V) :=
  filter (λ kv, kv.1 ≠ k) m.

(** [Map.prototype.keys], in insertion order. *)
Definition keys (m : list (string * V)) : list string := m.*1.
End Ops.
End JsMap.

(** ** The host environment *)

Record HTMLElement := {
  elementId : nat;
  parentElement : option nat }.

Inductive PointerEvent := MouseEnter | MouseLeave.

Global Instance PointerEvent_eq_dec : EqDecision PointerEvent.
Proof. solve_decision. Defined.

(** An entry of an element's event-listener list. *)
Record PointerListener := {
  pl_element : nat;
  pl_type : PointerEvent;
  pl_handler : nat;
  pl_key : ComponentKey }.

Inductive Event :=
| ConsoleWarn (msg : string)
| ListenerCall (l : ComponentListener) (isFocused : bool)
| ResetQueries (qc : QueryClient) (filters : option QueryFilters)
| InvalidateQueries (qc : QueryClient) (filters : QueryFilters)
| RefetchQueries (qc : QueryClient) (filters : QueryFilters)
| IntersectionObserve (observer element : nat)
| IntersectionDisconnect (observer : nat)
| MutationObserve (observer parent : nat)
| MutationDisconnect (observer : nat).

(** ** The manager and everything it can reach *)

Record State := {
  components : list (ComponentKey * nat);
  globalFocused : bool;
  intersectionObservers : gmap ComponentKey nat;
  mutationObservers : gmap ComponentKey nat;
  managerOptions : ComponentFocusManagerOptions;
  (** [#globalCleanup] is not [null]: the three global handlers are attached. *)
  globalCleanup : bool;
  (** the object store: component state objects by address *)
  heap : gmap nat ComponentFocusState;
  (** pointer listeners attached to elements *)
  pointerListeners : list PointerListener;
  (** next unused object identity *)
  nextId : nat }.

(** ** A state and trace monad *)

Definition M (A : Type) : Type := State → A * State * list Event.

Definition ret {A} (a : A) : M A := λ s, (a, s, []).

Definition bind {A B} (m : M A) (f : A → M B) : M B := λ s,
  let '(a, s1, t1) := m s in
  let '(b, s2, t2) := f a s1 in
  (b, s2, t1 ++ t2).

Declare Scope m_scope.
Delimit Scope m_scope with M.
Notation "x <- m ;; k" := (bind m (λ x, k))
  (at level 100, m at next level, right associativity) : m_scope.
Notation "m ;; k" := (bind m (λ _, k))
  (at level 100, right associativity) : m_scope.
Local Open Scope m_scope.

Definition get : M State := λ s, (s, s, []).
Definition modify (f : State → State) : M unit := λ s, (tt, f s, []).
Definition emit (e : Event) : M unit := λ s, (tt, s, [e]).

Definition value {A} (r : A * State * list Event) : A := r.1.1.
Definition state {A} (r : A * State * list Event) : State := r.1.2.
Definition trace {A} (r : A * State * list Event) : list Event := r.2.

Fixpoint forEach {A} (f : A → M unit) (l : list A) : M unit :=
  match l with
  | [] => ret tt
  | x :: r => f x ;; forEach f r
  end.

(** Field updates of the manager. *)
Definition setComponents (c : list (ComponentKey * nat)) (s : State) : State :=
  {| components := c; globalFocused := globalFocused s;
     intersectionObservers := intersectionObservers s;
     mutationObservers := mutationObservers s;
     managerOptions := managerOptions s; globalCleanup := globalCleanup s;
     heap := heap s; pointerListeners := pointerListeners s; nextId := nextId s |}.

Definition setGlobalFocused (b : bool) (s : State) : State :=
  {| components := components s; globalFocused := b;
     intersectionObservers := intersectionObservers s;
     mutationObservers := mutationObservers s;
     managerOptions := managerOptions s; globalCleanup := globalCleanup s;
     heap := heap s; pointerListeners := pointerListeners s; nextId := nextId s |}.

Definition setIntersectionObservers (m : gmap ComponentKey nat) (s : State) : State :=
  {| components := components s; globalFocused := globalFocused s;
     intersectionObservers := m;
     mutationObservers := mutationObservers s;
     managerOptions := managerOptions s; globalCleanup := globalCleanup s;
     heap := heap s; pointerListeners := pointerListeners s; nextId := nextId s |}.

Definition setMutationObservers (m : gmap ComponentKey nat) (s : State) : State :=
  {| components := components s; globalFocused := globalFocused s;
     intersectionObservers := intersectionObservers s;
     mutationObservers := m;
     managerOptions := managerOptions s; globalCleanup := globalCleanup s;
     heap := heap s; pointerListeners := pointerListeners s; nextId := nextId s |}.

Definition setGlobalCleanup (b : bool) (s : State) : State :=
  {| components := components s; globalFocused := globalFocused s;
     intersectionObservers := intersectionObservers s;
     mutationObservers := mutationObservers s;
     managerOptions := managerOptions s; globalCleanup := b;
     heap := heap s; pointerListeners := pointerListeners s; nextId := nextId s |}.

Definition setHeap (h : gmap nat ComponentFocusState) (s : State) : State :=
  {| components := components s; globalFocused := globalFocused s;
     intersectionObservers := intersectionObservers s;
     mutationObservers := mutationObservers s;
     managerOptions := managerOptions s; globalCleanup := globalCleanup s;
     heap := h; pointerListeners := pointerListeners s; nextId := nextId s |}.

Definition setPointerListeners (p : list PointerListener) (s : State) : State :=
  {| components := components s; globalFocused := globalFocused s;
     intersectionObservers := intersectionObservers s;
     mutationObservers := mutationObservers s;
     managerOptions := managerOptions s; globalCleanup := globalCleanup s;
     heap := heap s; pointerListeners := p; nextId := nextId s |}.

Definition setNextId (n : nat) (s : State) : State :=
  {| components := components s; globalFocused := globalFocused s;
     intersectionObservers := intersectionObservers s;
     mutationObservers := mutationObservers s;
     managerOptions := managerOptions s; globalCleanup := globalCleanup s;
     heap := heap s; pointerListeners := pointerListeners s; nextId := n |}.

(** A new object identity. *)
Definition fresh : M nat := λ s, (nextId s, setNextId (S (nextId s)) s, []).

(** Mutating a field of the object at address [a]. *)
Definition mutate (a : nat) (f : ComponentFocusState → ComponentFocusState) : M unit :=
  modify (λ s, setHeap (alter f a (heap s)) s).

(** [element.addEventListener(type, handler)] with a handler that is not
    yet attached. *)
Definition addEventListener (el : nat) (ty : PointerEvent) (h : nat) (k : ComponentKey) : M unit :=
  modify (λ s, setPointerListeners
    (pointerListeners s ++
       [{| pl_element := el; pl_type := ty; pl_handler := h; pl_key := k |}]) s).

Definition sameListener (el : nat) (ty : PointerEvent) (h : nat) (p : PointerListener) : Prop :=
  pl_element p = el ∧ pl_type p = ty ∧ pl_handler p = h.

Global Instance sameListener_dec el ty h p : Decision (sameListener el ty h p).
Proof. unfold sameListener. apply _. Defined.

Definition removeEventListener (el : nat) (ty : PointerEvent) (h : nat) : M unit :=
  modify (λ s, setPointerListeners
    (filter (λ p, ¬ sameListener el ty h p) (pointerListeners s)) s).

(** ** The methods of [ComponentFocusManager] *)

(** What [registerComponent] returns: [noop], or the closure over the
    element, its two pointer handlers and the component key. *)
Inductive Teardown :=
| TeardownNoop
| TeardownClosure (element handleMouseEnter handleMouseLeave : nat)
                  (componentKey : ComponentKey).

(** What [subscribeToComponent] returns: [noop], or the closure over the
    component state object and the listener. *)
Inductive Unsubscribe :=
| UnsubscribeNoop
| UnsubscribeClosure (component : nat) (listener : ComponentListener).

(** [new ComponentFocusManager(options)].  [isServer] stands for
    [isServer || typeof document === 'undefined']. *)
Definition constructor (opts : ComponentFocusManagerOptions) (isServer : bool) : State :=
  {| components := [];
     globalFocused := true;
     intersectionObservers := ∅;
     mutationObservers := ∅;
     managerOptions := spread defaultOptions opts;
     globalCleanup := negb isServer;
     heap := ∅;
     pointerListeners := [];
     nextId := 0 |}.

Definition unregisterComponent (componentKey : ComponentKey) : M unit :=
  s <- get;;
  match intersectionObservers s !! componentKey with
  | Some intersectionObserver =>
      emit (IntersectionDisconnect intersectionObserver);;
      modify (λ s, setIntersectionObservers
                     (delete componentKey (intersectionObservers s)) s)
  | None => ret tt
  end;;
  match mutationObservers s !! componentKey with
  | Some mutationObserver =>
      emit (MutationDisconnect mutationObserver);;
      modify (λ s, setMutationObservers
                     (delete componentKey (mutationObservers s)) s)
  | None => ret tt
  end;;
  modify (λ s, setComponents (JsMap.delete componentKey (components s)) s).

Definition handleComponentFocus (queryClient : QueryClient)
    (componentOptions : option ComponentFocusManagerOptions) : M unit :=
  s <- get;;
  let options := spread (managerOptions s) (orEmpty componentOptions) in
  let queryFilters := read (queryFilters options) in
  if truthy (read (resetOnFocus options)) then
    emit (ResetQueries queryClient queryFilters)
  else if truthy (read (invalidateOnFocus options)) then
    let refetchType :=
      if truthy (read (forceRefetch options)) then "all" else "active" in
    emit (InvalidateQueries queryClient
            (<["refetchType" := FString refetchType]> (spreadFilters queryFilters)))
  else if truthy (read (refetchOnFocus options)) then
    emit (RefetchQueries queryClient
            (<["type" := FString "active"]> (spreadFilters queryFilters)))
  else ret tt.

(** The map holds the address of the state object; an address in the map is
    always allocated (see [wf]), so the [None] branch of the store lookup is
    never taken in a state a manager can be in. *)
Definition setComponentFocus (componentKey : ComponentKey) (isFocused : bool) : M unit :=
  s <- get;;
  match JsMap.get componentKey (components s) with
  | None => ret tt
  | Some a =>
      match heap s !! a with
      | None => ret tt
      | Some component =>
          let previouslyFocused := focused component in
          mutate a (withFocused isFocused);;
          if negb (eqb previouslyFocused isFocused) then
            forEach (λ listener, emit (ListenerCall listener isFocused))
                    (listeners component);;
            match isFocused, queryClient component with
            | true, Some qc => handleComponentFocus qc (options component)
            | _, _ => ret tt
            end
          else ret tt
      end
  end.

Definition registerComponent (componentKey : ComponentKey)
    (element : option HTMLElement) (queryClient : option QueryClient)
    (componentOptions : option ComponentFocusManagerOptions) : M Teardown :=
  match element with
  | None =>
      emit (ConsoleWarn
        ("ComponentFocusManager: Element not found for component " +:+ componentKey));;
      ret TeardownNoop
  | Some element =>
      unregisterComponent componentKey;;
      a <- fresh;;
      modify (λ s, setHeap (<[a := {| focused := false;
                                      queryClient := queryClient;
                                      listeners := [];
                                      options := componentOptions |}]> (heap s)) s);;
      modify (λ s, setComponents (JsMap.set componentKey a (components s)) s);;
      intersectionObserver <- fresh;;
      emit (IntersectionObserve intersectionObserver (elementId element));;
      modify (λ s, setIntersectionObservers
                     (<[componentKey := intersectionObserver]> (intersectionObservers s)) s);;
      match parentElement element with
      | Some parent =>
          mutationObserver <- fresh;;
          emit (MutationObserve mutationObserver parent);;
          modify (λ s, setMutationObservers
                         (<[componentKey := mutationObserver]> (mutationObservers s)) s)
      | None => ret tt
      end;;
      handleMouseEnter <- fresh;;
      handleMouseLeave <- fresh;;
      addEventListener (elementId element) MouseEnter handleMouseEnter componentKey;;
      addEventListener (elementId element) MouseLeave handleMouseLeave componentKey;;
      ret (TeardownClosure (elementId element) handleMouseEnter handleMouseLeave
                           componentKey)
  end.

(** Calling the function returned by [registerComponent]. *)
Definition runTeardown (t : Teardown) : M unit :=
  match t with
  | TeardownNoop => ret tt
  | TeardownClosure element handleMouseEnter handleMouseLeave componentKey =>
      removeEventListener element MouseEnter handleMouseEnter;;
      removeEventListener element MouseLeave handleMouseLeave;;
      unregisterComponent componentKey
  end.

Definition subscribeToComponent (componentKey : ComponentKey)
    (listener : ComponentListener) : M Unsubscribe :=
  s <- get;;
  match JsMap.get componentKey (components s) with
  | None =>
      emit (ConsoleWarn ("Component " +:+ componentKey +:+ " is not registered"));;
      ret UnsubscribeNoop
  | Some a =>
      match heap s !! a with
      | None => ret UnsubscribeNoop
      | Some component =>
          mutate a (λ c, withListeners (JsSet.add listener (listeners c)) c);;
          emit (ListenerCall listener (focused component));;
          ret (UnsubscribeClosure a listener)
      end
  end.

(** Calling the function returned by [subscribeToComponent]. *)
Definition runUnsubscribe (u : Unsubscribe) : M unit :=
  match u with
  | UnsubscribeNoop => ret tt
  | UnsubscribeClosure a listener =>
      mutate a (λ c, withListeners (JsSet.delete listener (listeners c)) c)
  end.

Definition isComponentFocused (componentKey : ComponentKey) (s : State) : bool :=
  match JsMap.get componentKey (components s) with
  | Some a => default false (focused <$> heap s !! a)
  | None => false
  end.

Definition isGloballyFocused (s : State) : bool := globalFocused s.

Definition notifyAllComponents : M unit :=
  s <- get;;
  if globalFocused s then ret tt
  else forEach (λ componentKey, setComponentFocus componentKey false)
               (JsMap.keys (components s)).

Definition focusComponent (componentKey : ComponentKey) : M unit :=
  setComponentFocus componentKey true.

Definition blurComponent (componentKey : ComponentKey) : M unit :=
  setComponentFocus componentKey false.

Definition blurAllComponents : M unit :=
  s <- get;;
  forEach (λ componentKey, setComponentFocus componentKey false)
          (JsMap.keys (components s)).

Definition getRegisteredComponents (s : State) : list ComponentKey :=
  JsMap.keys (components s).

Definition updateComponentQueryClient (componentKey : ComponentKey)
    (queryClient : QueryClient) : M unit :=
  s <- get;;
  match JsMap.get componentKey (components s) with
  | None => ret tt
  | Some a => mutate a (withQueryClient (Some queryClient))
  end.

Definition updateComponentOptions (componentKey : ComponentKey)
    (opts : ComponentFocusManagerOptions) : M unit :=
  s <- get;;
  match JsMap.get componentKey (components s) with
  | None => ret tt
  | Some a =>
      mutate a (λ c, withOptions (Some (spread (orEmpty (options c)) opts)) c)
  end.

(** [destroy]: a [Map] visits the entries that follow a deleted one, so the
    loop unregisters every key that was present. *)
Definition destroy : M unit :=
  s <- get;;
  forEach unregisterComponent (JsMap.keys (components s));;
  modify (setGlobalCleanup false).

(** ** Callbacks the host invokes *)

(** The three handlers installed by [setupGlobalFocusListener]. *)
Definition handleVisibilityChange (visible : bool) : M unit :=
  modify (setGlobalFocused visible);;
  notifyAllComponents.

Definition handleWindowFocus : M unit :=
  modify (setGlobalFocused true);;
  notifyAllComponents.

Definition handleWindowBlur : M unit :=
  modify (setGlobalFocused false);;
  notifyAllComponents.

(** The intersection callback of the registration of [componentKey]; an
    entry is its [isIntersecting] flag. *)
Definition intersectionCallback (componentKey : ComponentKey) (entries : list bool) : M unit :=
  forEach (λ isIntersecting : bool,
             s <- get;;
             setComponentFocus componentKey (isIntersecting && globalFocused s))
          entries.

(** The mutation callback; the host supplies whether some mutation removed
    nodes and whether the document still contains the element. *)
Definition mutationCallback (componentKey : ComponentKey)
    (hasRemovedNodes documentContains : bool) : M unit :=
  if hasRemovedNodes && negb documentContains
  then unregisterComponent componentKey
  else ret tt.

Definition handleMouseEnter (componentKey : ComponentKey) : M unit :=
  s <- get;;
  if globalFocused s then setComponentFocus componentKey true else ret tt.

(** The host supplies whether the bounding rectangle meets the viewport. *)
Definition handleMouseLeave (componentKey : ComponentKey) (isInViewport : bool) : M unit :=
  if negb isInViewport then setComponentFocus componentKey false else ret tt.

(** ** Calls into the manager *)

(** Everything that can happen to a manager: a method call, a returned
    closure being called, or a host callback.  A multi-entry intersection
    callback is a sequence of single-entry ones
    (see [intersectionCallback_cons]). *)
Inductive Call :=
| CallRegister (k : ComponentKey) (element : option HTMLElement)
               (qc : option QueryClient) (o : option ComponentFocusManagerOptions)
| CallTeardown (t : Teardown)
| CallUnregister (k : ComponentKey)
| CallSetFocus (k : ComponentKey) (v : bool)
| CallSubscribe (k : ComponentKey) (l : ComponentListener)
| CallUnsubscribe (u : Unsubscribe)
| CallFocus (k : ComponentKey)
| CallBlur (k : ComponentKey)
| CallBlurAll
| CallUpdateQueryClient (k : ComponentKey) (qc : QueryClient)
| CallUpdateOptions (k : ComponentKey) (o : ComponentFocusManagerOptions)
| CallDestroy
| HostVisibilityChange (visible : bool)
| HostWindowFocus
| HostWindowBlur
| HostIntersection (k : ComponentKey) (isIntersecting : bool)
| HostMutation (k : ComponentKey) (hasRemovedNodes documentContains : bool)
| HostMouseEnter (k : ComponentKey)
| HostMouseLeave (k : ComponentKey) (isInViewport : bool).

Definition discard {A} (m : M A) : M unit := _ <- m;; ret tt.

(** The global handlers only run while they are attached. *)
Definition whenAttached (m : M unit) : M unit :=
  s <- get;; if globalCleanup s then m else ret tt.

Definition exec (c : Call) : M unit :=
  match c with
  | CallRegister k el qc o => discard (registerComponent k el qc o)
  | CallTeardown t => runTeardown t
  | CallUnregister k => unregisterComponent k
  | CallSetFocus k v => setComponentFocus k v
  | CallSubscribe k l => discard (subscribeToComponent k l)
  | CallUnsubscribe u => runUnsubscribe u
  | CallFocus k => focusComponent k
  | CallBlur k => blurComponent k
  | CallBlurAll => blurAllComponents
  | CallUpdateQueryClient k qc => updateComponentQueryClient k qc
  | CallUpdateOptions k o => updateComponentOptions k o
  | CallDestroy => destroy
  | HostVisibilityChange visible => whenAttached (handleVisibilityChange visible)
  | HostWindowFocus => whenAttached handleWindowFocus
  | HostWindowBlur => whenAttached handleWindowBlur
  | HostIntersection k b => intersectionCallback k [b]
  | HostMutation k r d => mutationCallback k r d
  | HostMouseEnter k => handleMouseEnter k
  | HostMouseLeave k v => handleMouseLeave k v
  end.

(** States a manager can be in. *)
Inductive reachable : State → Prop :=
| reachable_new opts isServer : reachable (constructor opts isServer)
| reachable_call s c : reachable s → reachable (state (exec c s)).

(** The representation invariant: keys and addresses of [#components] are
    unique, every address is allocated below [nextId], listener sets have no
    repetition, and observers exist only for registered keys, with
    identities below [nextId]. *)
Definition wf (s : State) : Prop :=
  NoDup (components s).*1 ∧
  NoDup (components s).*2 ∧
  Forall (λ a, is_Some (heap s !! a)) (components s).*2 ∧
  map_Forall (λ a c, a < nextId s ∧ NoDup (listeners c)) (heap s) ∧
  map_Forall (λ k o, k ∈ (components s).*1 ∧ o < nextId s) (intersectionObservers s) ∧
  map_Forall (λ k o, k ∈ (components s).*1 ∧ o < nextId s) (mutationObservers s).

Global Instance wf_dec s : Decision (wf s).
Proof. unfold wf. apply _. Defined.

(** [k] is registered with the state object [c] at address [a]. *)
Definition registered (s : State) (k : ComponentKey) (a : nat)
    (c : ComponentFocusState) : Prop :=
  JsMap.get k (components s) = Some a ∧ heap s !! a = Some c.

(** ** Reading traces *)

Definition isCacheAction (e : Event) : bool :=
  match e with
  | ResetQueries _ _ | InvalidateQueries _ _ | RefetchQueries _ _ => true
  | _ => false
  end.

Definition isListenerCall (e : Event) : bool :=
  match e with ListenerCall _ _ => true | _ => false end.

(** The listener calls of a trace, in order. *)
Definition calls (t : list Event) : list (ComponentListener * bool) :=
  omap (λ e, match e with ListenerCall l b => Some (l, b) | _ => None end) t.

(** A trace without any call on a query client. *)
Definition quiet (t : list Event) : Prop :=
  Forall (λ e, isCacheAction e = false) t.

(** Every member of a listener set called once with [v], in set order. *)
Definition notifyAll (v : bool) (ls : list ComponentListener) : list Event :=
  (λ l, ListenerCall l v) <$> ls.

(** The calls a visibility loss makes for one component. *)
Definition blurNotifications (h : gmap nat ComponentFocusState) (a : nat) : list Event :=
  match h !! a with
  | Some c => if focused c then notifyAll false (listeners c) else []
  | None => []
  end.

(** The object store after the state objects at [addrs] were set to not
    focused, one after the other. *)
Definition blurHeap (h : gmap nat ComponentFocusState) (addrs : list nat) :
    gmap nat ComponentFocusState :=
  foldl (λ h a, alter (withFocused false) a h) h addrs.

(** The policy of [handleComponentFocus] on merged options, as a table. *)
Definition policy (qc : QueryClient) (o : ComponentFocusManagerOptions) : list Event :=
  let filters := read (queryFilters o) in
  if truthy (read (resetOnFocus o)) then [ResetQueries qc filters]
  else if truthy (read (invalidateOnFocus o)) then
    [InvalidateQueries qc
       (<["refetchType" :=
            FString (if truthy (read (forceRefetch o)) then "all" else "active")]>
          (spreadFilters filters))]
  else if truthy (read (refetchOnFocus o)) then
    [RefetchQueries qc (<["type" := FString "active"]> (spreadFilters filters))]
  else [].

(** ** Closed forms used in the statements *)

(** The manager after [unregisterComponent k]. *)
Definition unregistered (k : ComponentKey) (s : State) : State :=
  setComponents (JsMap.delete k (components s))
    (setMutationObservers (delete k (mutationObservers s))
       (setIntersectionObservers (delete k (intersectionObservers s)) s)).

(** The [disconnect] calls of [unregisterComponent k]. *)
Definition disconnects (k : ComponentKey) (s : State) : list Event :=
  match intersectionObservers s !! k with
  | Some o => [IntersectionDisconnect o]
  | None => []
  end ++
  match mutationObservers s !! k with
  | Some o => [MutationDisconnect o]
  | None => []
  end.

(** The cache call of a focus gain of the state object [c]. *)
Definition dispatch (s : State) (c : ComponentFocusState) : list Event :=
  match queryClient c with
  | Some qc => trace (handleComponentFocus qc (options c) s)
  | None => []
  end.

(** The state object [registerComponent] creates. *)
Definition newComponent (qc : option QueryClient)
    (o : option ComponentFocusManagerOptions) : ComponentFocusState :=
  {| focused := false; queryClient := qc; listeners := []; options := o |}.

(** The identity of the first pointer handler of a registration made when
    the next unused identity is [n]: the state object takes [n], the
    intersection observer [n + 1], a mutation observer [n + 2]. *)
Definition enterHandler (el : HTMLElement) (n : nat) : nat :=
  match parentElement el with Some _ => n + 3 | None => n + 2 end.

(** The manager after [registerComponent k el qc o] with an element. *)
Definition registration (k : ComponentKey) (el : HTMLElement)
    (qc : option QueryClient) (o : option ComponentFocusManagerOptions)
    (s : State) : State :=
  let n := nextId s in
  {| components := JsMap.set k n (JsMap.delete k (components s));
     globalFocused := globalFocused s;
     intersectionObservers := <[k := S n]> (delete k (intersectionObservers s));
     mutationObservers :=
       match parentElement el with
       | Some _ => <[k := S (S n)]> (delete k (mutationObservers s))
       | None => delete k (mutationObservers s)
       end;
     managerOptions := managerOptions s;
     globalCleanup := globalCleanup s;
     heap := <[n := newComponent qc o]> (heap s);
     pointerListeners :=
       pointerListeners s ++
       [{| pl_element := elementId el; pl_type := MouseEnter;
           pl_handler := enterHandler el n; pl_key := k |};
        {| pl_element := elementId el; pl_type := MouseLeave;
           pl_handler := S (enterHandler el n); pl_key := k |}];
     nextId := S (S (enterHandler el n)) |}.

(** The observers [registerComponent] starts. *)
Definition observes (el : HTMLElement) (n : nat) : list Event :=
  IntersectionObserve (S n) (elementId el) ::
  match parentElement el with
  | Some parent => [MutationObserve (S (S n)) parent]
  | None => []
  end.

(** The manager after the closure returned by [registerComponent] ran. *)
Definition tornDown (el h1 h2 : nat) (k : ComponentKey) (s : State) : State :=
  unregistered k
    (setPointerListeners
       (filter (λ p, ¬ sameListener el MouseLeave h2 p)
          (filter (λ p, ¬ sameListener el MouseEnter h1 p) (pointerListeners s))) s).

(** ** Sources of a listener call *)

(** Between [s] and [s'] the stored focus state of a record that holds the
    listener [l] went from [negb v] to [v]. *)
Definition focusChanged (s s' : State) (l : ComponentListener) (v : bool) : Prop :=
  ∃ k a c, registered s k a c ∧ l ∈ listeners c ∧ focused c = negb v ∧
           focused <$> heap s' !! a = Some v.

(** [call] subscribes [l] to a registered key whose stored state is [v]. *)
Definition subscription (s : State) (call : Call) (l : ComponentListener)
    (v : bool) : Prop :=
  ∃ k a c, call = CallSubscribe k l ∧ registered s k a c ∧ v = focused c.

(** As [subscription], when [l] is not yet in the listener set of the
    record.  This holds in particular when the set is empty, as it is at the
    first subscription to a key. *)
Definition firstSubscription (s : State) (call : Call) (l : ComponentListener)
    (v : bool) : Prop :=
  ∃ k a c, call = CallSubscribe k l ∧ registered s k a c ∧ v = focused c ∧
           l ∉ listeners c.

(** Between [s] and [s'] a record went from not focused to focused, and [e]
    is a call of the dispatch on its query client and options. *)
Definition focusGained (s s' : State) (e : Event) : Prop :=
  ∃ k a c, registered s k a c ∧ focused c = false ∧ e ∈ dispatch s c ∧
           focused <$> heap s' !! a = Some true.

(** ** Two statements that do not hold *)

(** A dispatch makes exactly one call on the query client. *)
Definition firesExactlyOne (qc : QueryClient)
    (o : option ComponentFocusManagerOptions) (s : State) : Prop :=
  ∃ e, trace (handleComponentFocus qc o s) = [e] ∧ isCacheAction e = true.

(** Per-registration options that switch both default policies off. *)
Definition policiesOff : ComponentFocusManagerOptions :=
  {| refetchOnFocus := Some (Some false);
     invalidateOnFocus := Some (Some false);
     resetOnFocus := None;
     forceRefetch := None;
     queryFilters := None |}.

(** A listener is called only when a focus state changed, or when it is
    subscribed for the first time. *)
Definition notifiedOnlyOnChangeOrFirstSubscription : Prop :=
  ∀ s call l v, wf s → ListenerCall l v ∈ trace (exec call s) →
    focusChanged s (state (exec call s)) l v ∨ firstSubscription s call l v.

(** ** A small scenario *)

Definition panel : HTMLElement := {| elementId := 100; parentElement := Some 200 |}.
Definition orphan : HTMLElement := {| elementId := 101; parentElement := None |}.

(** A browser manager with default options, the key ["k"] registered with
    query client [7], and listener [5] subscribed to it. *)
Definition oneComponent : State :=
  state ((registerComponent "k" (Some panel) (Some 7) None;;
          subscribeToComponent "k" 5) (constructor noOptions false)).

Definition blurredRecord : ComponentFocusState :=
  {| focused := false; queryClient := Some 7; listeners := [5]; options := None |}.

(** Registering ["a"], ["b"] and ["c"], then unregistering ["b"]. *)
Definition threeThenDrop : State :=
  state ((registerComponent "a" (Some panel) None None;;
          registerComponent "b" (Some orphan) None None;;
          registerComponent "c" (Some panel) None None;;
          unregisterComponent "b") (constructor noOptions false)).

(** [oneComponent] with its component in focus. *)
Definition oneFocused : State := state (setComponentFocus "k" true oneComponent).

(** ** The manager, beyond the claims *)

(** The manager after [unregisterComponent] ran for each key of [ks]. *)
Definition unregisterAll (ks : list ComponentKey) (s : State) : State :=
  foldl (λ s k, unregistered k s) s ks.

(** The callbacks the host invokes, as opposed to calls by the application. *)
Definition isHostCall (c : Call) : bool :=
  match c with
  | HostVisibilityChange _ | HostWindowFocus | HostWindowBlur
  | HostIntersection _ _ | HostMutation _ _ _
  | HostMouseEnter _ | HostMouseLeave _ _ => true
  | _ => false
  end.

(** [oneFocused] after the window lost focus. *)
Definition hiddenComponent : State := state (handleWindowBlur oneFocused).

(** The pointer listeners of [s] all have identities below [nextId s]. *)
Definition handlersFresh (s : State) : Prop :=
  Forall (λ p, pl_handler p < nextId s) (pointerListeners s).

(** The [mouseenter] listener that a registration made in state [s] attaches
    to its element. *)
Definition enterListener (k : ComponentKey) (el : HTMLElement) (s : State) :
    PointerListener :=
  {| pl_element := elementId el; pl_type := MouseEnter;
     pl_handler := enterHandler el (nextId s); pl_key := k |}.

(** The elementary changes of a manager: every call is a sequence of them
    (see [exec_steps]). *)
Inductive step : State → State → Prop :=
| step_heap s h : step s (setHeap h s)
| step_globalFocused s b : step s (setGlobalFocused b s)
| step_globalCleanup s b : step s (setGlobalCleanup b s)
| step_detach s el ty h :
    step s (setPointerListeners
              (filter (λ p, ¬ sameListener el ty h p) (pointerListeners s)) s)
| step_unregister s k : step s (unregistered k s)
| step_register s k el qc o : step s (registration k el qc o s).

(** Every registered key has an intersection observer. *)
Definition observed (s : State) : Prop :=
  ∀ k, k ∈ getRegisteredComponents s → is_Some (intersectionObservers s !! k).

(** ** The hooks that call the manager *)

(** [useComponentFocusGroup]: [`${groupKey}-${componentKey}`]. *)
Definition fullComponentKey (groupKey componentKey : string) : ComponentKey :=
  groupKey +:+ "-" +:+ componentKey.

Definition focusGroup (groupKey : string) (componentKeys : list string) : M unit :=
  forEach (λ componentKey, focusComponent (fullComponentKey groupKey componentKey))
          componentKeys.

Definition blurGroup (groupKey : string) (componentKeys : list string) : M unit :=
  forEach (λ componentKey, blurComponent (fullComponentKey groupKey componentKey))
          componentKeys.

(** [Array.prototype.indexOf]; [None] stands for [-1]. *)
Fixpoint indexOf (key : string) (self : list string) : option nat :=
  match self with
  | [] => None
  | x :: r => if decide (x = key) then Some 0 else S <$> indexOf key r
  end.

(** [Array.prototype.filter] with a callback that reads the element and its
    index; [filterFrom p i l] treats [l] as the part of the array from
    index [i] on. *)
Fixpoint filterFrom {A} (p : A → nat → bool) (index : nat) (l : list A) : list A :=
  match l with
  | [] => []
  | x :: r =>
      if p x index then x :: filterFrom p (S index) r
      else filterFrom p (S index) r
  end.

(** [self.filter((key, index, self) => self.indexOf(key) === index)]. *)
Definition uniqueKeys (self : list string) : list string :=
  filterFrom (λ key index, bool_decide (indexOf key self = Some index)) 0 self.

(** The state update of the group listener of [componentKey]. *)
Definition nextFocusedKeys (isFocused : bool) (componentKey : string)
    (prev : list string) : list string :=
  if isFocused then uniqueKeys (prev ++ [componentKey])
  else filter (λ key, key ≠ componentKey) prev.

(** The elements of [l] that are neither in [seen] nor earlier in [l]. *)
Fixpoint keepFirst (seen l : list string) : list string :=
  match l with
  | [] => []
  | x :: r =>
      if decide (x ∈ seen) then keepFirst (seen ++ [x]) r
      else x :: keepFirst (seen ++ [x]) r
  end.

(** The options of [useComponentFocus]; [None] is [undefined]. *)
Record UseComponentFocusOptions := {
  use_componentKey : ComponentKey;
  use_invalidateOnFocus : option bool;
  use_refetchOnFocus : option bool;
  use_resetOnFocus : option bool;
  use_forceRefetch : option bool;
  use_queryFilters : option QueryFilters;
  use_enabled : option bool }.

(** The object the hook passes to [updateComponentOptions]: the destructuring
    defaults are applied and every property is present, [queryFilters]
    possibly with the value [undefined]. *)
Definition hookOptions (h : UseComponentFocusOptions) : ComponentFocusManagerOptions :=
  {| refetchOnFocus := Some (Some (default true (use_refetchOnFocus h)));
     invalidateOnFocus := Some (Some (default true (use_invalidateOnFocus h)));
     resetOnFocus := Some (Some (default false (use_resetOnFocus h)));
     forceRefetch := Some (Some (default true (use_forceRefetch h)));
     queryFilters := Some (use_queryFilters h) |}.

(** The two effects of [useComponentFocus] when they run after a render, in
    their order; [current] is [elementRef.current] and [listener] the
    function the first effect subscribes.  The result is the cleanup of the
    first effect. *)
Definition useComponentFocusEffects (h : UseComponentFocusOptions)
    (current : option HTMLElement) (queryClient : QueryClient)
    (listener : ComponentListener) : M (option (Unsubscribe * Teardown)) :=
  if default true (use_enabled h) then
    unregister <- registerComponent (use_componentKey h) current
                    (Some queryClient) None;;
    unsubscribe <- subscribeToComponent (use_componentKey h) listener;;
    updateComponentOptions (use_componentKey h) (hookOptions h);;
    ret (Some (unsubscribe, unregister))
  else ret None.

Definition useComponentFocusCleanup (cleanup : option (Unsubscribe * Teardown)) :
    M unit :=
  match cleanup with
  | Some (unsubscribe, unregister) =>
      runUnsubscribe unsubscribe;;
      runTeardown unregister
  | None => ret tt
  end.

(** Hook options that leave every flag to its default. *)
Definition plainHook (k : ComponentKey) : UseComponentFocusOptions :=
  {| use_componentKey := k; use_invalidateOnFocus := None;
     use_refetchOnFocus := None; use_resetOnFocus := None;
     use_forceRefetch := None; use_queryFilters := None; use_enabled := None |}.

(** Constructor options that switch invalidation off. *)
Definition refetchOnly : ComponentFocusManagerOptions :=
  {| refetchOnFocus := Some (Some true);
     invalidateOnFocus := Some (Some false);
     resetOnFocus := None; forceRefetch := None; queryFilters := None |}.

(** ** The base class [Subscribable] *)

(** The state of a [Subscribable] is its listener set; [onSubscribe] and
    [onUnsubscribe] do nothing in the class itself. *)
Module Subscribable.
Definition subscribe (listener : nat) (listeners : list nat) : list nat :=
  JsSet.add listener listeners.

(** Calling the function [subscribe] returned for [listener]. *)
Definition unsubscribe (listener : nat) (listeners : list nat) : list nat :=
  JsSet.delete listener listeners.

Definition hasListeners (listeners : list nat) : bool :=
  bool_decide (0 < length listeners).
End Subscribable.

(** ** Restoring a persisted client *)

Record PersistedClient := {
  timestamp : Z;
  buster : string;
  clientState : nat }.

(** [maxAge] is a number of milliseconds, possibly [Infinity]. *)
Inductive MaxAge := Finite (ms : Z) | Infinite.

Inductive Settled (A : Type) :=
| Fulfilled (a : A)
| RejectedWith (err : nat).
Global Arguments Fulfilled {A} a.
Global Arguments RejectedWith {A} err.

(** How one call of [persister.removeClient] ends: it returns a value or a
    promise that fulfils, it returns a promise that rejects, or it throws. *)
Inductive RemoveResult :=
| RemoveOk
| RemoveRejects (err : nat)
| RemoveThrows (err : nat).

(** What the collaborators of one restore do.  [restoreClient] is awaited
    inside the [try], so a throw and a rejection are the same there;
    [removeClient n] is the outcome of call number [n] of [removeClient]. *)
Record RestoreEnv := {
  restoreClient : Settled (option PersistedClient);
  hydrateThrows : option nat;
  removeClient : nat → RemoveResult;
  now : Z;
  production : bool }.

Record RestoreOptions := {
  opt_maxAge : option MaxAge;
  opt_buster : option string }.

Inductive PersistCall :=
| CallRestoreClient
| CallRemoveClient
| CallHydrate (clientState : nat)
| CallConsoleError (err : nat)
| CallConsoleWarn (msg : string).

(** Truthiness of a timestamp (timestamps are integers here). *)
Definition truthyNumber (n : Z) : bool := negb (n =? 0)%Z.

(** [age > maxAge]. *)
Definition olderThan (age : Z) (maxAge : MaxAge) : bool :=
  match maxAge with
  | Finite ms => (ms <? age)%Z
  | Infinite => false
  end.

Definition defaultMaxAge : MaxAge := Finite (1000 * 60 * 60 * 24).

Definition restoreWarning : string :=
  "Encountered an error attempting to restore client cache from persisted location. As a precaution, the persisted cache will be discarded.".

(** The [catch] block, entered after the calls [before] with [removed] calls
    of [removeClient] made so far. *)
Definition restoreCatch (env : RestoreEnv) (before : list PersistCall)
    (removed : nat) (err : nat) : list PersistCall * Settled unit :=
  let calls :=
    before ++
    (if production env then []
     else [CallConsoleError err; CallConsoleWarn restoreWarning]) ++
    [CallRemoveClient] in
  match removeClient env removed with
  | RemoveOk => (calls, RejectedWith err)
  | RemoveRejects e | RemoveThrows e => (calls, RejectedWith e)
  end.

(** [return persister.removeClient()] inside the [try]: a rejected promise
    is returned as it is, a throw goes to the [catch] block. *)
Definition restoreRemove (env : RestoreEnv) (before : list PersistCall) :
    list PersistCall * Settled unit :=
  match removeClient env 0 with
  | RemoveOk => (before ++ [CallRemoveClient], Fulfilled tt)
  | RemoveRejects e => (before ++ [CallRemoveClient], RejectedWith e)
  | RemoveThrows e => restoreCatch env (before ++ [CallRemoveClient]) 1 e
  end.

Definition persistQueryClientRestore (env : RestoreEnv) (opts : RestoreOptions) :
    list PersistCall * Settled unit :=
  let maxAge := default defaultMaxAge (opt_maxAge opts) in
  let wanted := default "" (opt_buster opts) in
  match restoreClient env with
  | RejectedWith err => restoreCatch env [CallRestoreClient] 0 err
  | Fulfilled None => ([CallRestoreClient], Fulfilled tt)
  | Fulfilled (Some persistedClient) =>
      if truthyNumber (timestamp persistedClient) then
        let expired := olderThan (now env - timestamp persistedClient) maxAge in
        let busted := negb (bool_decide (buster persistedClient = wanted)) in
        if expired || busted then restoreRemove env [CallRestoreClient]
        else
          match hydrateThrows env with
          | Some err =>
              restoreCatch env
                [CallRestoreClient; CallHydrate (clientState persistedClient)] 0 err
          | None =>
              ([CallRestoreClient; CallHydrate (clientState persistedClient)],
               Fulfilled tt)
          end
      else restoreRemove env [CallRestoreClient]
  end.

(** The persisted client is usable: it has a timestamp, is not older than
    [maxAge] and carries the wanted buster. *)
Definition usable (env : RestoreEnv) (opts : RestoreOptions)
    (pc : PersistedClient) : Prop :=
  timestamp pc ≠ 0%Z ∧
  olderThan (now env - timestamp pc)
    (default defaultMaxAge (opt_maxAge opts)) = false ∧
  buster pc = default "" (opt_buster opts).

(** ** [persistQueryClient]: unsubscribing while the restore is pending *)

(** The variables of the closure, and whether the caches are subscribed. *)
Record PersistSession := {
  hasUnsubscribed : bool;
  persistQueryClientUnsubscribe : bool;
  subscribed : bool;
  subscriptions : nat }.

Inductive SessionEvent :=
| UnsubscribeCalled
| RestoreFulfilled.

Definition sessionStart : PersistSession :=
  {| hasUnsubscribed := false; persistQueryClientUnsubscribe := false;
     subscribed := false; subscriptions := 0 |}.

Definition sessionStep (st : PersistSession) (e : SessionEvent) : PersistSession :=
  match e with
  | UnsubscribeCalled =>
      {| hasUnsubscribed := true;
         persistQueryClientUnsubscribe := persistQueryClientUnsubscribe st;
         subscribed :=
           if persistQueryClientUnsubscribe st then false else subscribed st;
         subscriptions := subscriptions st |}
  | RestoreFulfilled =>
      if hasUnsubscribed st then st
      else {| hasUnsubscribed := false;
              persistQueryClientUnsubscribe := true;
              subscribed := true;
              subscriptions := S (subscriptions st) |}
  end.

(** The state after the events [events], in their order; [RestoreFulfilled]
    is the callback passed to [then], which a rejected restore never runs. *)
Definition sessionRun (events : list SessionEvent) : PersistSession :=
  foldl sessionStep sessionStart events.

Definition isConsoleCall (c : PersistCall) : bool :=
  match c with
  | CallConsoleError _ | CallConsoleWarn _ => true
  | _ => false
  end.


(** ** Saving the client *)

(** The client [persistQueryClientSave] hands to [persister.persistClient],
    at time [nowMs] and with [dehydrated] the dehydrated cache. *)
Definition persistQueryClientSave (nowMs : Z) (dehydrated : nat)
    (wanted : option string) : PersistedClient :=
  {| buster := default "" wanted;
     timestamp := nowMs;
     clientState := dehydrated |}.

Definition cacheEventTypes : list string := ["added"; "removed"; "updated"].

Definition isCacheEventType (eventType : string) : bool :=
  bool_decide (eventType ∈ cacheEventTypes).

(** The callback [persistQueryClientSubscribe] gives to both caches: the
    clients it persists on an event of type [eventType]. *)
Definition onCacheEvent (eventType : string) (nowMs : Z) (dehydrated : nat)
    (wanted : option string) : list PersistedClient :=
  if isCacheEventType eventType
  then [persistQueryClientSave nowMs dehydrated wanted]
  else [].

(** A persister that gives back the client [pc] and never fails, read at
    time [nowMs]. *)
Definition storing (pc : PersistedClient) (nowMs : Z) (prod : bool) : RestoreEnv :=
  {| restoreClient := Fulfilled (Some pc);
     hydrateThrows := None;
     removeClient := λ _, RemoveOk;
     now := nowMs;
     production := prod |}.

(** * Properties *)

(** ** Insertion-ordered sets and maps *)

Section JsSetFacts.
Implicit Types (x y : nat) (s : list nat).

Lemma JsSet_add_elem x s : x ∈ JsSet.add x s.
Proof.
  unfold JsSet.add. case_decide; [done|]. apply elem_of_app. right. by left.
Qed.

Lemma JsSet_add_NoDup x s : NoDup s → NoDup (JsSet.add x s).
Proof.
  intros Hs. unfold JsSet.add. case_decide; [done|].
  apply NoDup_app. split_and!; [done| |apply NoDup_singleton].
  intros y Hy Hy'. apply list_elem_of_singleton in Hy'. by subst.
Qed.

Lemma JsSet_delete_not_elem x s : x ∉ JsSet.delete x s.
Proof. unfold JsSet.delete. rewrite list_elem_of_filter. tauto. Qed.

Lemma JsSet_delete_other x y s : y ≠ x → y ∈ JsSet.delete x s ↔ y ∈ s.
Proof. unfold JsSet.delete. rewrite list_elem_of_filter. tauto. Qed.

Lemma JsSet_delete_NoDup x s : NoDup s → NoDup (JsSet.delete x s).
Proof. apply NoDup_filter. Qed.

Lemma JsSet_delete_idemp x s :
  JsSet.delete x (JsSet.delete x s) = JsSet.delete x s.
Proof.
  unfold JsSet.delete. rewrite list_filter_filter.
  apply list_filter_iff. intros y. tauto.
Qed.
End JsSetFacts.

Section JsMapFacts.
Context {V : Type}.
Implicit Types (k : string) (v : V) (m : list (string * V)).

Lemma JsMap_get_None k m : JsMap.get k m = None ↔ k ∉ m.*1.
Proof.
  induction m as [|[k' v'] m IH]; simpl.
  - split; [intros _; apply not_elem_of_nil | done].
  - rewrite not_elem_of_cons. destruct (decide (k' = k)) as [->|Hne].
    + split; [done|]. by intros [? _].
    + rewrite IH. split; [intros ?; split; [congruence|done] | by intros [_ ?]].
Qed.

Lemma JsMap_get_Some_elem k v m : JsMap.get k m = Some v → (k, v) ∈ m.
Proof.
  induction m as [|[k' v'] m IH]; simpl; [done|].
  case_decide; intros ?; simplify_eq; [left | right; auto].
Qed.

Lemma JsMap_elem_get k v m : NoDup m.*1 → (k, v) ∈ m → JsMap.get k m = Some v.
Proof.
  induction m as [|[k' v'] m IH]; simpl; intros Hnd Hin.
  - by apply elem_of_nil in Hin.
  - apply NoDup_cons in Hnd as [Hk' Hnd].
    apply elem_of_cons in Hin as [?|Hin]; simplify_eq.
    + by rewrite decide_True.
    + rewrite decide_False; [auto|].
      intros ->. apply Hk'. by apply (list_elem_of_fmap_2 fst) in Hin.
Qed.

Lemma JsMap_get_delete_eq k m : JsMap.get k (JsMap.delete k m) = None.
Proof.
  apply JsMap_get_None. unfold JsMap.delete.
  intros [[k' v'] [-> Hin]]%list_elem_of_fmap_1.
  apply list_elem_of_filter in Hin as [Hne _]. by apply Hne.
Qed.

Lemma JsMap_get_delete_ne k k' m :
  k ≠ k' → JsMap.get k' (JsMap.delete k m) = JsMap.get k' m.
Proof.
  intros Hne. unfold JsMap.delete.
  induction m as [|[k1 v1] m IH]; [done|].
  rewrite filter_cons. simpl. repeat case_decide; simplify_eq/=; try done.
  - by rewrite decide_True.
  - by rewrite decide_False.
Qed.

Lemma JsMap_delete_absent k m : JsMap.get k m = None → JsMap.delete k m = m.
Proof.
  unfold JsMap.delete. induction m as [|[k1 v1] m IH]; [done|]. simpl.
  case_decide; [done|]. intros Hm.
  rewrite filter_cons_True by done. by rewrite IH.
Qed.

Lemma JsMap_keys_delete k m :
  JsMap.keys (JsMap.delete k m) = filter (λ k', k' ≠ k) (JsMap.keys m).
Proof.
  unfold JsMap.keys, JsMap.delete. induction m as [|[k1 v1] m IH]; [done|].
  rewrite fmap_cons, !filter_cons. simpl. case_decide; by rewrite ?fmap_cons, IH.
Qed.

Lemma JsMap_delete_sublist k m : sublist (JsMap.delete k m) m.
Proof. apply sublist_filter. Qed.

Lemma JsMap_delete_idemp k m :
  JsMap.delete k (JsMap.delete k m) = JsMap.delete k m.
Proof. apply JsMap_delete_absent, JsMap_get_delete_eq. Qed.

Lemma JsMap_set_absent k v m : JsMap.get k m = None → JsMap.set k v m = m ++ [(k, v)].
Proof.
  induction m as [|[k1 v1] m IH]; [done|]. simpl.
  case_decide; [done|]. intros Hm. by rewrite IH.
Qed.

Lemma JsMap_get_snoc k k' v m :
  JsMap.get k' (m ++ [(k, v)]) =
  match JsMap.get k' m with
  | Some v' => Some v'
  | None => if decide (k = k') then Some v else None
  end.
Proof.
  induction m as [|[k1 v1] m IH]; simpl; [done|].
  destruct (decide (k1 = k')); [done | apply IH].
Qed.
End JsMapFacts.

(** ** The monad *)

Lemma bind_eq {A B} (m : M A) (f : A → M B) s a s1 t1 b s2 t2 :
  m s = (a, s1, t1) → f a s1 = (b, s2, t2) → bind m f s = (b, s2, t1 ++ t2).
Proof. intros Hm Hf. unfold bind. by rewrite Hm, Hf. Qed.

Lemma bind_unfold {A B} (m : M A) (f : A → M B) s :
  bind m f s =
  (value (f (value (m s)) (state (m s))),
   state (f (value (m s)) (state (m s))),
   trace (m s) ++ trace (f (value (m s)) (state (m s)))).
Proof.
  unfold bind, value, state, trace.
  destruct (m s) as [[a s1] t1]; simpl. by destruct (f a s1) as [[b s2] t2].
Qed.

Lemma forEach_emit (g : nat → Event) ls s :
  forEach (λ l, emit (g l)) ls s = (tt, s, g <$> ls).
Proof.
  induction ls as [|l ls IH]; [done|]. simpl.
  by erewrite bind_eq; [|reflexivity|apply IH].
Qed.

(** ** Closed forms of the methods *)

Lemma handleComponentFocus_eq qc o s :
  handleComponentFocus qc o s =
  (tt, s, policy qc (spread (managerOptions s) (orEmpty o))).
Proof.
  unfold handleComponentFocus, policy, bind, get, emit, ret. simpl.
  repeat match goal with |- context [if ?b then _ else _] => destruct b end;
    reflexivity.
Qed.

Lemma unregisterComponent_eq k s :
  unregisterComponent k s = (tt, unregistered k s, disconnects k s).
Proof.
  unfold unregisterComponent, unregistered, disconnects, bind, get, emit, modify, ret.
  destruct s as [cs gf io mo opts gc h pl n]; simpl.
  destruct (io !! k) as [o|] eqn:Hio, (mo !! k) as [o'|] eqn:Hmo; simpl;
    unfold setComponents, setMutationObservers, setIntersectionObservers; simpl;
    rewrite ?(delete_id io), ?(delete_id mo) by done; reflexivity.
Qed.

Lemma setComponentFocus_absent k v s :
  JsMap.get k (components s) = None → setComponentFocus k v s = (tt, s, []).
Proof. intros Hk. unfold setComponentFocus, bind, get, ret. simpl. by rewrite Hk. Qed.

Lemma setComponentFocus_eq k v s a c :
  registered s k a c →
  setComponentFocus k v s =
  (tt, setHeap (alter (withFocused v) a (heap s)) s,
   if negb (eqb (focused c) v)
   then notifyAll v (listeners c) ++ (if v then dispatch s c else [])
   else []).
Proof.
  intros [Hk Ha]. unfold setComponentFocus, bind at 1, get. simpl.
  rewrite Hk, Ha. unfold mutate, modify, bind at 1.
  destruct (negb (eqb (focused c) v)); [|done].
  unfold bind. rewrite forEach_emit. unfold dispatch.
  destruct v, (queryClient c) as [qc|]; simpl; try done.
  rewrite !handleComponentFocus_eq. done.
Qed.

(** ** The refresh policy *)

(** C1, as stated, fails: with per-registration options
    [{refetchOnFocus: false, invalidateOnFocus: false}] over the default
    manager, a dispatch reaches none of the three branches and calls nothing
    on the query client, so it is not true that exactly one action fires on
    every dispatch. *)
Lemma C1_no_action_when_all_flags_off :
  ¬ firesExactlyOne 7 (Some policiesOff) (constructor noOptions false).
Proof. intros (e & He & _). vm_compute in He. discriminate He. Qed.

(** C1, amended: a dispatch reads the per-registration options spread over
    the manager options (the constructor's defaults [refetchOnFocus = true],
    [invalidateOnFocus = true], [resetOnFocus = false], [forceRefetch = true]
    under the constructor argument), leaves the manager unchanged and makes
    at most one call on the query client, the first truthy flag winning:
    [resetQueries(queryFilters)] when [resetOnFocus]; otherwise
    [invalidateQueries] with [refetchType] ['all'] when [forceRefetch] and
    ['active'] when not, if [invalidateOnFocus]; otherwise [refetchQueries]
    with [type] ['active'] if [refetchOnFocus]; and no call when no flag is
    truthy.  A manager and registration without options invalidate with
    [refetchType] ['all']. *)
Theorem C1_refresh_policy (s : State) (qc : QueryClient)
    (co : option ComponentFocusManagerOptions) :
  let o := spread (managerOptions s) (orEmpty co) in
  let r := handleComponentFocus qc co s in
  let filters := read (queryFilters o) in
  let reset := truthy (read (resetOnFocus o)) in
  let invalidate := truthy (read (invalidateOnFocus o)) in
  let refetch := truthy (read (refetchOnFocus o)) in
  let force := truthy (read (forceRefetch o)) in
  (∀ opts isServer,
     managerOptions (constructor opts isServer) = spread defaultOptions opts) ∧
  state r = s ∧
  trace r =
    (if reset then [ResetQueries qc filters]
     else if invalidate then
       [InvalidateQueries qc
          (<["refetchType" := FString (if force then "all" else "active")]>
             (spreadFilters filters))]
     else if refetch then
       [RefetchQueries qc (<["type" := FString "active"]> (spreadFilters filters))]
     else []) ∧
  (trace r = [] ↔ reset || invalidate || refetch = false) ∧
  length (trace r) ≤ 1 ∧
  Forall (λ e, isCacheAction e = true) (trace r) ∧
  (∀ isServer,
     trace (handleComponentFocus qc None (constructor noOptions isServer)) =
     [InvalidateQueries qc {["refetchType" := FString "all"]}]).
Proof.
  intros o r filters reset invalidate refetch force.
  assert (Hr : r = (tt, s, if reset then [ResetQueries qc filters]
     else if invalidate then
       [InvalidateQueries qc
          (<["refetchType" := FString (if force then "all" else "active")]>
             (spreadFilters filters))]
     else if refetch then
       [RefetchQueries qc (<["type" := FString "active"]> (spreadFilters filters))]
     else [])) by apply handleComponentFocus_eq.
  rewrite Hr. clear Hr. unfold state, trace. simpl.
  clearbody reset invalidate refetch force filters.
  split_and!; try done.
  - destruct reset, invalidate, refetch; simpl; split; done.
  - destruct reset, invalidate, refetch; simpl; lia.
  - destruct reset, invalidate, refetch; simpl; repeat constructor.
Qed.

(** ** Focus transitions *)

Lemma calls_app t1 t2 : calls (t1 ++ t2) = calls t1 ++ calls t2.
Proof. apply omap_app. Qed.

Lemma calls_notifyAll v ls : calls (notifyAll v ls) = (λ l, (l, v)) <$> ls.
Proof. induction ls as [|l ls IH]; [done|]. simpl. by f_equal. Qed.

Lemma policy_cache_actions qc o : Forall (λ e, isCacheAction e = true) (policy qc o).
Proof.
  unfold policy.
  repeat match goal with |- context [if ?b then _ else _] => destruct b end;
    repeat constructor.
Qed.

Lemma dispatch_cache_actions s c : Forall (λ e, isCacheAction e = true) (dispatch s c).
Proof.
  unfold dispatch. destruct (queryClient c); [|constructor].
  rewrite handleComponentFocus_eq. apply policy_cache_actions.
Qed.

Lemma notifyAll_listener_calls v ls :
  Forall (λ e, isListenerCall e = true ∧ isCacheAction e = false) (notifyAll v ls).
Proof. apply Forall_fmap, Forall_true. done. Qed.

Lemma calls_cache_actions t : Forall (λ e, isCacheAction e = true) t → calls t = [].
Proof.
  induction 1 as [|e t He _ IH]; [done|]. by destruct e.
Qed.

Lemma withFocused_same c : withFocused (focused c) c = c.
Proof. by destruct c. Qed.

Lemma setHeap_same s : setHeap (heap s) s = s.
Proof. by destruct s. Qed.

Lemma registered_set_focus s k a c v :
  registered s k a c →
  registered (setHeap (alter (withFocused v) a (heap s)) s) k a (withFocused v c).
Proof.
  intros [Hk Ha]. split; simpl; [done|]. by rewrite lookup_alter_eq, Ha.
Qed.

Lemma isComponentFocused_registered s k a c :
  registered s k a c → isComponentFocused k s = focused c.
Proof. intros [Hk Ha]. unfold isComponentFocused. by rewrite Hk, Ha. Qed.

Lemma isComponentFocused_absent s k :
  JsMap.get k (components s) = None → isComponentFocused k s = false.
Proof. intros Hk. unfold isComponentFocused. by rewrite Hk. Qed.

Lemma setComponentFocus_same k s a c :
  registered s k a c → setComponentFocus k (focused c) s = (tt, s, []).
Proof.
  intros Hreg. rewrite (setComponentFocus_eq _ _ _ _ _ Hreg).
  rewrite eqb_reflx. simpl. f_equal. f_equal.
  rewrite alter_id; [apply setHeap_same|].
  intros c' Hc'. destruct Hreg as [_ Ha]. rewrite Ha in Hc'.
  injection Hc' as <-. apply withFocused_same.
Qed.

Lemma wf_listeners_NoDup s a c : wf s → heap s !! a = Some c → NoDup (listeners c).
Proof. intros (_ & _ & _ & Hh & _) Ha. by destruct (Hh a c Ha). Qed.

(** C4: [setComponentFocus k v] changes nothing and calls nothing when [k]
    is not registered.  For a registered key the listener calls are those of
    every listener of the record, once each with [v], when [v] differs from
    the stored state, and none at all (nor any other call) when it does not.
    Setting the same value a second time calls nothing and changes nothing,
    so over the two calls each listener is called exactly once. *)
Theorem C4_set_focus_idempotent (s : State) (k : ComponentKey) (v : bool) :
  wf s →
  (JsMap.get k (components s) = None → setComponentFocus k v s = (tt, s, [])) ∧
  (∀ a c, registered s k a c →
     let r1 := setComponentFocus k v s in
     let r2 := setComponentFocus k v (state r1) in
     isComponentFocused k (state r1) = v ∧
     NoDup (listeners c) ∧
     (focused c ≠ v → calls (trace r1) = (λ l, (l, v)) <$> listeners c) ∧
     (focused c = v → r1 = (tt, s, [])) ∧
     r2 = (tt, state r1, []) ∧
     (focused c ≠ v →
        calls (trace r1 ++ trace r2) = (λ l, (l, v)) <$> listeners c)).
Proof.
  intros Hwf. split; [apply setComponentFocus_absent|].
  intros a c Hreg r1 r2.
  assert (Hreg' := registered_set_focus _ _ _ _ v Hreg).
  assert (Hs1 : state r1 = setHeap (alter (withFocused v) a (heap s)) s).
  { subst r1. by rewrite (setComponentFocus_eq _ _ _ _ _ Hreg). }
  assert (Hr2 : r2 = (tt, state r1, [])).
  { subst r2. rewrite Hs1. apply (setComponentFocus_same _ _ _ _ Hreg'). }
  assert (Hcalls : focused c ≠ v →
            calls (trace r1) = (λ l, (l, v)) <$> listeners c).
  { intros Hne. subst r1. rewrite (setComponentFocus_eq _ _ _ _ _ Hreg).
    unfold trace. simpl.
    replace (negb (eqb (focused c) v)) with true
      by (destruct (focused c), v; done).
    rewrite calls_app, calls_notifyAll.
    rewrite (calls_cache_actions (if v then _ else _)); [apply app_nil_r|].
    destruct v; [apply dispatch_cache_actions|constructor]. }
  split_and!; try done.
  - rewrite Hs1. by rewrite (isComponentFocused_registered _ _ _ _ Hreg').
  - destruct Hreg as [_ Ha]. by eapply wf_listeners_NoDup.
  - intros <-. apply (setComponentFocus_same _ _ _ _ Hreg).
  - intros Hne. rewrite Hr2. unfold trace at 2. simpl.
    rewrite app_nil_r. by apply Hcalls.
Qed.

Lemma C4_set_focus_idempotent_witness :
  wf oneComponent ∧
  calls (trace (setComponentFocus "k" true oneComponent)) = [(5, true)] ∧
  trace (setComponentFocus "k" true
           (state (setComponentFocus "k" true oneComponent))) = [].
Proof.
  assert (Hwf : wf oneComponent) by compute_done.
  assert (H : registered oneComponent "k" 0 blurredRecord) by (split; reflexivity).
  split; [exact Hwf|].
  destruct (C4_set_focus_idempotent oneComponent "k" true Hwf) as [_ Hk].
  destruct (Hk 0 blurredRecord H) as (_ & _ & Hc & _ & H2 & _).
  split; [by apply Hc|]. by rewrite H2.
Defined.

(** ** Subscriptions *)

Lemma subscribeToComponent_absent k l s :
  JsMap.get k (components s) = None →
  subscribeToComponent k l s =
  (UnsubscribeNoop, s, [ConsoleWarn ("Component " +:+ k +:+ " is not registered")]).
Proof.
  intros Hk. unfold subscribeToComponent, bind, get, emit, ret. simpl. by rewrite Hk.
Qed.

Lemma subscribeToComponent_eq k l s a c :
  registered s k a c →
  subscribeToComponent k l s =
  (UnsubscribeClosure a l,
   setHeap (alter (λ c, withListeners (JsSet.add l (listeners c)) c) a (heap s)) s,
   [ListenerCall l (focused c)]).
Proof.
  intros [Hk Ha]. unfold subscribeToComponent, bind, get, emit, ret, mutate, modify.
  simpl. by rewrite Hk, Ha.
Qed.

Lemma alter_idemp {A} (f : A → A) (a : nat) (h : gmap nat A) :
  (∀ x, f (f x) = f x) → alter f a (alter f a h) = alter f a h.
Proof.
  intros Hf. apply map_eq. intros i. destruct (decide (a = i)) as [->|Hne].
  - rewrite !lookup_alter_eq. destruct (h !! i); simpl; [|done]. by rewrite Hf.
  - by rewrite !lookup_alter_ne.
Qed.

(** C5: subscribing to a key that is not registered warns on the console,
    returns the no-op function and leaves the manager as it was.  Subscribing
    to a registered key adds the listener to the record's listener set and
    calls it once, with the stored focus state whatever it is.  The function
    returned deletes the listener from that record's set; calling it again
    changes nothing. *)
Theorem C5_subscribe (s : State) (k : ComponentKey) (l : ComponentListener) :
  let r := subscribeToComponent k l s in
  (JsMap.get k (components s) = None →
     r = (UnsubscribeNoop, s,
          [ConsoleWarn ("Component " +:+ k +:+ " is not registered")]) ∧
     ∀ s', runUnsubscribe (value r) s' = (tt, s', [])) ∧
  (∀ a c, registered s k a c →
     value r = UnsubscribeClosure a l ∧
     trace r = [ListenerCall l (focused c)] ∧
     state r = setHeap (<[a := withListeners (JsSet.add l (listeners c)) c]> (heap s)) s ∧
     l ∈ JsSet.add l (listeners c) ∧
     (∀ l', l' ∈ listeners c → l' ∈ JsSet.add l (listeners c)) ∧
     ∀ s2 c2, heap s2 !! a = Some c2 →
       let u := runUnsubscribe (value r) s2 in
       trace u = [] ∧
       state u = setHeap (<[a := withListeners (JsSet.delete l (listeners c2)) c2]>
                            (heap s2)) s2 ∧
       (l ∉ JsSet.delete l (listeners c2)) ∧
       (∀ l', l' ≠ l → l' ∈ JsSet.delete l (listeners c2) ↔ l' ∈ listeners c2) ∧
       runUnsubscribe (value r) (state u) = (tt, state u, [])).
Proof.
  intros r. split.
  - intros Hk. subst r. rewrite (subscribeToComponent_absent _ _ _ Hk). done.
  - intros a c Hreg. subst r. rewrite (subscribeToComponent_eq _ _ _ _ _ Hreg).
    unfold value, trace, state. simpl. destruct Hreg as [Hk Ha].
    split_and!; try done.
    + f_equal. apply map_eq. intros i. destruct (decide (a = i)) as [->|Hne].
      * by rewrite lookup_alter_eq, lookup_insert_eq, Ha.
      * by rewrite lookup_alter_ne, lookup_insert_ne.
    + apply JsSet_add_elem.
    + intros l' Hl'. unfold JsSet.add. case_decide; [done|].
      apply elem_of_app. by left.
    + intros s2 c2 Ha2. unfold mutate, modify. simpl. split_and!; try done.
      * f_equal. apply map_eq. intros i. destruct (decide (a = i)) as [->|Hne].
        -- by rewrite lookup_alter_eq, lookup_insert_eq, Ha2.
        -- by rewrite lookup_alter_ne, lookup_insert_ne.
      * apply JsSet_delete_not_elem.
      * intros l' Hl'. by apply JsSet_delete_other.
      * f_equal. f_equal. unfold setHeap. simpl. f_equal.
        apply alter_idemp. intros [f q ls o]. unfold withListeners. simpl.
        by rewrite JsSet_delete_idemp.
Qed.

Lemma C5_subscribe_witness :
  trace (subscribeToComponent "k" 6 oneComponent) = [ListenerCall 6 false] ∧
  value (subscribeToComponent "k" 6 oneComponent) = UnsubscribeClosure 0 6 ∧
  trace (subscribeToComponent "other" 6 oneComponent) =
    [ConsoleWarn "Component other is not registered"].
Proof.
  destruct (C5_subscribe oneComponent "k" 6) as [_ Hreg].
  destruct (Hreg 0 blurredRecord) as (Hv & Ht & _); [split; reflexivity|].
  destruct (C5_subscribe oneComponent "other" 6) as [Habs _].
  destruct Habs as [Hr _]; [reflexivity|].
  split_and!; [exact Ht|exact Hv|by rewrite Hr].
Defined.

(** ** Registration and teardown *)

Lemma registerComponent_eq k el qc o s :
  registerComponent k (Some el) qc o s =
  (TeardownClosure (elementId el) (enterHandler el (nextId s))
     (S (enterHandler el (nextId s))) k,
   registration k el qc o s,
   disconnects k s ++ observes el (nextId s)).
Proof.
  unfold registerComponent. unfold bind at 1. rewrite unregisterComponent_eq.
  unfold registration, observes, enterHandler, newComponent.
  destruct s as [cs gf io mo opts gc h pl n].
  unfold bind, fresh, modify, emit, ret, addEventListener. simpl.
  destruct (parentElement el) as [parent|]; simpl.
  - rewrite <- !app_assoc. simpl.
    replace (n + 3) with (S (S (S n))) by lia. reflexivity.
  - rewrite <- !app_assoc. simpl.
    replace (n + 2) with (S (S n)) by lia. reflexivity.
Qed.

Lemma runTeardown_eq el h1 h2 k s :
  runTeardown (TeardownClosure el h1 h2 k) s =
  (tt, tornDown el h1 h2 k s, disconnects k s).
Proof.
  unfold runTeardown, removeEventListener, modify. unfold bind.
  by rewrite unregisterComponent_eq.
Qed.

Lemma unregistered_get k s : JsMap.get k (components (unregistered k s)) = None.
Proof. apply JsMap_get_delete_eq. Qed.

Lemma unregistered_absent k s :
  wf s → JsMap.get k (components s) = None → unregistered k s = s.
Proof.
  intros (_ & _ & _ & _ & Hio & Hmo) Hk. apply JsMap_get_None in Hk as Hnk.
  unfold unregistered. destruct s as [cs gf io mo opts gc h pl n]; simpl in *.
  unfold setComponents, setMutationObservers, setIntersectionObservers. simpl.
  rewrite JsMap_delete_absent by done.
  rewrite !delete_id; [done| |].
  - destruct (mo !! k) eqn:E; [|done]. by apply Hmo in E as [? _].
  - destruct (io !! k) eqn:E; [|done]. by apply Hio in E as [? _].
Qed.

Lemma disconnects_absent k s :
  wf s → JsMap.get k (components s) = None → disconnects k s = [].
Proof.
  intros (_ & _ & _ & _ & Hio & Hmo) Hk. apply JsMap_get_None in Hk as Hnk.
  unfold disconnects.
  destruct (intersectionObservers s !! k) eqn:E1; [destruct Hnk; apply (Hio _ _ E1)|].
  destruct (mutationObservers s !! k) eqn:E2; [destruct Hnk; apply (Hmo _ _ E2)|].
  done.
Qed.

Lemma calls_disconnects k s : calls (disconnects k s) = [].
Proof.
  unfold disconnects.
  by destruct (intersectionObservers s !! k), (mutationObservers s !! k).
Qed.

(** C8: [registerComponent] with a null element warns on the console and
    returns the no-op function; the manager, with its component map, its
    observer maps and every state object, is exactly as before, and calling
    the returned function changes nothing either. *)
Theorem C8_register_without_element (s : State) (k : ComponentKey)
    (qc : option QueryClient) (o : option ComponentFocusManagerOptions) :
  let r := registerComponent k None qc o s in
  value r = TeardownNoop ∧
  trace r =
    [ConsoleWarn ("ComponentFocusManager: Element not found for component " +:+ k)] ∧
  state r = s ∧
  getRegisteredComponents (state r) = getRegisteredComponents s ∧
  intersectionObservers (state r) = intersectionObservers s ∧
  mutationObservers (state r) = mutationObservers s ∧
  heap (state r) = heap s ∧
  (∀ s', runTeardown (value r) s' = (tt, s', [])).
Proof. intros r. subst r. by split_and!. Qed.

(** C9: [unregisterComponent k] disconnects the intersection and mutation
    observers stored for [k], removes them from their maps and deletes the
    record from the component map; it calls no listener, whatever the focus
    state of the record, and touches no state object.  Afterwards [k] reads
    as not focused and the registered keys are the former ones without [k],
    in their order; the other keys keep their records.  When [k] is not
    registered nothing changes and nothing is called.  After registering
    ["a"], ["b"], ["c"] and unregistering ["b"] the keys are ["a"], ["c"]. *)
Theorem C9_unregister (s : State) (k : ComponentKey) :
  wf s →
  let r := unregisterComponent k s in
  trace r = disconnects k s ∧
  (∀ o, intersectionObservers s !! k = Some o → IntersectionDisconnect o ∈ trace r) ∧
  (∀ o, mutationObservers s !! k = Some o → MutationDisconnect o ∈ trace r) ∧
  calls (trace r) = [] ∧
  intersectionObservers (state r) !! k = None ∧
  mutationObservers (state r) !! k = None ∧
  JsMap.get k (components (state r)) = None ∧
  heap (state r) = heap s ∧
  isComponentFocused k (state r) = false ∧
  getRegisteredComponents (state r) =
    filter (λ k', k' ≠ k) (getRegisteredComponents s) ∧
  (∀ k', k' ≠ k →
     JsMap.get k' (components (state r)) = JsMap.get k' (components s) ∧
     isComponentFocused k' (state r) = isComponentFocused k' s) ∧
  (JsMap.get k (components s) = None → r = (tt, s, [])) ∧
  getRegisteredComponents threeThenDrop = ["a"; "c"].
Proof.
  intros Hwf r. subst r. rewrite unregisterComponent_eq.
  unfold trace, state. simpl. split_and!.
  - done.
  - intros o Ho. unfold disconnects. rewrite Ho. apply elem_of_app. left. by left.
  - intros o Ho. unfold disconnects. rewrite Ho. apply elem_of_app. right. by left.
  - apply calls_disconnects.
  - apply lookup_delete_eq.
  - apply lookup_delete_eq.
  - apply JsMap_get_delete_eq.
  - done.
  - apply isComponentFocused_absent, JsMap_get_delete_eq.
  - apply JsMap_keys_delete.
  - intros k' Hne.
    assert (Hget : JsMap.get k' (components (unregistered k s)) =
                   JsMap.get k' (components s))
      by (apply JsMap_get_delete_ne; congruence).
    split; [done|]. unfold isComponentFocused. by rewrite Hget.
  - intros Hk. by rewrite unregistered_absent, disconnects_absent.
  - reflexivity.
Qed.

Lemma C9_unregister_witness :
  wf oneFocused ∧
  isComponentFocused "k" oneFocused = true ∧
  trace (unregisterComponent "k" oneFocused) =
    [IntersectionDisconnect 1; MutationDisconnect 2] ∧
  getRegisteredComponents (state (unregisterComponent "k" oneFocused)) = [].
Proof.
  assert (Hwf : wf oneFocused) by compute_done.
  destruct (C9_unregister oneFocused "k" Hwf) as (Ht & _ & _ & _ & _ & _ & _ & _ & _ & Hk & _).
  split_and!; [exact Hwf|reflexivity|by rewrite Ht|by rewrite Hk].
Defined.

Lemma enterHandler_bound el n : n + 2 ≤ enterHandler el n.
Proof. unfold enterHandler. destruct (parentElement el); lia. Qed.

Lemma registration_components k el qc o s :
  components (registration k el qc o s) =
  JsMap.delete k (components s) ++ [(k, nextId s)].
Proof.
  unfold registration. cbn [components]. apply JsMap_set_absent, JsMap_get_delete_eq.
Qed.

Lemma registration_nextId k el qc o s :
  nextId (registration k el qc o s) = S (S (enterHandler el (nextId s))).
Proof. reflexivity. Qed.

Lemma registration_io k el qc o s :
  intersectionObservers (registration k el qc o s) =
  <[k := S (nextId s)]> (delete k (intersectionObservers s)).
Proof. reflexivity. Qed.

Lemma registration_heap k el qc o s :
  heap (registration k el qc o s) = <[nextId s := newComponent qc o]> (heap s).
Proof. reflexivity. Qed.

Lemma filter_ne_snoc (k : string) (l : list string) :
  filter (λ k', k' ≠ k) (l ++ [k]) = filter (λ k', k' ≠ k) l.
Proof.
  rewrite filter_app, filter_cons_False, filter_nil by (by intros ?).
  apply app_nil_r.
Qed.

Lemma filter_ne_idemp (k : string) (l : list string) :
  filter (λ k', k' ≠ k) (filter (λ k', k' ≠ k) l) = filter (λ k', k' ≠ k) l.
Proof. rewrite list_filter_filter. apply list_filter_iff. intros k'. tauto. Qed.

Lemma registration_keys k el qc o s :
  JsMap.keys (components (registration k el qc o s)) =
  filter (λ k', k' ≠ k) (JsMap.keys (components s)) ++ [k].
Proof.
  rewrite registration_components. unfold JsMap.keys at 1. rewrite fmap_app.
  fold (JsMap.keys (JsMap.delete k (components s))). by rewrite JsMap_keys_delete.
Qed.

Lemma tornDown_components el h1 h2 k s :
  components (tornDown el h1 h2 k s) = JsMap.delete k (components s).
Proof. reflexivity. Qed.

Lemma State_eq s s' :
  components s = components s' → globalFocused s = globalFocused s' →
  intersectionObservers s = intersectionObservers s' →
  mutationObservers s = mutationObservers s' →
  managerOptions s = managerOptions s' → globalCleanup s = globalCleanup s' →
  heap s = heap s' → pointerListeners s = pointerListeners s' →
  nextId s = nextId s' → s = s'.
Proof. destruct s, s'. simpl. by intros -> -> -> -> -> -> -> -> ->. Qed.

Ltac fields :=
  cbn [components globalFocused intersectionObservers mutationObservers
       managerOptions globalCleanup heap pointerListeners nextId
       setComponents setGlobalFocused setIntersectionObservers
       setMutationObservers setGlobalCleanup setHeap setPointerListeners
       setNextId].

Lemma tornDown_idemp el h1 h2 k s :
  tornDown el h1 h2 k (tornDown el h1 h2 k s) = tornDown el h1 h2 k s.
Proof.
  apply State_eq; unfold tornDown, unregistered; fields; try done.
  - apply JsMap_delete_idemp.
  - apply delete_delete_eq.
  - apply delete_delete_eq.
  - rewrite !list_filter_filter. apply list_filter_iff. intros p. tauto.
Qed.

(** C10: the function returned by [registerComponent k element] holds the
    key [k] and no reference to the record.  Whenever it is called it
    removes the record then stored under [k] together with the observers of
    [k]; in particular, called after [k] was registered again it removes the
    new record and disconnects the new observers.  Calling it a second time
    changes nothing and calls nothing. *)
Theorem C10_teardown_by_key (s : State) (k : ComponentKey) (el : HTMLElement)
    (qc : option QueryClient) (o : option ComponentFocusManagerOptions) :
  let r := registerComponent k (Some el) qc o s in
  (∃ h1 h2, value r = TeardownClosure (elementId el) h1 h2 k) ∧
  (∀ s2,
     let t := runTeardown (value r) s2 in
     trace t = disconnects k s2 ∧
     components (state t) = JsMap.delete k (components s2) ∧
     JsMap.get k (components (state t)) = None ∧
     intersectionObservers (state t) !! k = None ∧
     mutationObservers (state t) !! k = None ∧
     isComponentFocused k (state t) = false ∧
     runTeardown (value r) (state t) = (tt, state t, [])) ∧
  (∀ el' qc' o',
     let r2 := registerComponent k (Some el') qc' o' (state r) in
     let t := runTeardown (value r) (state r2) in
     registered (state r2) k (nextId (state r)) (newComponent qc' o') ∧
     nextId (state r) ≠ nextId s ∧
     IntersectionDisconnect (S (nextId (state r))) ∈ trace t ∧
     JsMap.get k (components (state t)) = None ∧
     getRegisteredComponents (state t) =
       filter (λ k', k' ≠ k) (getRegisteredComponents s)).
Proof.
  intros r. subst r. rewrite registerComponent_eq. cbn [value state trace fst snd].
  split_and!.
  - eauto.
  - intros s2. rewrite runTeardown_eq.
    cbn [value state trace fst snd]. split_and!; try done.
    + apply JsMap_get_delete_eq.
    + apply lookup_delete_eq.
    + apply lookup_delete_eq.
    + apply isComponentFocused_absent, JsMap_get_delete_eq.
    + rewrite runTeardown_eq. f_equal; [f_equal|].
      * apply tornDown_idemp.
      * unfold disconnects, tornDown, unregistered.
        fields. by rewrite !lookup_delete_eq.
  - intros el' qc' o'.
    rewrite registerComponent_eq. cbn [value state trace fst snd].
    rewrite runTeardown_eq. cbn [value state trace fst snd].
    split_and!.
    + split.
      * rewrite registration_components, JsMap_get_snoc, JsMap_get_delete_eq.
        by rewrite decide_True.
      * unfold registration at 1. cbn [heap]. apply lookup_insert_eq.
    + rewrite registration_nextId.
      pose proof (enterHandler_bound el (nextId s)). lia.
    + unfold disconnects. rewrite registration_io, lookup_insert_eq.
      apply elem_of_app. left. by left.
    + rewrite tornDown_components. apply JsMap_get_delete_eq.
    + unfold getRegisteredComponents.
      rewrite tornDown_components, JsMap_keys_delete, !registration_keys.
      by rewrite filter_ne_snoc, filter_ne_idemp, filter_ne_snoc, filter_ne_idemp.
Qed.

(** ** The representation invariant *)

Lemma wf_same_fields s s' :
  components s' = components s → heap s' = heap s → nextId s' = nextId s →
  intersectionObservers s' = intersectionObservers s →
  mutationObservers s' = mutationObservers s →
  wf s → wf s'.
Proof. unfold wf. by intros -> -> -> -> ->. Qed.

Lemma wf_constructor opts isServer : wf (constructor opts isServer).
Proof.
  unfold wf, constructor. simpl.
  split_and!; try apply NoDup_nil_2; try apply Forall_nil_2; apply map_Forall_empty.
Qed.

Lemma alter_absent {A} (f : A → A) (a : nat) (h : gmap nat A) :
  h !! a = None → alter f a h = h.
Proof. intros Ha. apply alter_id. intros x Hx. congruence. Qed.

Lemma wf_alter s a f :
  (∀ c, NoDup (listeners c) → NoDup (listeners (f c))) →
  wf s → wf (setHeap (alter f a (heap s)) s).
Proof.
  intros Hf (H1 & H2 & H3 & H4 & H5 & H6). unfold wf. simpl.
  split_and!; try done.
  - eapply Forall_impl; [exact H3|]. intros a' [c Hc]. simpl.
    destruct (decide (a = a')) as [->|Hne].
    + rewrite lookup_alter_eq, Hc. by eexists.
    + rewrite lookup_alter_ne by done. by eexists.
  - intros a' c' Hc'.
    apply lookup_alter_Some in Hc' as [(-> & c & Hc & ->)|[_ Hc]].
    + destruct (H4 _ _ Hc) as [Hlt Hnd]. split; [done|]. by apply Hf.
    + by apply H4 in Hc.
Qed.

Lemma keys_delete_elem {V} k k' (m : list (string * V)) :
  k' ≠ k → k' ∈ m.*1 → k' ∈ (JsMap.delete k m).*1.
Proof.
  intros Hne Hin. change (k' ∈ JsMap.keys (JsMap.delete k m)).
  rewrite JsMap_keys_delete. apply list_elem_of_filter. by split.
Qed.

Lemma wf_unregistered k s : wf s → wf (unregistered k s).
Proof.
  intros (H1 & H2 & H3 & H4 & H5 & H6). unfold wf, unregistered. simpl.
  assert (Hsub : sublist (JsMap.delete k (components s)) (components s))
    by apply JsMap_delete_sublist.
  split_and!.
  - eapply sublist_NoDup; [exact H1|]. by apply fmap_sublist.
  - eapply sublist_NoDup; [exact H2|]. by apply fmap_sublist.
  - apply Forall_forall. intros a Ha. rewrite Forall_forall in H3. apply H3.
    eapply elem_of_sublist; [exact Ha|]. by apply fmap_sublist.
  - done.
  - intros k' o Ho. apply lookup_delete_Some in Ho as [Hne Ho].
    destruct (H5 _ _ Ho) as [Hin Hlt]. split; [|done].
    apply keys_delete_elem; [congruence|done].
  - intros k' o Ho. apply lookup_delete_Some in Ho as [Hne Ho].
    destruct (H6 _ _ Ho) as [Hin Hlt]. split; [|done].
    apply keys_delete_elem; [congruence|done].
Qed.

Lemma wf_addr_bound s a : wf s → a ∈ (components s).*2 → a < nextId s.
Proof.
  intros (_ & _ & H3 & H4 & _) Ha. rewrite Forall_forall in H3.
  destruct (H3 _ Ha) as [c Hc]. by destruct (H4 _ _ Hc).
Qed.

Lemma wf_registration k el qc o s : wf s → wf (registration k el qc o s).
Proof.
  intros Hwf. assert (Hu := wf_unregistered k s Hwf).
  assert (Hbound := enterHandler_bound el (nextId s)).
  destruct Hu as (U1 & U2 & U3 & U4 & U5 & U6).
  unfold unregistered in U1, U2, U3, U4, U5, U6. simpl in U1, U2, U3, U4, U5, U6.
  assert (Hfresh : ∀ a, a ∈ (JsMap.delete k (components s)).*2 → a < nextId s).
  { intros a Ha. apply (wf_addr_bound s a Hwf).
    eapply elem_of_sublist; [exact Ha|]. apply fmap_sublist, JsMap_delete_sublist. }
  unfold wf. rewrite registration_components.
  cbn [registration heap nextId intersectionObservers mutationObservers].
  rewrite !fmap_app. simpl.
  assert (Hkeys : ∀ k', k' ∈ (JsMap.delete k (components s)).*1 →
                        k' ∈ (JsMap.delete k (components s)).*1 ++ [k]).
  { intros k' Hk'. apply elem_of_app. by left. }
  assert (Hk : k ∈ (JsMap.delete k (components s)).*1 ++ [k]).
  { apply elem_of_app. right. by left. }
  split_and!.
  - apply NoDup_app. split_and!; [done| |apply NoDup_singleton].
    intros k' Hk' ->%list_elem_of_singleton.
    by apply (JsMap_get_None k (JsMap.delete k (components s)));
      [apply JsMap_get_delete_eq|].
  - apply NoDup_app. split_and!; [done| |apply NoDup_singleton].
    intros a Ha ->%list_elem_of_singleton. apply Hfresh in Ha. lia.
  - apply Forall_app. split.
    + eapply Forall_impl; [exact U3|]. intros a Ha. simpl.
      apply lookup_insert_is_Some'. by right.
    + apply Forall_singleton. rewrite lookup_insert_eq. by eexists.
  - apply map_Forall_insert_2; [split; [lia|apply NoDup_nil_2]|].
    eapply map_Forall_impl; [exact U4|]. intros a c [Hlt Hnd]. simpl in *.
    split; [lia|done].
  - apply map_Forall_insert_2; [split; [done|lia]|].
    eapply map_Forall_impl; [exact U5|]. intros k' o' [Hin Hlt]. simpl in *.
    split; [by apply Hkeys|lia].
  - destruct (parentElement el).
    + apply map_Forall_insert_2; [split; [done|lia]|].
      eapply map_Forall_impl; [exact U6|]. intros k' o' [Hin Hlt]. simpl in *.
      split; [by apply Hkeys|lia].
    + eapply map_Forall_impl; [exact U6|]. intros k' o' [Hin Hlt]. simpl in *.
      split; [by apply Hkeys|lia].
Qed.

Lemma setComponentFocus_dangling k v s a :
  JsMap.get k (components s) = Some a → heap s !! a = None →
  setComponentFocus k v s = (tt, s, []).
Proof.
  intros Hk Ha. unfold setComponentFocus, bind, get, ret. simpl. by rewrite Hk, Ha.
Qed.

Lemma setComponentFocus_state k v s :
  state (setComponentFocus k v s) =
  match JsMap.get k (components s) with
  | Some a => setHeap (alter (withFocused v) a (heap s)) s
  | None => s
  end.
Proof.
  destruct (JsMap.get k (components s)) as [a|] eqn:Hk.
  - destruct (heap s !! a) as [c|] eqn:Ha.
    + by rewrite (setComponentFocus_eq k v s a c).
    + rewrite (setComponentFocus_dangling k v s a) by done.
      by rewrite alter_absent, setHeap_same.
  - by rewrite setComponentFocus_absent.
Qed.

Lemma wf_setComponentFocus k v s : wf s → wf (state (setComponentFocus k v s)).
Proof.
  intros Hwf. rewrite setComponentFocus_state.
  destruct (JsMap.get k (components s)); [|done]. by apply wf_alter.
Qed.

Lemma state_bind {A B} (m : M A) (f : A → M B) s :
  state (bind m f s) = state (f (value (m s)) (state (m s))).
Proof. by rewrite bind_unfold. Qed.

Lemma trace_bind {A B} (m : M A) (f : A → M B) s :
  trace (bind m f s) = trace (m s) ++ trace (f (value (m s)) (state (m s))).
Proof. by rewrite bind_unfold. Qed.

Lemma wf_forEach {A} (f : A → M unit) (l : list A) s :
  (∀ x s, wf s → wf (state (f x s))) → wf s → wf (state (forEach f l s)).
Proof.
  intros Hf. revert s. induction l as [|x l IH]; intros s Hwf; [done|].
  simpl. rewrite state_bind. apply IH, Hf, Hwf.
Qed.

Lemma wf_unregisterComponent k s : wf s → wf (state (unregisterComponent k s)).
Proof. rewrite unregisterComponent_eq. apply wf_unregistered. Qed.

Lemma wf_registerComponent k el qc o s :
  wf s → wf (state (registerComponent k el qc o s)).
Proof.
  destruct el as [el|]; [|done]. rewrite registerComponent_eq. apply wf_registration.
Qed.

Lemma wf_runTeardown t s : wf s → wf (state (runTeardown t s)).
Proof.
  destruct t as [|el h1 h2 k]; [done|]. rewrite runTeardown_eq. intros Hwf.
  apply wf_unregistered. revert Hwf. by apply wf_same_fields.
Qed.

Lemma wf_mutate a f s :
  (∀ c, NoDup (listeners c) → NoDup (listeners (f c))) →
  wf s → wf (state (mutate a f s)).
Proof. apply wf_alter. Qed.

Lemma wf_subscribeToComponent k l s :
  wf s → wf (state (subscribeToComponent k l s)).
Proof.
  intros Hwf. destruct (JsMap.get k (components s)) as [a|] eqn:Hk.
  - destruct (heap s !! a) as [c|] eqn:Ha.
    + rewrite (subscribeToComponent_eq k l s a c) by done.
      apply wf_alter; [|done]. intros c'. apply JsSet_add_NoDup.
    + unfold subscribeToComponent, bind, get, ret. simpl. by rewrite Hk, Ha.
  - by rewrite subscribeToComponent_absent.
Qed.

Lemma wf_runUnsubscribe u s : wf s → wf (state (runUnsubscribe u s)).
Proof.
  destruct u as [|a l]; [done|]. apply wf_mutate.
  intros c. apply JsSet_delete_NoDup.
Qed.

Lemma wf_updateComponentQueryClient k qc s :
  wf s → wf (state (updateComponentQueryClient k qc s)).
Proof.
  intros Hwf. unfold updateComponentQueryClient. rewrite state_bind.
  unfold get, value, state at 2. simpl.
  destruct (JsMap.get k (components s)); [|done]. by apply wf_mutate.
Qed.

Lemma wf_updateComponentOptions k o s :
  wf s → wf (state (updateComponentOptions k o s)).
Proof.
  intros Hwf. unfold updateComponentOptions. rewrite state_bind.
  unfold get, value, state at 2. simpl.
  destruct (JsMap.get k (components s)); [|done]. by apply wf_mutate.
Qed.

Lemma wf_blurAllComponents s : wf s → wf (state (blurAllComponents s)).
Proof.
  intros Hwf. unfold blurAllComponents. rewrite state_bind.
  apply wf_forEach; [|done]. intros k s'. apply wf_setComponentFocus.
Qed.

Lemma wf_notifyAllComponents s : wf s → wf (state (notifyAllComponents s)).
Proof.
  intros Hwf. unfold notifyAllComponents. rewrite state_bind.
  unfold get, value, state at 2. simpl. destruct (globalFocused s); [done|].
  apply wf_forEach; [|done]. intros k s'. apply wf_setComponentFocus.
Qed.

Lemma wf_setGlobalFocused b s : wf s → wf (setGlobalFocused b s).
Proof. by apply wf_same_fields. Qed.

Lemma wf_handleVisibilityChange b s :
  wf s → wf (state (handleVisibilityChange b s)).
Proof.
  intros Hwf. unfold handleVisibilityChange. rewrite state_bind.
  by apply wf_notifyAllComponents, wf_setGlobalFocused.
Qed.

Lemma wf_destroy s : wf s → wf (state (destroy s)).
Proof.
  intros Hwf. unfold destroy. rewrite !state_bind.
  unfold get, value, state at 3, modify. cbn [fst snd].
  eapply wf_same_fields; [reflexivity..|].
  apply wf_forEach; [|done]. intros k s'. apply wf_unregisterComponent.
Qed.

Lemma wf_whenAttached m s :
  (∀ s, wf s → wf (state (m s))) → wf s → wf (state (whenAttached m s)).
Proof.
  intros Hm Hwf. unfold whenAttached. rewrite state_bind.
  unfold get, value, state at 2. simpl. destruct (globalCleanup s); [auto|done].
Qed.

Lemma wf_exec c s : wf s → wf (state (exec c s)).
Proof.
  intros Hwf. destruct c; simpl.
  - unfold discard. rewrite state_bind. by apply wf_registerComponent.
  - by apply wf_runTeardown.
  - by apply wf_unregisterComponent.
  - by apply wf_setComponentFocus.
  - unfold discard. rewrite state_bind. by apply wf_subscribeToComponent.
  - by apply wf_runUnsubscribe.
  - by apply wf_setComponentFocus.
  - by apply wf_setComponentFocus.
  - by apply wf_blurAllComponents.
  - by apply wf_updateComponentQueryClient.
  - by apply wf_updateComponentOptions.
  - by apply wf_destroy.
  - apply wf_whenAttached; [|done]. apply wf_handleVisibilityChange.
  - apply wf_whenAttached; [|done]. apply (wf_handleVisibilityChange true).
  - apply wf_whenAttached; [|done]. apply (wf_handleVisibilityChange false).
  - unfold intersectionCallback, forEach. rewrite !state_bind.
    by apply wf_setComponentFocus.
  - unfold mutationCallback. destruct (_ && _); [|done].
    by apply wf_unregisterComponent.
  - unfold handleMouseEnter. rewrite state_bind.
    unfold get, value, state at 2. simpl. destruct (globalFocused s); [|done].
    by apply wf_setComponentFocus.
  - unfold handleMouseLeave. destruct (negb _); [|done].
    by apply wf_setComponentFocus.
Qed.

(** Every state a manager can be in satisfies the invariant. *)
Lemma reachable_wf s : reachable s → wf s.
Proof.
  induction 1 as [opts isServer|s c _ IH]; [apply wf_constructor|by apply wf_exec].
Qed.

(** ** The global visibility signal *)

Lemma blurHeap_lookup h addrs a :
  blurHeap h addrs !! a =
  if decide (a ∈ addrs) then withFocused false <$> h !! a else h !! a.
Proof.
  revert h. induction addrs as [|a1 addrs IH]; intros h.
  - rewrite decide_False by apply not_elem_of_nil. done.
  - change (blurHeap h (a1 :: addrs))
      with (blurHeap (alter (withFocused false) a1 h) addrs).
    rewrite IH. destruct (decide (a = a1)) as [->|Hne].
    + rewrite lookup_alter_eq. rewrite (decide_True _ _ (list_elem_of_here _ _)).
      destruct (h !! a1); case_decide; done.
    + rewrite lookup_alter_ne by done.
      destruct (decide (a ∈ addrs)) as [Hin|Hnin].
      * by rewrite decide_True by (by right).
      * rewrite decide_False; [done|]. by intros [?|?]%elem_of_cons.
Qed.

Lemma bind_ext_in {A B} (f g : A → list B) (l : list A) :
  (∀ x, x ∈ l → f x = g x) → l ≫= f = l ≫= g.
Proof.
  induction l as [|x l IH]; intros Hfg; [done|]. csimpl.
  rewrite (Hfg x) by left. rewrite IH; [done|]. intros y Hy. apply Hfg. by right.
Qed.

Lemma blurNotifications_alter h a a' :
  a' ≠ a →
  blurNotifications (alter (withFocused false) a h) a' = blurNotifications h a'.
Proof. intros Hne. unfold blurNotifications. by rewrite lookup_alter_ne. Qed.

Lemma setComponentFocus_blur k s a :
  JsMap.get k (components s) = Some a →
  setComponentFocus k false s =
  (tt, setHeap (alter (withFocused false) a (heap s)) s, blurNotifications (heap s) a).
Proof.
  intros Hk. unfold blurNotifications. destruct (heap s !! a) as [c|] eqn:Ha.
  - rewrite (setComponentFocus_eq k false s a c) by done.
    destruct (focused c); simpl; by rewrite ?app_nil_r.
  - rewrite (setComponentFocus_dangling k false s a) by done.
    by rewrite alter_absent, setHeap_same.
Qed.

Lemma forEach_blur (l : list (string * nat)) s :
  NoDup l.*2 →
  (∀ k a, (k, a) ∈ l → JsMap.get k (components s) = Some a) →
  forEach (λ k, setComponentFocus k false) l.*1 s =
  (tt, setHeap (blurHeap (heap s) l.*2) s, l.*2 ≫= blurNotifications (heap s)).
Proof.
  revert s. induction l as [|[k a] l IH]; intros s Hnd Hget.
  - simpl. by rewrite setHeap_same.
  - rewrite !fmap_cons in *. apply NoDup_cons in Hnd as [Ha Hnd]. simpl.
    eapply bind_eq; [apply setComponentFocus_blur, Hget; left|].
    rewrite IH; [|done|].
    + f_equal. apply (bind_ext_in _ _ l.*2). intros a' Ha'. cbn [heap setHeap].
      apply blurNotifications_alter. by intros ->.
    + intros k' a' Hin. simpl. apply Hget. by right.
Qed.

Lemma wf_components_get s k a :
  wf s → (k, a) ∈ components s → JsMap.get k (components s) = Some a.
Proof. intros (H1 & _) Hin. by apply JsMap_elem_get. Qed.

Lemma blurAllComponents_eq s :
  wf s →
  blurAllComponents s =
  (tt, setHeap (blurHeap (heap s) (components s).*2) s,
   (components s).*2 ≫= blurNotifications (heap s)).
Proof.
  intros Hwf. unfold blurAllComponents, JsMap.keys.
  eapply (bind_eq _ _ _ _ _ [] _ _ _); [reflexivity|].
  apply forEach_blur; [apply Hwf|]. intros k a. by apply wf_components_get.
Qed.

Lemma handleWindowBlur_eq s :
  wf s →
  handleWindowBlur s =
  (tt, setHeap (blurHeap (heap s) (components s).*2) (setGlobalFocused false s),
   (components s).*2 ≫= blurNotifications (heap s)).
Proof.
  intros Hwf. unfold handleWindowBlur.
  eapply (bind_eq _ _ _ _ _ [] _ _ _); [reflexivity|].
  unfold notifyAllComponents, JsMap.keys.
  eapply (bind_eq _ _ _ _ _ [] _ _ _); [reflexivity|]. simpl.
  apply (forEach_blur (components s) (setGlobalFocused false s)); [apply Hwf|].
  intros k a. apply (wf_components_get s k a Hwf).
Qed.

Lemma handleWindowFocus_eq s : handleWindowFocus s = (tt, setGlobalFocused true s, []).
Proof. reflexivity. Qed.

Lemma blurNotifications_elem h a e :
  e ∈ blurNotifications h a →
  ∃ c l, h !! a = Some c ∧ focused c = true ∧ l ∈ listeners c ∧ e = ListenerCall l false.
Proof.
  unfold blurNotifications. destruct (h !! a) as [c|]; [|by intros ?%elem_of_nil].
  destruct (focused c) eqn:Hf; [|by intros ?%elem_of_nil].
  intros (l & -> & Hl)%list_elem_of_fmap. by exists c, l.
Qed.

Lemma isComponentFocused_blurHeap s s' k :
  components s' = components s →
  heap s' = blurHeap (heap s) (components s).*2 →
  isComponentFocused k s' = false.
Proof.
  intros Hc Hh. unfold isComponentFocused. rewrite Hc, Hh.
  destruct (JsMap.get k (components s)) as [a|] eqn:Hk; [|done].
  rewrite blurHeap_lookup. rewrite decide_True.
  - by destruct (heap s !! a).
  - apply JsMap_get_Some_elem in Hk. by apply (list_elem_of_fmap_2 snd) in Hk.
Qed.

(** C3: window blur sets the global signal to [false], window focus sets it
    to [true], a visibility change sets it to what the host reports.  When
    the signal is set to [false], every registered record ends not focused,
    and the calls made are exactly those of the listeners of every record
    that was focused, each called with [false], in registration order; no
    call goes to a query client and no other state object changes.  When the
    signal is set to [true] nothing is called and no record changes. *)
Theorem C3_global_visibility (s : State) :
  wf s →
  let blur := handleWindowBlur s in
  let focus := handleWindowFocus s in
  let addrs := (components s).*2 in
  (∀ visible, isGloballyFocused (state (handleVisibilityChange visible s)) = visible) ∧
  handleVisibilityChange false s = blur ∧
  handleVisibilityChange true s = focus ∧
  isGloballyFocused (state blur) = false ∧
  components (state blur) = components s ∧
  (∀ k, isComponentFocused k (state blur) = false) ∧
  (∀ a, heap (state blur) !! a =
        if decide (a ∈ addrs) then withFocused false <$> heap s !! a
        else heap s !! a) ∧
  trace blur = addrs ≫= blurNotifications (heap s) ∧
  (∀ k a c l, registered s k a c → focused c = true → l ∈ listeners c →
     ListenerCall l false ∈ trace blur) ∧
  (∀ e, e ∈ trace blur →
     ∃ k a c l, registered s k a c ∧ focused c = true ∧ l ∈ listeners c ∧
                e = ListenerCall l false) ∧
  isGloballyFocused (state focus) = true ∧
  trace focus = [] ∧
  components (state focus) = components s ∧
  heap (state focus) = heap s ∧
  (∀ k, isComponentFocused k (state focus) = isComponentFocused k s).
Proof.
  intros Hwf blur focus addrs.
  assert (Hblur := handleWindowBlur_eq s Hwf). fold blur addrs in Hblur.
  assert (Hvis : ∀ visible,
            isGloballyFocused (state (handleVisibilityChange visible s)) = visible).
  { intros [|]; [done|].
    change (handleVisibilityChange false s) with blur. by rewrite Hblur. }
  split_and!; try done; rewrite ?Hblur; cbn [state trace fst snd]; try done.
  - intros k. by apply (isComponentFocused_blurHeap s).
  - intros a. apply blurHeap_lookup.
  - intros k a c l [Hk Ha] Hf Hl. apply list_elem_of_bind. exists a. split.
    + unfold blurNotifications. rewrite Ha, Hf.
      by apply (list_elem_of_fmap_2 (λ l, ListenerCall l false)).
    + apply JsMap_get_Some_elem in Hk. by apply (list_elem_of_fmap_2 snd) in Hk.
  - intros e (a & He & Ha)%list_elem_of_bind.
    apply blurNotifications_elem in He as (c & l & Hc & Hf & Hl & ->).
    apply list_elem_of_fmap in Ha as ([k a'] & -> & Hin).
    exists k, a', c, l. split_and!; try done. split; [|done].
    by apply wf_components_get.
Qed.

Lemma C3_global_visibility_witness :
  wf oneFocused ∧
  isComponentFocused "k" oneFocused = true ∧
  trace (handleWindowBlur oneFocused) = [ListenerCall 5 false] ∧
  isComponentFocused "k" (state (handleWindowBlur oneFocused)) = false ∧
  isComponentFocused "k"
    (state (handleWindowFocus (state (handleWindowBlur oneFocused)))) = false.
Proof.
  assert (Hwf : wf oneFocused) by compute_done.
  destruct (C3_global_visibility oneFocused Hwf)
    as (_ & _ & _ & _ & _ & Hk & _ & Ht & _).
  split_and!; [exact Hwf|reflexivity|by rewrite Ht|apply Hk|reflexivity].
Defined.

(** ** One record per key *)

Lemma reachable_oneComponent : reachable oneComponent.
Proof.
  assert (H : oneComponent =
              state (exec (CallSubscribe "k" 5)
                (state (exec (CallRegister "k" (Some panel) (Some 7) None)
                   (constructor noOptions false)))))
    by (vm_compute; reflexivity).
  rewrite H. apply reachable_call, reachable_call, reachable_new.
Qed.

Lemma wf_heap_fresh s : wf s → heap s !! nextId s = None.
Proof.
  intros (_ & _ & _ & H4 & _). destruct (heap s !! nextId s) as [c|] eqn:E; [|done].
  destruct (H4 _ _ E). lia.
Qed.

Lemma wf_heap_bound s a c : wf s → heap s !! a = Some c → a < nextId s.
Proof. intros (_ & _ & _ & H4 & _) Ha. by destruct (H4 _ _ Ha). Qed.

(** C7: in every state a manager can be in, the component map holds at most
    one record per key.  [registerComponent k element] with an element first
    disconnects the intersection and mutation observers stored for [k] and
    drops them and the old record, and only then starts the new observers;
    the record it stores under [k] is a new state object with
    [focused = false], so [isComponentFocused k] is [false]. *)
Theorem C7_register_replaces (s : State) (k : ComponentKey) (el : HTMLElement)
    (qc : option QueryClient) (o : option ComponentFocusManagerOptions) :
  reachable s →
  let r := registerComponent k (Some el) qc o s in
  let n := nextId s in
  NoDup (getRegisteredComponents s) ∧
  (∀ k' a a', (k', a) ∈ components s → (k', a') ∈ components s → a = a') ∧
  reachable (state r) ∧
  NoDup (getRegisteredComponents (state r)) ∧
  heap s !! n = None ∧
  registered (state r) k n (newComponent qc o) ∧
  isComponentFocused k (state r) = false ∧
  trace r = disconnects k s ++ observes el n ∧
  components (state r) = JsMap.delete k (components s) ++ [(k, n)] ∧
  (∀ a c, registered s k a c → a ≠ n ∧ (k, a) ∉ components (state r)) ∧
  (∀ io, intersectionObservers s !! k = Some io →
     IntersectionDisconnect io ∈ disconnects k s ∧
     intersectionObservers (state r) !! k = Some (S n) ∧ io ≠ S n) ∧
  (∀ mo, mutationObservers s !! k = Some mo →
     MutationDisconnect mo ∈ disconnects k s ∧
     mutationObservers (state r) !! k ≠ Some mo).
Proof.
  intros Hreach r n. assert (Hwf := reachable_wf s Hreach).
  assert (Hreach' : reachable (state r)).
  { change (state r) with
      (state (registerComponent k (Some el) qc o s)).
    replace (state (registerComponent k (Some el) qc o s))
      with (state (exec (CallRegister k (Some el) qc o) s)).
    - by apply reachable_call.
    - simpl. unfold discard. by rewrite state_bind. }
  assert (Hwf' := reachable_wf _ Hreach').
  assert (Hr : r = (TeardownClosure (elementId el) (enterHandler el n)
                      (S (enterHandler el n)) k,
                    registration k el qc o s,
                    disconnects k s ++ observes el n))
    by apply registerComponent_eq.
  assert (Hreg : registered (state r) k n (newComponent qc o)).
  { rewrite Hr. cbn [state fst snd]. split.
    - rewrite registration_components, JsMap_get_snoc, JsMap_get_delete_eq.
      by rewrite decide_True.
    - simpl. apply lookup_insert_eq. }
  split_and!.
  - apply Hwf.
  - intros k' a a' Ha Ha'. apply (wf_components_get s _ _ Hwf) in Ha, Ha'. congruence.
  - done.
  - apply Hwf'.
  - by apply wf_heap_fresh.
  - done.
  - by rewrite (isComponentFocused_registered _ _ _ _ Hreg).
  - by rewrite Hr.
  - rewrite Hr. cbn [state fst snd]. apply registration_components.
  - intros a c [Hk Ha]. apply (wf_heap_bound s a c Hwf) in Ha as Hlt.
    split; [unfold n; lia|]. rewrite Hr. cbn [state fst snd].
    rewrite registration_components. intros [Hin|Hin]%elem_of_app.
    + apply (list_elem_of_fmap_2 fst) in Hin.
      by apply (JsMap_get_None k (JsMap.delete k (components s)));
        [apply JsMap_get_delete_eq|].
    + apply list_elem_of_singleton in Hin. injection Hin as ->. unfold n in Hlt. lia.
  - intros io Hio. split_and!.
    + unfold disconnects. rewrite Hio. apply elem_of_app. left. by left.
    + rewrite Hr. cbn [state fst snd]. simpl. apply lookup_insert_eq.
    + destruct Hwf as (_ & _ & _ & _ & H5 & _). destruct (H5 _ _ Hio). unfold n. lia.
  - intros mo Hmo. split.
    + unfold disconnects. rewrite Hmo. apply elem_of_app. right. by left.
    + rewrite Hr. cbn [state fst snd]. simpl.
      destruct Hwf as (_ & _ & _ & _ & _ & H6). destruct (H6 _ _ Hmo) as [_ Hlt].
      destruct (parentElement el).
      * rewrite lookup_insert_eq. intros [= <-]. unfold n in Hlt. lia.
      * by rewrite lookup_delete_eq.
Qed.

Lemma C7_register_replaces_witness :
  reachable oneComponent ∧
  trace (registerComponent "k" (Some orphan) None None oneComponent) =
    [IntersectionDisconnect 1; MutationDisconnect 2; IntersectionObserve 6 101] ∧
  getRegisteredComponents
    (state (registerComponent "k" (Some orphan) None None oneComponent)) = ["k"] ∧
  isComponentFocused "k"
    (state (registerComponent "k" (Some orphan) None None oneComponent)) = false.
Proof.
  assert (Hreach := reachable_oneComponent).
  destruct (C7_register_replaces oneComponent "k" orphan None None Hreach)
    as (_ & _ & _ & _ & _ & _ & Hf & Ht & _).
  split_and!; [exact Hreach|by rewrite Ht|reflexivity|exact Hf].
Defined.

(** ** Where listener calls come from *)

Lemma elem_calls l v t : ListenerCall l v ∈ t → (l, v) ∈ calls t.
Proof. intros Hin. apply list_elem_of_omap. by exists (ListenerCall l v). Qed.

Lemma silent l v t : calls t = [] → ListenerCall l v ∉ t.
Proof. intros Ht Hin%elem_calls. rewrite Ht in Hin. by apply elem_of_nil in Hin. Qed.

Lemma discard_eq {A} (m : M A) s :
  discard m s = (tt, state (m s), trace (m s)).
Proof.
  unfold discard, bind, ret, state, trace.
  destruct (m s) as [[x s1] t1]. simpl. by rewrite app_nil_r.
Qed.

Lemma whenAttached_eq m s :
  whenAttached m s = if globalCleanup s then m s else (tt, s, []).
Proof.
  unfold whenAttached, bind, get, ret.
  destruct (globalCleanup s); [|done]. by destruct (m s) as [[[] s1] t1].
Qed.

Lemma intersectionCallback_single k b s :
  intersectionCallback k [b] s = setComponentFocus k (b && globalFocused s) s.
Proof.
  unfold intersectionCallback. simpl. unfold bind, get, ret.
  destruct (setComponentFocus k (b && globalFocused s) s) as [[[] s1] t1].
  simpl. by rewrite app_nil_r.
Qed.

(** A callback with several entries is the sequence of the callbacks with
    one entry each. *)
Lemma intersectionCallback_cons k b bs s :
  intersectionCallback k (b :: bs) s =
  (intersectionCallback k [b] ;; intersectionCallback k bs) s.
Proof.
  unfold intersectionCallback. simpl. unfold bind, get, ret.
  destruct (setComponentFocus k (b && globalFocused s) s) as [[[] s1] t1].
  simpl. destruct (forEach _ bs s1) as [[[] s2] t2]. by rewrite app_nil_r.
Qed.

Lemma handleMouseEnter_eq k s :
  handleMouseEnter k s =
  if globalFocused s then setComponentFocus k true s else (tt, s, []).
Proof.
  unfold handleMouseEnter, bind, get, ret.
  destruct (globalFocused s); [|done].
  by destruct (setComponentFocus k true s) as [[[] s1] t1].
Qed.

Lemma updateComponentQueryClient_trace k qc s :
  trace (updateComponentQueryClient k qc s) = [].
Proof.
  unfold updateComponentQueryClient, bind, get, ret, mutate, modify. simpl.
  by destruct (JsMap.get k (components s)).
Qed.

Lemma updateComponentOptions_trace k o s :
  trace (updateComponentOptions k o s) = [].
Proof.
  unfold updateComponentOptions, bind, get, ret, mutate, modify. simpl.
  by destruct (JsMap.get k (components s)).
Qed.

Lemma forEach_unregister_calls ks s :
  calls (trace (forEach unregisterComponent ks s)) = [].
Proof.
  revert s. induction ks as [|k ks IH]; intros s; [done|].
  simpl. rewrite trace_bind, calls_app, IH, unregisterComponent_eq.
  cbn [trace snd]. by rewrite calls_disconnects.
Qed.

Lemma destroy_calls s : calls (trace (destroy s)) = [].
Proof.
  unfold destroy. rewrite !trace_bind, !calls_app.
  unfold get at 1 2. cbn [value state trace fst snd].
  by rewrite forEach_unregister_calls.
Qed.

Lemma registerComponent_calls k el qc o s :
  calls (trace (registerComponent k el qc o s)) = [].
Proof.
  destruct el as [el|]; [|done]. rewrite registerComponent_eq. cbn [trace snd].
  rewrite calls_app, calls_disconnects. unfold observes.
  by destruct (parentElement el).
Qed.

Lemma runTeardown_calls t s : calls (trace (runTeardown t s)) = [].
Proof.
  destruct t as [|el h1 h2 k]; [done|]. rewrite runTeardown_eq.
  apply calls_disconnects.
Qed.

Lemma setComponentFocus_source k v s l v' :
  ListenerCall l v' ∈ trace (setComponentFocus k v s) →
  focusChanged s (state (setComponentFocus k v s)) l v'.
Proof.
  destruct (JsMap.get k (components s)) as [a|] eqn:Hk.
  2: { rewrite setComponentFocus_absent by done. by intros ?%elem_of_nil. }
  destruct (heap s !! a) as [c|] eqn:Ha.
  2: { rewrite (setComponentFocus_dangling k v s a) by done.
       by intros ?%elem_of_nil. }
  rewrite (setComponentFocus_eq k v s a c) by done. cbn [trace state fst snd].
  destruct (negb (eqb (focused c) v)) eqn:Hch; [|by intros ?%elem_of_nil].
  intros [Hin|Hin]%elem_of_app.
  - apply list_elem_of_fmap in Hin as (l' & [= -> ->] & Hl').
    exists k, a, c. split_and!; try done.
    + by destruct (focused c), v.
    + simpl. by rewrite lookup_alter_eq, Ha.
  - assert (Hc : Forall (λ e, isCacheAction e = true) (if v then dispatch s c else [])).
    { destruct v; [apply dispatch_cache_actions|constructor]. }
    rewrite Forall_forall in Hc. by apply Hc in Hin.
Qed.

Lemma blur_source s s' l v :
  wf s → heap s' = blurHeap (heap s) (components s).*2 →
  ListenerCall l v ∈ (components s).*2 ≫= blurNotifications (heap s) →
  focusChanged s s' l v.
Proof.
  intros Hwf Hh (a & He & Ha)%list_elem_of_bind.
  apply blurNotifications_elem in He as (c & l' & Hc & Hf & Hl & [= -> ->]).
  apply list_elem_of_fmap in Ha as Ha'. destruct Ha' as ([k a'] & -> & Hin).
  exists k, a', c. split_and!; try done.
  - split; [by apply wf_components_get|done].
  - rewrite Hh, blurHeap_lookup, decide_True by done. simpl in *. by rewrite Hc.
Qed.

(** C6, as stated, fails: with listener [5] subscribed to ["k"] and the
    component not focused, subscribing listener [5] again calls it with
    [false], although no focus state changed and this is neither the first
    subscription to the key nor the first one of that listener.  (A second
    listener subscribing to ["k"] is called in the same way.) *)
Lemma C6_second_subscription_is_notified :
  ¬ notifiedOnlyOnChangeOrFirstSubscription.
Proof.
  intros Hclaim.
  assert (Hwf : wf oneComponent) by compute_done.
  assert (Hin : ListenerCall 5 false ∈
                trace (exec (CallSubscribe "k" 5) oneComponent)) by (by left).
  assert (Hone : ∀ k a c, registered oneComponent k a c → c = blurredRecord).
  { intros k a c [Hk Ha].
    change (components oneComponent) with [("k", 0)] in Hk. simpl in Hk.
    destruct (decide ("k" = k)); [|done]. injection Hk as <-.
    change (heap oneComponent !! 0) with (Some blurredRecord) in Ha.
    by injection Ha as <-. }
  destruct (Hclaim oneComponent (CallSubscribe "k" 5) 5 false Hwf Hin)
    as [(k & a & c & Hreg & _ & Hf & _)|(k & a & c & _ & Hreg & _ & Hl)].
  - rewrite (Hone _ _ _ Hreg) in Hf. done.
  - rewrite (Hone _ _ _ Hreg) in Hl. apply Hl. by left.
Qed.

(** C6, amended: whatever is done to a manager, a listener is called only
    when the stored focus state of a record that holds it changed, and then
    with the new state, or because it is being subscribed to a registered
    key, and then with the stored state of that key; every subscription to a
    registered key makes that one call, not only the first. *)
Theorem C6_notification_sources (s : State) (call : Call)
    (l : ComponentListener) (v : bool) :
  wf s →
  (ListenerCall l v ∈ trace (exec call s) →
     focusChanged s (state (exec call s)) l v ∨ subscription s call l v) ∧
  (∀ k a c l', registered s k a c →
     trace (exec (CallSubscribe k l') s) = [ListenerCall l' (focused c)]).
Proof.
  intros Hwf. split.
  2: { intros k a c l' Hreg. simpl. rewrite discard_eq.
       by rewrite (subscribeToComponent_eq k l' s a c). }
  destruct call as [k el qc o|t|k|k b|k l0|u|k|k| |k qc|k o| |b| | |k b|k r d|k|k b];
    simpl.
  - rewrite discard_eq. cbn [trace snd]. intros Hin.
    by apply silent in Hin; [|apply registerComponent_calls].
  - intros Hin. by apply silent in Hin; [|apply runTeardown_calls].
  - rewrite unregisterComponent_eq. intros Hin.
    by apply silent in Hin; [|apply calls_disconnects].
  - intros Hin. left. by apply setComponentFocus_source.
  - rewrite discard_eq. cbn [trace state fst snd].
    destruct (JsMap.get k (components s)) as [a|] eqn:Hk.
    + destruct (heap s !! a) as [c|] eqn:Ha.
      * rewrite (subscribeToComponent_eq k l0 s a c) by done. cbn [trace snd].
        intros [= -> ->]%list_elem_of_singleton. right. by exists k, a, c.
      * unfold subscribeToComponent, bind, get, ret. simpl. rewrite Hk, Ha.
        by intros ?%elem_of_nil.
    + rewrite subscribeToComponent_absent by done. cbn [trace snd].
      by intros [=]%list_elem_of_singleton.
  - destruct u; by intros ?%elem_of_nil.
  - intros Hin. left. by apply setComponentFocus_source.
  - intros Hin. left. by apply setComponentFocus_source.
  - rewrite blurAllComponents_eq by done. cbn [trace state fst snd].
    intros Hin. left. by apply (blur_source s).
  - rewrite updateComponentQueryClient_trace. by intros ?%elem_of_nil.
  - rewrite updateComponentOptions_trace. by intros ?%elem_of_nil.
  - intros Hin. by apply silent in Hin; [|apply destroy_calls].
  - rewrite whenAttached_eq. destruct (globalCleanup s); [|by intros ?%elem_of_nil].
    destruct b; [by intros ?%elem_of_nil|].
    change (handleVisibilityChange false s) with (handleWindowBlur s).
    rewrite handleWindowBlur_eq by done. cbn [trace state fst snd].
    intros Hin. left. by apply (blur_source s).
  - rewrite whenAttached_eq. destruct (globalCleanup s); by intros ?%elem_of_nil.
  - rewrite whenAttached_eq. destruct (globalCleanup s); [|by intros ?%elem_of_nil].
    rewrite handleWindowBlur_eq by done. cbn [trace state fst snd].
    intros Hin. left. by apply (blur_source s).
  - rewrite intersectionCallback_single. intros Hin. left.
    by apply setComponentFocus_source.
  - unfold mutationCallback. destruct (_ && _); [|by intros ?%elem_of_nil].
    rewrite unregisterComponent_eq. intros Hin.
    by apply silent in Hin; [|apply calls_disconnects].
  - rewrite handleMouseEnter_eq. destruct (globalFocused s);
      [|by intros ?%elem_of_nil].
    intros Hin. left. by apply setComponentFocus_source.
  - unfold handleMouseLeave. destruct (negb b); [|by intros ?%elem_of_nil].
    intros Hin. left. by apply setComponentFocus_source.
Qed.

Lemma C6_notification_sources_witness :
  wf oneComponent ∧
  trace (exec (CallSubscribe "k" 6) oneComponent) = [ListenerCall 6 false] ∧
  (focusChanged oneComponent (state (exec (CallFocus "k") oneComponent)) 5 true ∨
   subscription oneComponent (CallFocus "k") 5 true).
Proof.
  assert (Hwf : wf oneComponent) by compute_done.
  destruct (C6_notification_sources oneComponent (CallFocus "k") 5 true Hwf)
    as [Hsrc Hsub].
  split_and!; [exact Hwf| |apply Hsrc; by left].
  apply (Hsub "k" 0 blurredRecord 6). split; reflexivity.
Defined.

(** ** Where query-client calls come from *)

Lemma quiet_elem t e : quiet t → e ∈ t → isCacheAction e = true → False.
Proof.
  intros Hq Hin He. unfold quiet in Hq. rewrite Forall_forall in Hq.
  apply Hq in Hin. congruence.
Qed.

Lemma quiet_disconnects k s : quiet (disconnects k s).
Proof.
  unfold quiet, disconnects.
  destruct (intersectionObservers s !! k), (mutationObservers s !! k);
    repeat constructor.
Qed.

Lemma quiet_blur h addrs : quiet (addrs ≫= blurNotifications h).
Proof.
  apply Forall_forall. intros e (a & He & _)%list_elem_of_bind.
  by apply blurNotifications_elem in He as (c & l & _ & _ & _ & ->).
Qed.

Lemma quiet_registerComponent k el qc o s :
  quiet (trace (registerComponent k el qc o s)).
Proof.
  destruct el as [el|]; [|by repeat constructor].
  rewrite registerComponent_eq. cbn [trace snd]. apply Forall_app. split.
  - apply quiet_disconnects.
  - unfold observes. destruct (parentElement el); repeat constructor.
Qed.

Lemma quiet_runTeardown t s : quiet (trace (runTeardown t s)).
Proof.
  destruct t as [|el h1 h2 k]; [constructor|]. rewrite runTeardown_eq.
  apply quiet_disconnects.
Qed.

Lemma quiet_forEach_unregister ks s :
  quiet (trace (forEach unregisterComponent ks s)).
Proof.
  revert s. induction ks as [|k ks IH]; intros s; [constructor|].
  simpl. rewrite trace_bind. apply Forall_app. split; [|apply IH].
  rewrite unregisterComponent_eq. apply quiet_disconnects.
Qed.

Lemma quiet_destroy s : quiet (trace (destroy s)).
Proof.
  unfold destroy. rewrite !trace_bind.
  apply Forall_app. split; [constructor|].
  apply Forall_app. split; [apply quiet_forEach_unregister|constructor].
Qed.

Lemma quiet_subscribeToComponent k l s : quiet (trace (subscribeToComponent k l s)).
Proof.
  destruct (JsMap.get k (components s)) as [a|] eqn:Hk.
  - destruct (heap s !! a) as [c|] eqn:Ha.
    + rewrite (subscribeToComponent_eq k l s a c) by done. by repeat constructor.
    + unfold subscribeToComponent, bind, get, ret. simpl. rewrite Hk, Ha.
      constructor.
  - rewrite subscribeToComponent_absent by done. by repeat constructor.
Qed.

Lemma setComponentFocus_cache_source k v s e :
  e ∈ trace (setComponentFocus k v s) → isCacheAction e = true →
  focusGained s (state (setComponentFocus k v s)) e.
Proof.
  destruct (JsMap.get k (components s)) as [a|] eqn:Hk.
  2: { rewrite setComponentFocus_absent by done. by intros ?%elem_of_nil. }
  destruct (heap s !! a) as [c|] eqn:Ha.
  2: { rewrite (setComponentFocus_dangling k v s a) by done.
       by intros ?%elem_of_nil. }
  rewrite (setComponentFocus_eq k v s a c) by done. cbn [trace state fst snd].
  destruct (negb (eqb (focused c) v)) eqn:Hch; [|by intros ?%elem_of_nil].
  intros [Hin|Hin]%elem_of_app He.
  - apply list_elem_of_fmap in Hin as (l' & -> & _). done.
  - destruct v; [|by apply elem_of_nil in Hin].
    exists k, a, c. split_and!; try done.
    + by destruct (focused c).
    + cbn [heap setHeap]. by rewrite lookup_alter_eq, Ha.
Qed.

(** C2: for a registered key, [setComponentFocus] first calls every listener
    of the record when the stored state changes, and then runs the refresh
    dispatch exactly when the stored state goes from [false] to [true]; the
    dispatch is [handleComponentFocus] on the record's query client and
    options, and is empty when the record has no query client; a transition
    out of focus makes no call on a query client.  Whatever is done to a
    manager, a call on a query client is a call of the dispatch of a record
    that went from not focused to focused. *)
Theorem C2_dispatch_on_focus_gain (s : State) :
  wf s →
  (∀ k v a c, registered s k a c →
     let r := setComponentFocus k v s in
     let notified :=
       if negb (eqb (focused c) v) then notifyAll v (listeners c) else [] in
     let dispatched := if negb (focused c) && v then dispatch s c else [] in
     trace r = notified ++ dispatched ∧
     Forall (λ e, isListenerCall e = true ∧ isCacheAction e = false) notified ∧
     Forall (λ e, isCacheAction e = true) dispatched ∧
     (∀ qc, queryClient c = Some qc →
        dispatch s c = trace (handleComponentFocus qc (options c) s)) ∧
     (queryClient c = None → dispatch s c = []) ∧
     (v = false → Forall (λ e, isCacheAction e = false) (trace r))) ∧
  (∀ call e, e ∈ trace (exec call s) → isCacheAction e = true →
     focusGained s (state (exec call s)) e).
Proof.
  intros Hwf. split.
  - intros k v a c Hreg r notified dispatched. subst r.
    rewrite (setComponentFocus_eq _ _ _ _ _ Hreg). unfold trace. simpl.
    split_and!.
    + subst notified dispatched.
      destruct (focused c), v; simpl; by rewrite ?app_nil_r.
    + subst notified. destruct (negb (eqb (focused c) v));
        [apply notifyAll_listener_calls|constructor].
    + subst dispatched. destruct (negb (focused c) && v);
        [apply dispatch_cache_actions|constructor].
    + intros qc Hqc. unfold dispatch. by rewrite Hqc.
    + intros Hqc. unfold dispatch. by rewrite Hqc.
    + intros ->. destruct (negb (eqb (focused c) false)); [|constructor].
      rewrite app_nil_r.
      eapply Forall_impl; [apply notifyAll_listener_calls|]. by intros e [_ ?].
  - intros call e.
    destruct call as [k el qc o|t|k|k b|k l0|u|k|k| |k qc|k o| |b| | |k b|k r d|k|k b];
      simpl.
    + rewrite discard_eq. cbn [trace snd]. intros Hin He.
      destruct (quiet_elem _ _ (quiet_registerComponent k el qc o s) Hin He).
    + intros Hin He. destruct (quiet_elem _ _ (quiet_runTeardown t s) Hin He).
    + rewrite unregisterComponent_eq. cbn [trace snd]. intros Hin He.
      destruct (quiet_elem _ _ (quiet_disconnects k s) Hin He).
    + apply setComponentFocus_cache_source.
    + rewrite discard_eq. cbn [trace snd]. intros Hin He.
      destruct (quiet_elem _ _ (quiet_subscribeToComponent k l0 s) Hin He).
    + destruct u; by intros ?%elem_of_nil.
    + apply setComponentFocus_cache_source.
    + apply setComponentFocus_cache_source.
    + rewrite blurAllComponents_eq by done. cbn [trace snd]. intros Hin He.
      destruct (quiet_elem _ _ (quiet_blur _ _) Hin He).
    + rewrite updateComponentQueryClient_trace. by intros ?%elem_of_nil.
    + rewrite updateComponentOptions_trace. by intros ?%elem_of_nil.
    + intros Hin He. destruct (quiet_elem _ _ (quiet_destroy s) Hin He).
    + rewrite whenAttached_eq.
      destruct (globalCleanup s); [|by intros ?%elem_of_nil].
      destruct b; [by intros ?%elem_of_nil|].
      change (handleVisibilityChange false s) with (handleWindowBlur s).
      rewrite handleWindowBlur_eq by done. cbn [trace snd]. intros Hin He.
      destruct (quiet_elem _ _ (quiet_blur _ _) Hin He).
    + rewrite whenAttached_eq. destruct (globalCleanup s); by intros ?%elem_of_nil.
    + rewrite whenAttached_eq.
      destruct (globalCleanup s); [|by intros ?%elem_of_nil].
      rewrite handleWindowBlur_eq by done. cbn [trace snd]. intros Hin He.
      destruct (quiet_elem _ _ (quiet_blur _ _) Hin He).
    + rewrite intersectionCallback_single. apply setComponentFocus_cache_source.
    + unfold mutationCallback. destruct (_ && _); [|by intros ?%elem_of_nil].
      rewrite unregisterComponent_eq. cbn [trace snd]. intros Hin He.
      destruct (quiet_elem _ _ (quiet_disconnects k s) Hin He).
    + rewrite handleMouseEnter_eq.
      destruct (globalFocused s); [|by intros ?%elem_of_nil].
      apply setComponentFocus_cache_source.
    + unfold handleMouseLeave. destruct (negb b); [|by intros ?%elem_of_nil].
      apply setComponentFocus_cache_source.
Qed.

Lemma C2_dispatch_on_focus_gain_witness :
  wf oneComponent ∧
  registered oneComponent "k" 0 blurredRecord ∧
  trace (setComponentFocus "k" true oneComponent) =
    [ListenerCall 5 true; InvalidateQueries 7 {["refetchType" := FString "all"]}].
Proof.
  assert (Hwf : wf oneComponent) by compute_done.
  assert (H : registered oneComponent "k" 0 blurredRecord) by (split; reflexivity).
  split_and!; [exact Hwf|exact H|].
  destruct (C2_dispatch_on_focus_gain oneComponent Hwf) as [Hset _].
  destruct (Hset "k" true 0 blurredRecord H) as (Ht & _).
  rewrite Ht. reflexivity.
Defined.

(** * Further properties of the manager *)

(** ** [destroy] *)

Lemma forEach_unregister_state ks s :
  state (forEach unregisterComponent ks s) = unregisterAll ks s.
Proof.
  revert s. induction ks as [|k ks IH]; intros s; [done|].
  simpl. by rewrite state_bind, unregisterComponent_eq, IH.
Qed.

Lemma unregisterAll_heap ks s : heap (unregisterAll ks s) = heap s.
Proof. revert s. induction ks as [|k ks IH]; intros s; [done|]. simpl. by rewrite IH. Qed.

Lemma unregisterAll_frame ks s :
  globalFocused (unregisterAll ks s) = globalFocused s ∧
  managerOptions (unregisterAll ks s) = managerOptions s ∧
  globalCleanup (unregisterAll ks s) = globalCleanup s ∧
  pointerListeners (unregisterAll ks s) = pointerListeners s ∧
  nextId (unregisterAll ks s) = nextId s.
Proof.
  revert s. induction ks as [|k ks IH]; intros s; [done|]. simpl.
  destruct (IH (unregistered k s)) as (-> & -> & -> & -> & ->). done.
Qed.

Lemma filter_all {A} (P : A → Prop) `{∀ x, Decision (P x)} (l : list A) :
  (∀ x, x ∈ l → P x) → filter P l = l.
Proof.
  induction l as [|x l IH]; intros Hl; [done|].
  rewrite filter_cons_True by (apply Hl; left). f_equal. apply IH.
  intros y Hy. apply Hl. by right.
Qed.

Lemma unregisterAll_keys ks s :
  JsMap.keys (components (unregisterAll ks s)) =
  filter (λ k, k ∉ ks) (JsMap.keys (components s)).
Proof.
  revert s. induction ks as [|k ks IH]; intros s.
  - simpl. symmetry. apply filter_all. intros k _. apply not_elem_of_nil.
  - simpl. rewrite IH. unfold unregistered. fields.
    rewrite JsMap_keys_delete, list_filter_filter. apply list_filter_iff.
    intros k'. rewrite not_elem_of_cons. tauto.
Qed.

Lemma unregisterAll_io ks s k :
  intersectionObservers (unregisterAll ks s) !! k =
  if decide (k ∈ ks) then None else intersectionObservers s !! k.
Proof.
  revert s. induction ks as [|k1 ks IH]; intros s.
  - by rewrite decide_False by apply not_elem_of_nil.
  - simpl. rewrite IH. unfold unregistered. fields.
    destruct (decide (k ∈ ks)) as [Hin|Hnin].
    + by rewrite decide_True by (by right).
    + destruct (decide (k = k1)) as [->|Hne].
      * rewrite lookup_delete_eq. by rewrite decide_True by left.
      * rewrite lookup_delete_ne by done. rewrite decide_False; [done|].
        by intros [?|?]%elem_of_cons.
Qed.

Lemma unregisterAll_mo ks s k :
  mutationObservers (unregisterAll ks s) !! k =
  if decide (k ∈ ks) then None else mutationObservers s !! k.
Proof.
  revert s. induction ks as [|k1 ks IH]; intros s.
  - by rewrite decide_False by apply not_elem_of_nil.
  - simpl. rewrite IH. unfold unregistered. fields.
    destruct (decide (k ∈ ks)) as [Hin|Hnin].
    + by rewrite decide_True by (by right).
    + destruct (decide (k = k1)) as [->|Hne].
      * rewrite lookup_delete_eq. by rewrite decide_True by left.
      * rewrite lookup_delete_ne by done. rewrite decide_False; [done|].
        by intros [?|?]%elem_of_cons.
Qed.

Lemma forEach_unregister_io ks s k o :
  k ∈ ks → intersectionObservers s !! k = Some o →
  IntersectionDisconnect o ∈ trace (forEach unregisterComponent ks s).
Proof.
  revert s. induction ks as [|k1 ks IH]; intros s Hin Ho.
  - by apply elem_of_nil in Hin.
  - simpl. rewrite trace_bind, unregisterComponent_eq. cbn [trace state fst snd].
    apply elem_of_app. destruct (decide (k = k1)) as [->|Hne].
    + left. unfold disconnects. rewrite Ho. apply elem_of_app. left. by left.
    + right. apply IH.
      * by apply elem_of_cons in Hin as [?|?].
      * unfold unregistered. fields. by rewrite lookup_delete_ne.
Qed.

Lemma forEach_unregister_mo ks s k o :
  k ∈ ks → mutationObservers s !! k = Some o →
  MutationDisconnect o ∈ trace (forEach unregisterComponent ks s).
Proof.
  revert s. induction ks as [|k1 ks IH]; intros s Hin Ho.
  - by apply elem_of_nil in Hin.
  - simpl. rewrite trace_bind, unregisterComponent_eq. cbn [trace state fst snd].
    apply elem_of_app. destruct (decide (k = k1)) as [->|Hne].
    + left. unfold disconnects. rewrite Ho. apply elem_of_app. right. by left.
    + right. apply IH.
      * by apply elem_of_cons in Hin as [?|?].
      * unfold unregistered. fields. by rewrite lookup_delete_ne.
Qed.

Lemma destroy_state s :
  state (destroy s) =
  setGlobalCleanup false (unregisterAll (JsMap.keys (components s)) s).
Proof.
  unfold destroy. rewrite !state_bind. unfold get at 1 2.
  cbn [value state fst snd]. by rewrite forEach_unregister_state.
Qed.

Lemma destroy_trace s :
  trace (destroy s) =
  trace (forEach unregisterComponent (JsMap.keys (components s)) s).
Proof.
  unfold destroy. rewrite !trace_bind. unfold get at 1 2 3.
  cbn [value state trace fst snd]. unfold modify. cbn [trace snd].
  by rewrite app_nil_r.
Qed.

Lemma filter_none {A} (P : A → Prop) `{∀ x, Decision (P x)} (l : list A) :
  (∀ x, x ∈ l → ¬ P x) → filter P l = [].
Proof.
  induction l as [|x l IH]; intros Hl; [done|].
  rewrite filter_cons_False by (apply Hl; left). apply IH.
  intros y Hy. apply Hl. by right.
Qed.

(** X1: [destroy] disconnects every stored observer, empties the component
    map and both observer maps and drops the global cleanup; it calls no
    listener and no query client and leaves the state objects as they are.
    A second [destroy] changes nothing and calls nothing. *)
Theorem X1_destroy_releases_everything (s : State) :
  wf s →
  let r := destroy s in
  getRegisteredComponents (state r) = [] ∧
  intersectionObservers (state r) = ∅ ∧
  mutationObservers (state r) = ∅ ∧
  globalCleanup (state r) = false ∧
  heap (state r) = heap s ∧
  (∀ k o, intersectionObservers s !! k = Some o →
     IntersectionDisconnect o ∈ trace r) ∧
  (∀ k o, mutationObservers s !! k = Some o → MutationDisconnect o ∈ trace r) ∧
  calls (trace r) = [] ∧
  quiet (trace r) ∧
  (∀ k, isComponentFocused k (state r) = false) ∧
  destroy (state r) = (tt, state r, []).
Proof.
  intros Hwf r. subst r.
  assert (Hkeys : getRegisteredComponents (state (destroy s)) = []).
  { rewrite destroy_state. unfold getRegisteredComponents. fields.
    rewrite unregisterAll_keys. apply filter_none. tauto. }
  destruct Hwf as (_ & _ & _ & _ & Hio & Hmo).
  assert (Hcomp : components (state (destroy s)) = []).
  { unfold getRegisteredComponents, JsMap.keys in Hkeys.
    by apply fmap_nil_inv in Hkeys. }
  split_and!.
  - done.
  - rewrite destroy_state. fields. apply map_empty. intros k.
    rewrite unregisterAll_io. case_decide as Hin; [done|].
    destruct (intersectionObservers s !! k) as [o|] eqn:Ho; [|done].
    destruct Hin. apply (Hio _ _ Ho).
  - rewrite destroy_state. fields. apply map_empty. intros k.
    rewrite unregisterAll_mo. case_decide as Hin; [done|].
    destruct (mutationObservers s !! k) as [o|] eqn:Ho; [|done].
    destruct Hin. apply (Hmo _ _ Ho).
  - by rewrite destroy_state.
  - rewrite destroy_state. fields. apply unregisterAll_heap.
  - intros k o Ho. rewrite destroy_trace.
    apply (forEach_unregister_io _ _ k); [apply (Hio _ _ Ho)|done].
  - intros k o Ho. rewrite destroy_trace.
    apply (forEach_unregister_mo _ _ k); [apply (Hmo _ _ Ho)|done].
  - apply destroy_calls.
  - apply quiet_destroy.
  - intros k. apply isComponentFocused_absent. by rewrite Hcomp.
  - assert (Hgc : globalCleanup (state (destroy s)) = false)
      by (by rewrite destroy_state).
    assert (Hs : state (destroy (state (destroy s))) = state (destroy s)).
    { rewrite (destroy_state (state (destroy s))). rewrite Hcomp.
      apply State_eq; fields; done. }
    assert (Ht : trace (destroy (state (destroy s))) = []).
    { rewrite (destroy_trace (state (destroy s))). by rewrite Hcomp. }
    destruct (destroy (state (destroy s))) as [[[] s2] t2].
    cbn [state trace fst snd] in Hs, Ht. by rewrite Hs, Ht.
Qed.

Lemma X1_destroy_releases_everything_witness :
  wf oneFocused ∧
  trace (destroy oneFocused) = [IntersectionDisconnect 1; MutationDisconnect 2] ∧
  getRegisteredComponents (state (destroy oneFocused)) = [].
Proof.
  assert (Hwf : wf oneFocused) by compute_done.
  destruct (X1_destroy_releases_everything oneFocused Hwf) as (Hk & _).
  split_and!; [exact Hwf|reflexivity|exact Hk].
Defined.

(** ** Updating a record *)

Lemma updateComponentQueryClient_eq k qc s :
  updateComponentQueryClient k qc s =
  (tt,
   match JsMap.get k (components s) with
   | Some a => setHeap (alter (withQueryClient (Some qc)) a (heap s)) s
   | None => s
   end, []).
Proof.
  unfold updateComponentQueryClient, bind, get, ret, mutate, modify. simpl.
  by destruct (JsMap.get k (components s)).
Qed.

Lemma updateComponentOptions_eq k o s :
  updateComponentOptions k o s =
  (tt,
   match JsMap.get k (components s) with
   | Some a =>
       setHeap (alter (λ c, withOptions (Some (spread (orEmpty (options c)) o)) c)
                  a (heap s)) s
   | None => s
   end, []).
Proof.
  unfold updateComponentOptions, bind, get, ret, mutate, modify. simpl.
  by destruct (JsMap.get k (components s)).
Qed.

Lemma over_assoc {A} (a b c : Optional A) : over (over a b) c = over a (over b c).
Proof. by destruct c. Qed.

Lemma spread_assoc a b c : spread (spread a b) c = spread a (spread b c).
Proof. unfold spread. simpl. by rewrite !over_assoc. Qed.

Lemma alter_alter {A} (f g : A → A) (a : nat) (h : gmap nat A) :
  alter f a (alter g a h) = alter (λ x, f (g x)) a h.
Proof.
  apply map_eq. intros i. destruct (decide (a = i)) as [->|Hne].
  - rewrite !lookup_alter_eq. by destruct (h !! i).
  - by rewrite !lookup_alter_ne.
Qed.

(** X2: [updateComponentQueryClient] does nothing for a key that is not
    registered.  For a registered key it replaces the query client of the
    record and nothing else, calls nothing, and the next focus gain of that
    key dispatches on the new client with the record's options. *)
Theorem X2_update_query_client (s : State) (k : ComponentKey) (qc' : QueryClient) :
  (JsMap.get k (components s) = None →
     updateComponentQueryClient k qc' s = (tt, s, [])) ∧
  (∀ a c, registered s k a c →
     let r := updateComponentQueryClient k qc' s in
     trace r = [] ∧
     registered (state r) k a (withQueryClient (Some qc') c) ∧
     isComponentFocused k (state r) = focused c ∧
     getRegisteredComponents (state r) = getRegisteredComponents s ∧
     (focused c = false →
        trace (setComponentFocus k true (state r)) =
        notifyAll true (listeners c) ++
        trace (handleComponentFocus qc' (options c) s))).
Proof.
  split.
  - intros Hk. by rewrite updateComponentQueryClient_eq, Hk.
  - intros a c [Hk Ha] r. subst r. rewrite updateComponentQueryClient_eq, Hk.
    cbn [state trace fst snd].
    assert (Hreg : registered
              (setHeap (alter (withQueryClient (Some qc')) a (heap s)) s) k a
              (withQueryClient (Some qc') c)).
    { split; fields; [done|]. by rewrite lookup_alter_eq, Ha. }
    split_and!; try done.
    + by rewrite (isComponentFocused_registered _ _ _ _ Hreg).
    + intros Hf. rewrite (setComponentFocus_eq _ _ _ _ _ Hreg).
      cbn [trace snd withQueryClient focused listeners]. rewrite Hf.
      cbn [eqb negb]. unfold dispatch. cbn [withQueryClient queryClient options].
      by rewrite !handleComponentFocus_eq.
Qed.

Lemma X2_update_query_client_witness :
  trace (setComponentFocus "k" true
           (state (updateComponentQueryClient "k" 9 oneComponent))) =
  [ListenerCall 5 true; InvalidateQueries 9 {["refetchType" := FString "all"]}].
Proof.
  destruct (X2_update_query_client oneComponent "k" 9) as [_ Hreg].
  destruct (Hreg 0 blurredRecord) as (_ & _ & _ & _ & Ht); [split; reflexivity|].
  rewrite Ht; reflexivity.
Defined.

(** X3: [updateComponentOptions] does nothing for a key that is not
    registered.  For a registered key it calls nothing and stores the given
    options spread over the stored ones, keeping focus state, listeners and
    query client, and the next focus gain dispatches on them; two updates in
    a row are one update with the second options spread over the first. *)
Theorem X3_update_options_compose (s : State) (k : ComponentKey)
    (o1 o2 : ComponentFocusManagerOptions) :
  (JsMap.get k (components s) = None →
     updateComponentOptions k o1 s = (tt, s, [])) ∧
  updateComponentOptions k o2 (state (updateComponentOptions k o1 s)) =
    updateComponentOptions k (spread o1 o2) s ∧
  (∀ a c, registered s k a c →
     let r := updateComponentOptions k o1 s in
     trace r = [] ∧
     registered (state r) k a
       (withOptions (Some (spread (orEmpty (options c)) o1)) c) ∧
     isComponentFocused k (state r) = focused c ∧
     (∀ qc, focused c = false → queryClient c = Some qc →
        trace (setComponentFocus k true (state r)) =
        notifyAll true (listeners c) ++
        trace (handleComponentFocus qc
                 (Some (spread (orEmpty (options c)) o1)) s))).
Proof.
  split_and!.
  - intros Hk. by rewrite updateComponentOptions_eq, Hk.
  - rewrite !updateComponentOptions_eq. cbn [state fst snd].
    destruct (JsMap.get k (components s)) as [a|] eqn:Hk.
    + fields. rewrite Hk. f_equal. f_equal. apply State_eq; fields; try done.
      rewrite alter_alter. apply alter_ext. intros c _.
      unfold withOptions. cbn. by rewrite spread_assoc.
    + by rewrite Hk.
  - intros a c [Hk Ha] r. subst r. rewrite updateComponentOptions_eq, Hk.
    cbn [state trace fst snd].
    set (c' := withOptions (Some (spread (orEmpty (options c)) o1)) c).
    assert (Hreg : registered
              (setHeap (alter (λ c, withOptions
                                  (Some (spread (orEmpty (options c)) o1)) c)
                          a (heap s)) s) k a c').
    { split; fields; [done|]. by rewrite lookup_alter_eq, Ha. }
    split_and!; try done.
    + by rewrite (isComponentFocused_registered _ _ _ _ Hreg).
    + intros qc Hf Hqc. rewrite (setComponentFocus_eq _ _ _ _ _ Hreg).
      cbn [trace snd]. subst c'. cbn [withOptions focused listeners].
      rewrite Hf. cbn [eqb negb]. unfold dispatch.
      cbn [withOptions queryClient options]. rewrite Hqc.
      by rewrite !handleComponentFocus_eq.
Qed.

Lemma X3_update_options_compose_witness :
  trace (setComponentFocus "k" true
           (state (updateComponentOptions "k" policiesOff oneComponent))) =
  [ListenerCall 5 true].
Proof.
  destruct (X3_update_options_compose oneComponent "k" policiesOff noOptions)
    as (_ & _ & Hreg).
  destruct (Hreg 0 blurredRecord) as (_ & _ & _ & Ht); [split; reflexivity|].
  rewrite (Ht 7); reflexivity.
Defined.

(** ** Blurring and focusing by hand *)

Lemma blurHeap_idemp h addrs : blurHeap (blurHeap h addrs) addrs = blurHeap h addrs.
Proof.
  apply map_eq. intros a. rewrite !blurHeap_lookup.
  case_decide; [|done]. by destruct (h !! a).
Qed.

Lemma blurNotifications_blurHeap h addrs a :
  a ∈ addrs → blurNotifications (blurHeap h addrs) a = [].
Proof.
  intros Ha. unfold blurNotifications. rewrite blurHeap_lookup, decide_True by done.
  by destruct (h !! a).
Qed.

Lemma bind_nil {A B} (f : A → list B) (l : list A) :
  (∀ x, x ∈ l → f x = []) → l ≫= f = [].
Proof.
  induction l as [|x l IH]; intros Hf; [done|]. csimpl.
  rewrite (Hf x) by left. apply IH. intros y Hy. apply Hf. by right.
Qed.

(** X4: [blurAllComponents] leaves every registered key not focused and the
    set of keys and the global signal as they were; it calls exactly the
    listeners of the records that were focused, each with [false], in
    registration order, and never a query client.  Called again at once it
    changes nothing and calls nothing. *)
Theorem X4_blur_all (s : State) :
  wf s →
  let r := blurAllComponents s in
  (∀ k, isComponentFocused k (state r) = false) ∧
  getRegisteredComponents (state r) = getRegisteredComponents s ∧
  isGloballyFocused (state r) = isGloballyFocused s ∧
  trace r = (components s).*2 ≫= blurNotifications (heap s) ∧
  (∀ k a c l, registered s k a c → focused c = true → l ∈ listeners c →
     ListenerCall l false ∈ trace r) ∧
  (∀ e, e ∈ trace r →
     ∃ k a c l, registered s k a c ∧ focused c = true ∧ l ∈ listeners c ∧
                e = ListenerCall l false) ∧
  quiet (trace r) ∧
  blurAllComponents (state r) = (tt, state r, []).
Proof.
  intros Hwf r. subst r. rewrite (blurAllComponents_eq s Hwf).
  cbn [state trace fst snd].
  split_and!; try done.
  - intros k. by apply (isComponentFocused_blurHeap s).
  - intros k a c l [Hk Ha] Hf Hl. apply list_elem_of_bind. exists a. split.
    + unfold blurNotifications. rewrite Ha, Hf.
      by apply (list_elem_of_fmap_2 (λ l, ListenerCall l false)).
    + apply JsMap_get_Some_elem in Hk. by apply (list_elem_of_fmap_2 snd) in Hk.
  - intros e (a & He & Ha)%list_elem_of_bind.
    apply blurNotifications_elem in He as (c & l & Hc & Hf & Hl & ->).
    apply list_elem_of_fmap in Ha as ([k a'] & -> & Hin).
    exists k, a', c, l. split_and!; try done. split; [|done].
    by apply wf_components_get.
  - apply quiet_blur.
  - assert (Hwf' : wf (setHeap (blurHeap (heap s) (components s).*2) s)).
    { pose proof (wf_blurAllComponents s Hwf) as H.
      by rewrite (blurAllComponents_eq s Hwf) in H. }
    rewrite (blurAllComponents_eq _ Hwf'). fields. f_equal; [f_equal|].
    + apply State_eq; fields; try done. apply blurHeap_idemp.
    + apply bind_nil. intros a Ha. by apply blurNotifications_blurHeap.
Qed.

Lemma X4_blur_all_witness :
  wf oneFocused ∧
  trace (blurAllComponents oneFocused) = [ListenerCall 5 false] ∧
  isComponentFocused "k" (state (blurAllComponents oneFocused)) = false.
Proof.
  assert (Hwf : wf oneFocused) by compute_done.
  destruct (X4_blur_all oneFocused Hwf) as (Hk & _ & _ & Ht & _).
  split_and!; [exact Hwf|by rewrite Ht|apply Hk].
Defined.

Lemma alter_restore (a : nat) (h : gmap nat ComponentFocusState) c b :
  h !! a = Some c →
  alter (withFocused (focused c)) a (alter (withFocused b) a h) = h.
Proof.
  intros Ha. apply map_eq. intros i. destruct (decide (a = i)) as [->|Hne].
  - rewrite !lookup_alter_eq, Ha. simpl. by destruct c.
  - by rewrite !lookup_alter_ne.
Qed.

(** X5: for a registered key that is not focused, [focusComponent] makes
    [isComponentFocused] true, whatever the global signal is, and a
    following [blurComponent] restores the manager exactly, calling each
    listener of the record once with [false] and no query client. *)
Theorem X5_focus_then_blur (s : State) (k : ComponentKey) (a : nat)
    (c : ComponentFocusState) :
  registered s k a c → focused c = false →
  let r1 := focusComponent k s in
  let r2 := blurComponent k (state r1) in
  isComponentFocused k (state r1) = true ∧
  trace r1 = notifyAll true (listeners c) ++ dispatch s c ∧
  state r2 = s ∧
  trace r2 = notifyAll false (listeners c).
Proof.
  intros Hreg Hf r1 r2. subst r1 r2. unfold focusComponent, blurComponent.
  assert (Hreg' := registered_set_focus _ _ _ _ true Hreg).
  rewrite (setComponentFocus_eq _ _ _ _ _ Hreg). cbn [state trace fst snd].
  rewrite (setComponentFocus_eq _ _ _ _ _ Hreg'). cbn [state trace fst snd].
  rewrite Hf. cbn [eqb negb withFocused focused listeners].
  split_and!; try done.
  - by rewrite (isComponentFocused_registered _ _ _ _ Hreg').
  - apply State_eq; fields; try done. rewrite <- Hf. destruct Hreg as [_ Ha].
    apply (alter_restore a (heap s) c true Ha).
  - by rewrite app_nil_r.
Qed.

Lemma X5_focus_then_blur_witness :
  state (blurComponent "k" (state (focusComponent "k" oneComponent))) = oneComponent.
Proof.
  assert (H : registered oneComponent "k" 0 blurredRecord) by (split; reflexivity).
  destruct (X5_focus_then_blur oneComponent "k" 0 blurredRecord H eq_refl)
    as (_ & _ & Hs & _).
  exact Hs.
Defined.

Lemma wf_addr_inj s k k' a :
  wf s → JsMap.get k (components s) = Some a →
  JsMap.get k' (components s) = Some a → k = k'.
Proof.
  intros (_ & Hnd & _) Hk Hk'.
  apply JsMap_get_Some_elem in Hk, Hk'. revert Hnd Hk Hk'.
  generalize (components s). intros m. induction m as [|[k1 a1] m IH];
    intros Hnd Hk Hk'; [by apply elem_of_nil in Hk|].
  rewrite fmap_cons in Hnd. apply NoDup_cons in Hnd as [Hnin Hnd]. simpl in Hnin.
  apply elem_of_cons in Hk as [Hk|Hk], Hk' as [Hk'|Hk']; simplify_eq.
  - done.
  - destruct Hnin. by apply (list_elem_of_fmap_2 snd) in Hk'.
  - destruct Hnin. by apply (list_elem_of_fmap_2 snd) in Hk.
  - by apply IH.
Qed.

(** X6: [setComponentFocus k v] leaves every other key as it is: the
    registered keys, the observers and the global signal do not change, and
    no other key changes its focus state. *)
Theorem X6_set_focus_frame (s : State) (k k' : ComponentKey) (v : bool) :
  wf s → k' ≠ k →
  let s' := state (setComponentFocus k v s) in
  isComponentFocused k' s' = isComponentFocused k' s ∧
  getRegisteredComponents s' = getRegisteredComponents s ∧
  intersectionObservers s' = intersectionObservers s ∧
  mutationObservers s' = mutationObservers s ∧
  isGloballyFocused s' = isGloballyFocused s ∧
  (∀ a' c', registered s k' a' c' → registered s' k' a' c').
Proof.
  intros Hwf Hne s'. subst s'. rewrite setComponentFocus_state.
  destruct (JsMap.get k (components s)) as [a|] eqn:Hk; [|done].
  assert (Hother : ∀ a', JsMap.get k' (components s) = Some a' → a' ≠ a).
  { intros a' Hk' ->. apply Hne. by apply (wf_addr_inj s k' k a). }
  split_and!; try done.
  - unfold isComponentFocused. fields.
    destruct (JsMap.get k' (components s)) as [a'|] eqn:Hk'; [|done].
    rewrite lookup_alter_ne; [done|]. intros ->. by apply (Hother a').
  - intros a' c' [Hk' Ha']. split; fields; [done|].
    rewrite lookup_alter_ne; [done|]. intros ->. by apply (Hother a').
Qed.

Lemma X6_set_focus_frame_witness :
  wf threeThenDrop ∧
  isComponentFocused "c" (state (setComponentFocus "a" true threeThenDrop)) = false.
Proof.
  assert (Hwf : wf threeThenDrop) by compute_done.
  split; [exact Hwf|].
  destruct (X6_set_focus_frame threeThenDrop "a" "c" true Hwf) as (Hf & _);
    [done|].
  rewrite Hf. reflexivity.
Defined.

(** ** Host callbacks and the global signal *)

Lemma setComponentFocus_frame k v s :
  components (state (setComponentFocus k v s)) = components s ∧
  globalFocused (state (setComponentFocus k v s)) = globalFocused s ∧
  (∀ a, is_Some (heap s !! a) → is_Some (heap (state (setComponentFocus k v s)) !! a)).
Proof.
  rewrite setComponentFocus_state.
  destruct (JsMap.get k (components s)) as [a|]; [|done]. fields.
  split_and!; try done. intros a' [c Hc].
  destruct (decide (a = a')) as [->|Hne].
  - rewrite lookup_alter_eq, Hc. by eexists.
  - rewrite lookup_alter_ne by done. by eexists.
Qed.

Lemma setComponentFocus_result k v s a :
  JsMap.get k (components s) = Some a → is_Some (heap s !! a) →
  isComponentFocused k (state (setComponentFocus k v s)) = v.
Proof.
  intros Hk [c Ha].
  assert (Hreg := registered_set_focus s k a c v (conj Hk Ha)).
  rewrite (setComponentFocus_eq k v s a c) by done. cbn [state fst snd].
  by rewrite (isComponentFocused_registered _ _ _ _ Hreg).
Qed.

Lemma setComponentFocus_false k s :
  isComponentFocused k (state (setComponentFocus k false s)) = false.
Proof.
  destruct (JsMap.get k (components s)) as [a|] eqn:Hk.
  - destruct (heap s !! a) as [c|] eqn:Ha.
    + by apply (setComponentFocus_result k false s a).
    + rewrite (setComponentFocus_dangling k false s a) by done.
      unfold isComponentFocused. cbn [state fst snd]. by rewrite Hk, Ha.
  - rewrite setComponentFocus_absent by done. by apply isComponentFocused_absent.
Qed.

Lemma setComponentFocus_other s k k' v :
  wf s → k' ≠ k →
  isComponentFocused k' (state (setComponentFocus k v s)) = isComponentFocused k' s.
Proof.
  intros Hwf Hne. rewrite setComponentFocus_state.
  destruct (JsMap.get k (components s)) as [a|] eqn:Hk; [|done].
  unfold isComponentFocused. fields.
  destruct (JsMap.get k' (components s)) as [a'|] eqn:Hk'; [|done].
  rewrite lookup_alter_ne; [done|]. intros ->. apply Hne.
  by apply (wf_addr_inj s k' k a').
Qed.

Lemma quiet_setComponentFocus_false k s : quiet (trace (setComponentFocus k false s)).
Proof.
  destruct (JsMap.get k (components s)) as [a|] eqn:Hk.
  - rewrite (setComponentFocus_blur k s a) by done. cbn [trace snd].
    unfold blurNotifications. destruct (heap s !! a) as [c|]; [|constructor].
    destruct (focused c); [|constructor].
    eapply Forall_impl; [apply notifyAll_listener_calls|]. by intros e [_ ?].
  - rewrite setComponentFocus_absent by done. constructor.
Qed.

Lemma forEach_state_app {A} (f : A → M unit) l1 l2 s :
  state (forEach f (l1 ++ l2) s) = state (forEach f l2 (state (forEach f l1 s))).
Proof.
  revert s. induction l1 as [|x l1 IH]; intros s; [done|].
  simpl. by rewrite !state_bind, IH.
Qed.

Lemma get_bind {A} (f : State → M A) s : (x <- get;; f x) s = f s s.
Proof. unfold bind, get. by destruct (f s s) as [[x s1] t1]. Qed.

Lemma intersectionCallback_frame k entries s :
  components (state (intersectionCallback k entries s)) = components s ∧
  globalFocused (state (intersectionCallback k entries s)) = globalFocused s ∧
  (∀ a, is_Some (heap s !! a) →
        is_Some (heap (state (intersectionCallback k entries s)) !! a)).
Proof.
  unfold intersectionCallback. revert s.
  induction entries as [|b bs IH]; intros s; [done|].
  simpl. rewrite state_bind, get_bind.
  destruct (setComponentFocus_frame k (b && globalFocused s) s) as (Hc & Hg & Hh).
  destruct (IH (state (setComponentFocus k (b && globalFocused s) s)))
    as (Hc' & Hg' & Hh').
  rewrite Hc', Hg', Hc, Hg. split_and!; try done. intros a Ha. by apply Hh', Hh.
Qed.

Lemma quiet_intersection_hidden k entries s :
  globalFocused s = false → quiet (trace (intersectionCallback k entries s)).
Proof.
  unfold intersectionCallback. revert s.
  induction entries as [|b bs IH]; intros s Hg; [constructor|].
  simpl. rewrite trace_bind, get_bind, Hg, andb_false_r.
  apply Forall_app. split; [apply quiet_setComponentFocus_false|].
  apply IH. by destruct (setComponentFocus_frame k false s) as (_ & -> & _).
Qed.

(** X7: the intersection callback of a registered key leaves it focused
    exactly when the last entry intersects and the global signal is true;
    with no entry it does nothing.  While the global signal is false it
    makes no call on a query client, and it never changes the registered
    keys or the global signal. *)
Theorem X7_intersection_callback (s : State) (k : ComponentKey) (a : nat)
    (c : ComponentFocusState) (entries : list bool) (last : bool) :
  registered s k a c →
  intersectionCallback k [] s = (tt, s, []) ∧
  isComponentFocused k (state (intersectionCallback k (entries ++ [last]) s)) =
    last && isGloballyFocused s ∧
  getRegisteredComponents (state (intersectionCallback k entries s)) =
    getRegisteredComponents s ∧
  isGloballyFocused (state (intersectionCallback k entries s)) =
    isGloballyFocused s ∧
  (isGloballyFocused s = false →
     quiet (trace (intersectionCallback k entries s))).
Proof.
  intros [Hk Ha].
  destruct (intersectionCallback_frame k entries s) as (Hc & Hg & Hh).
  split_and!.
  - done.
  - unfold intersectionCallback. rewrite forEach_state_app.
    fold (intersectionCallback k entries s).
    set (s1 := state (intersectionCallback k entries s)) in *.
    pose proof (intersectionCallback_single k last s1) as Hsingle.
    unfold intersectionCallback in Hsingle. rewrite Hsingle, Hg.
    apply (setComponentFocus_result _ _ _ a).
    + by rewrite Hc.
    + apply Hh. by eexists.
  - unfold getRegisteredComponents. by rewrite Hc.
  - done.
  - apply quiet_intersection_hidden.
Qed.

Lemma X7_intersection_callback_witness :
  isComponentFocused "k"
    (state (intersectionCallback "k" [false; true] oneComponent)) = true ∧
  isComponentFocused "k"
    (state (intersectionCallback "k" [true; false] oneComponent)) = false.
Proof.
  assert (H : registered oneComponent "k" 0 blurredRecord) by (split; reflexivity).
  destruct (X7_intersection_callback oneComponent "k" 0 blurredRecord [false] true H)
    as (_ & H1 & _).
  destruct (X7_intersection_callback oneComponent "k" 0 blurredRecord [true] false H)
    as (_ & H2 & _).
  split; [exact H1|exact H2].
Defined.

Lemma isComponentFocused_unregistered k k' s :
  isComponentFocused k (unregistered k' s) = true → isComponentFocused k s = true.
Proof.
  unfold isComponentFocused, unregistered. fields.
  destruct (decide (k' = k)) as [->|Hne].
  - by rewrite JsMap_get_delete_eq.
  - by rewrite JsMap_get_delete_ne.
Qed.

(** X8: while the global signal is false, no callback of the host makes a
    component focused that was not, and none calls a query client.  A call
    of [focusComponent] by the application is not held back by the signal:
    it focuses a registered key whatever the signal is. *)
Theorem X8_host_cannot_focus_while_hidden (s : State) (call : Call)
    (k : ComponentKey) :
  wf s → isHostCall call = true → isGloballyFocused s = false →
  (isComponentFocused k (state (exec call s)) = true →
     isComponentFocused k s = true) ∧
  quiet (trace (exec call s)) ∧
  (∀ a c, registered s k a c →
     isComponentFocused k (state (exec (CallFocus k) s)) = true).
Proof.
  unfold isGloballyFocused. intros Hwf Hhost Hg. split_and!.
  - destruct call; try discriminate Hhost; simpl.
    + rewrite whenAttached_eq. destruct (globalCleanup s); [|done].
      destruct visible; [done|].
      change (handleVisibilityChange false s) with (handleWindowBlur s).
      rewrite handleWindowBlur_eq by done. cbn [state fst snd].
      by rewrite (isComponentFocused_blurHeap s).
    + rewrite whenAttached_eq. by destruct (globalCleanup s).
    + rewrite whenAttached_eq. destruct (globalCleanup s); [|done].
      rewrite handleWindowBlur_eq by done. cbn [state fst snd].
      by rewrite (isComponentFocused_blurHeap s).
    + rewrite intersectionCallback_single, Hg, andb_false_r.
      destruct (decide (k = k0)) as [->|Hne].
      * by rewrite setComponentFocus_false.
      * by rewrite setComponentFocus_other.
    + unfold mutationCallback. destruct (_ && _); [|done].
      rewrite unregisterComponent_eq. apply isComponentFocused_unregistered.
    + by rewrite handleMouseEnter_eq, Hg.
    + unfold handleMouseLeave. destruct (negb isInViewport); [|done].
      destruct (decide (k = k0)) as [->|Hne].
      * by rewrite setComponentFocus_false.
      * by rewrite setComponentFocus_other.
  - destruct call; try discriminate Hhost; simpl.
    + rewrite whenAttached_eq. destruct (globalCleanup s); [|constructor].
      destruct visible; [constructor|].
      change (handleVisibilityChange false s) with (handleWindowBlur s).
      rewrite handleWindowBlur_eq by done. apply quiet_blur.
    + rewrite whenAttached_eq. destruct (globalCleanup s); constructor.
    + rewrite whenAttached_eq. destruct (globalCleanup s); [|constructor].
      rewrite handleWindowBlur_eq by done. apply quiet_blur.
    + by apply quiet_intersection_hidden.
    + unfold mutationCallback. destruct (_ && _); [|constructor].
      rewrite unregisterComponent_eq. apply quiet_disconnects.
    + rewrite handleMouseEnter_eq, Hg. constructor.
    + unfold handleMouseLeave. destruct (negb isInViewport); [|constructor].
      apply quiet_setComponentFocus_false.
  - intros a c [Hk Ha]. simpl. unfold focusComponent.
    apply (setComponentFocus_result k true s a); [done|by eexists].
Qed.

Lemma X8_host_cannot_focus_while_hidden_witness :
  wf hiddenComponent ∧ isGloballyFocused hiddenComponent = false ∧
  isComponentFocused "k" (state (exec (HostMouseEnter "k") hiddenComponent)) = false ∧
  isComponentFocused "k" (state (exec (CallFocus "k") hiddenComponent)) = true.
Proof.
  assert (Hwf : wf hiddenComponent) by compute_done.
  destruct (X8_host_cannot_focus_while_hidden hiddenComponent
              (HostMouseEnter "k") "k" Hwf eq_refl eq_refl) as (Himp & _ & Hfocus).
  split_and!; [exact Hwf|reflexivity| |].
  - destruct (isComponentFocused "k"
                (state (exec (HostMouseEnter "k") hiddenComponent))); [|done].
    by specialize (Himp eq_refl).
  - apply (Hfocus 0 (withFocused false (withFocused true blurredRecord))).
    split; reflexivity.
Defined.

(** ** Pointer listeners *)

Lemma registration_pointerListeners k el qc o s :
  pointerListeners (registration k el qc o s) =
  pointerListeners s ++
  [enterListener k el s;
   {| pl_element := elementId el; pl_type := MouseLeave;
      pl_handler := S (enterHandler el (nextId s)); pl_key := k |}].
Proof. reflexivity. Qed.

Lemma registration_registered k el qc o s :
  registered (registration k el qc o s) k (nextId s) (newComponent qc o).
Proof.
  split.
  - rewrite registration_components, JsMap_get_snoc, JsMap_get_delete_eq.
    by rewrite decide_True.
  - rewrite registration_heap. apply lookup_insert_eq.
Qed.

(** X9: neither [unregisterComponent] nor registering the key again detaches
    the pointer listeners of the earlier registration; only the function
    that registration returned does.  The [mouseenter] listener left on the
    earlier element therefore acts on the later registration: while the
    global signal is true it focuses the new record and dispatches on the
    new query client. *)
Theorem X9_stale_pointer_listener (s : State) (k : ComponentKey)
    (el el' : HTMLElement) (qc qc' : option QueryClient)
    (o o' : option ComponentFocusManagerOptions) :
  let r1 := registerComponent k (Some el) qc o s in
  let s2 := state (registerComponent k (Some el') qc' o' (state r1)) in
  let stale := enterListener k el s in
  stale ∈ pointerListeners (state r1) ∧
  stale ∈ pointerListeners (state (unregisterComponent k (state r1))) ∧
  stale ∈ pointerListeners s2 ∧
  (stale ∉ pointerListeners (state (runTeardown (value r1) s2))) ∧
  (isGloballyFocused s = true →
     isComponentFocused k (state (handleMouseEnter (pl_key stale) s2)) = true ∧
     trace (handleMouseEnter (pl_key stale) s2) =
       dispatch s2 (newComponent qc' o')).
Proof.
  intros r1 s2 stale. subst r1 s2 stale.
  rewrite !registerComponent_eq. cbn [value state fst snd].
  set (s1 := registration k el qc o s).
  assert (Hin1 : enterListener k el s ∈ pointerListeners s1).
  { unfold s1. rewrite registration_pointerListeners.
    apply elem_of_app. right. by left. }
  split_and!.
  - done.
  - by rewrite unregisterComponent_eq.
  - rewrite registration_pointerListeners. apply elem_of_app. by left.
  - rewrite runTeardown_eq. cbn [state fst snd]. unfold tornDown, unregistered.
    fields. rewrite !list_elem_of_filter. intros (_ & Hnot & _).
    apply Hnot. by unfold sameListener, enterListener.
  - unfold isGloballyFocused. intros Hg. cbn [enterListener pl_key].
    rewrite handleMouseEnter_eq.
    assert (Hreg := registration_registered k el' qc' o' s1).
    replace (globalFocused (registration k el' qc' o' s1)) with true
      by (by rewrite <- Hg).
    rewrite (setComponentFocus_eq _ _ _ _ _ Hreg). cbn [state trace fst snd].
    split.
    + by rewrite (isComponentFocused_registered _ _ _ _
                    (registered_set_focus _ _ _ _ true Hreg)).
    + done.
Qed.

Lemma X9_stale_pointer_listener_witness :
  trace (handleMouseEnter "k"
           (state (registerComponent "k" (Some orphan) (Some 8) None
              (state (registerComponent "k" (Some panel) (Some 7) None
                 (constructor noOptions false)))))) =
  [InvalidateQueries 8 {["refetchType" := FString "all"]}].
Proof.
  destruct (X9_stale_pointer_listener (constructor noOptions false) "k" panel orphan
              (Some 7) (Some 8) None None) as (_ & _ & _ & _ & H).
  destruct (H eq_refl) as [_ Ht]. cbn [enterListener pl_key] in Ht.
  rewrite Ht. reflexivity.
Defined.

Lemma JsMap_delete_snoc {V} k (v : V) (m : list (string * V)) :
  JsMap.delete k (m ++ [(k, v)]) = JsMap.delete k m.
Proof.
  unfold JsMap.delete. rewrite filter_app, filter_cons_False by (simpl; tauto).
  by rewrite filter_nil, app_nil_r.
Qed.

(** X10: for a key that is not registered, registering it and then calling
    the returned function restores the component map, both observer maps
    and the pointer listeners; the calls made by the function are the
    disconnections of the observers the registration started. *)
Theorem X10_register_then_teardown (s : State) (k : ComponentKey)
    (el : HTMLElement) (qc : option QueryClient)
    (o : option ComponentFocusManagerOptions) :
  wf s → handlersFresh s → JsMap.get k (components s) = None →
  let r := registerComponent k (Some el) qc o s in
  let t := runTeardown (value r) (state r) in
  components (state t) = components s ∧
  intersectionObservers (state t) = intersectionObservers s ∧
  mutationObservers (state t) = mutationObservers s ∧
  pointerListeners (state t) = pointerListeners s ∧
  isGloballyFocused (state t) = isGloballyFocused s ∧
  trace t =
    IntersectionDisconnect (S (nextId s)) ::
    match parentElement el with
    | Some _ => [MutationDisconnect (S (S (nextId s)))]
    | None => []
    end.
Proof.
  intros Hwf Hfresh Hk r t. subst r t.
  rewrite registerComponent_eq. cbn [value state fst snd].
  rewrite runTeardown_eq. cbn [state trace fst snd].
  assert (Hio : intersectionObservers s !! k = None).
  { destruct Hwf as (_ & _ & _ & _ & Hio & _).
    destruct (intersectionObservers s !! k) eqn:E; [|done].
    apply JsMap_get_None in Hk. destruct Hk. apply (Hio _ _ E). }
  assert (Hmo : mutationObservers s !! k = None).
  { destruct Hwf as (_ & _ & _ & _ & _ & Hmo).
    destruct (mutationObservers s !! k) eqn:E; [|done].
    apply JsMap_get_None in Hk. destruct Hk. apply (Hmo _ _ E). }
  split_and!.
  - rewrite tornDown_components, registration_components, JsMap_delete_snoc.
    by rewrite JsMap_delete_idemp, JsMap_delete_absent.
  - unfold tornDown, unregistered. fields. rewrite registration_io.
    by rewrite delete_insert_eq, delete_delete_eq, delete_id.
  - unfold tornDown, unregistered, registration. fields.
    destruct (parentElement el).
    + by rewrite delete_insert_eq, delete_delete_eq, delete_id.
    + by rewrite delete_delete_eq, delete_id.
  - unfold tornDown, unregistered. fields. rewrite registration_pointerListeners.
    rewrite !filter_app.
    rewrite (filter_all _ (pointerListeners s)).
    2: { intros p Hp [_ [_ Hh]]. unfold handlersFresh in Hfresh.
         rewrite Forall_forall in Hfresh. apply Hfresh in Hp.
         pose proof (enterHandler_bound el (nextId s)). lia. }
    rewrite (filter_all _ (pointerListeners s)).
    2: { intros p Hp [_ [_ Hh]]. unfold handlersFresh in Hfresh.
         rewrite Forall_forall in Hfresh. apply Hfresh in Hp.
         pose proof (enterHandler_bound el (nextId s)). lia. }
    rewrite (filter_cons_False _ (enterListener k el s))
      by (intros Hn; apply Hn; by unfold sameListener, enterListener).
    rewrite filter_cons_True by (by intros [_ [? _]]).
    rewrite filter_nil. cbn [app].
    rewrite filter_cons_False by (intros Hn; apply Hn; by unfold sameListener).
    by rewrite filter_nil, app_nil_r.
  - done.
  - unfold disconnects, registration. fields. rewrite lookup_insert_eq.
    destruct (parentElement el); [by rewrite lookup_insert_eq|].
    by rewrite lookup_delete_eq.
Qed.

Lemma X10_register_then_teardown_witness :
  wf oneComponent ∧ handlersFresh oneComponent ∧
  pointerListeners
    (state (runTeardown
              (value (registerComponent "b" (Some orphan) None None oneComponent))
              (state (registerComponent "b" (Some orphan) None None oneComponent)))) =
  pointerListeners oneComponent.
Proof.
  assert (Hwf : wf oneComponent) by compute_done.
  assert (Hfresh : handlersFresh oneComponent).
  { unfold handlersFresh. compute_done. }
  destruct (X10_register_then_teardown oneComponent "b" orphan None None
              Hwf Hfresh eq_refl) as (_ & _ & _ & Hp & _).
  split_and!; [exact Hwf|exact Hfresh|exact Hp].
Defined.

(** ** Listeners across registrations *)

Lemma calls_set_focus k v s a c :
  registered s k a c →
  calls (trace (setComponentFocus k v s)) =
  if negb (eqb (focused c) v) then (λ l, (l, v)) <$> listeners c else [].
Proof.
  intros Hreg. rewrite (setComponentFocus_eq _ _ _ _ _ Hreg). cbn [trace snd].
  destruct (negb (eqb (focused c) v)); [|done].
  rewrite calls_app, calls_notifyAll.
  rewrite (calls_cache_actions (if v then _ else _)); [apply app_nil_r|].
  destruct v; [apply dispatch_cache_actions|constructor].
Qed.

(** X11: registering a key again replaces its record by one without
    listeners: whatever was subscribed before is not called by later focus
    changes of the key, although the earlier state object still holds it.
    The key moves to the end of the registered keys. *)
Theorem X11_reregistration_drops_listeners (s : State) (k : ComponentKey)
    (el : HTMLElement) (qc : option QueryClient)
    (o : option ComponentFocusManagerOptions) :
  let s' := state (registerComponent k (Some el) qc o s) in
  (∀ v, calls (trace (setComponentFocus k v s')) = []) ∧
  (∀ a c, registered s k a c → heap s' !! a = Some c ∨ a = nextId s) ∧
  getRegisteredComponents s' =
    filter (λ k', k' ≠ k) (getRegisteredComponents s) ++ [k].
Proof.
  intros s'. subst s'. rewrite registerComponent_eq. cbn [state fst snd].
  split_and!.
  - intros v. rewrite (calls_set_focus _ _ _ _ _ (registration_registered k el qc o s)).
    by destruct (negb _).
  - intros a c [_ Ha]. destruct (decide (a = nextId s)) as [->|Hne]; [by right|].
    left. by rewrite registration_heap, lookup_insert_ne.
  - apply registration_keys.
Qed.

Lemma X11_reregistration_drops_listeners_witness :
  calls (trace (setComponentFocus "k" true oneComponent)) = [(5, true)] ∧
  calls (trace (setComponentFocus "k" true
                  (state (registerComponent "k" (Some panel) (Some 7) None
                            oneComponent)))) = [].
Proof.
  destruct (X11_reregistration_drops_listeners oneComponent "k" panel (Some 7) None)
    as (H & _).
  split; [reflexivity|apply H].
Defined.

Lemma JsSet_add_member x s : x ∈ s → JsSet.add x s = s.
Proof. intros Hx. unfold JsSet.add. by rewrite decide_True. Qed.

Lemma alter_same {A} (f : A → A) (a : nat) (h : gmap nat A) x :
  h !! a = Some x → f x = x → alter f a h = h.
Proof. intros Ha Hf. apply alter_id. intros y Hy. congruence. Qed.

Lemma withListeners_same c : withListeners (listeners c) c = c.
Proof. by destruct c. Qed.

(** X12: subscribing a listener that is already in the set of the record
    calls it once more with the stored state but leaves the manager as it
    was: the set holds it once.  One call of the returned function then
    removes it, and later focus changes of the key do not call it. *)
Theorem X12_subscribe_twice (s : State) (k : ComponentKey) (a : nat)
    (c : ComponentFocusState) (l : ComponentListener) :
  registered s k a c → l ∈ listeners c →
  let r := subscribeToComponent k l s in
  let u := runUnsubscribe (value r) (state r) in
  state r = s ∧
  trace r = [ListenerCall l (focused c)] ∧
  registered (state u) k a (withListeners (JsSet.delete l (listeners c)) c) ∧
  (∀ v b, (l, b) ∉ calls (trace (setComponentFocus k v (state u)))).
Proof.
  intros Hreg Hl r u. subst u r.
  rewrite (subscribeToComponent_eq _ _ _ _ _ Hreg). cbn [value state trace fst snd].
  destruct Hreg as [Hk Ha].
  assert (Hs : setHeap (alter (λ c, withListeners (JsSet.add l (listeners c)) c)
                          a (heap s)) s = s).
  { rewrite (alter_same _ _ _ c Ha); [apply setHeap_same|].
    rewrite JsSet_add_member by done. apply withListeners_same. }
  rewrite Hs. unfold runUnsubscribe, mutate, modify. cbn [state fst snd].
  assert (Hreg' : registered
            (setHeap (alter (λ c, withListeners (JsSet.delete l (listeners c)) c)
                        a (heap s)) s) k a
            (withListeners (JsSet.delete l (listeners c)) c)).
  { split; fields; [done|]. by rewrite lookup_alter_eq, Ha. }
  split_and!; try done.
  intros v b. rewrite (calls_set_focus _ _ _ _ _ Hreg').
  destruct (negb _); [|apply not_elem_of_nil].
  cbn [withListeners listeners].
  intros (l' & [= -> ->] & Hin)%list_elem_of_fmap.
  by apply JsSet_delete_not_elem in Hin.
Qed.

Lemma X12_subscribe_twice_witness :
  state (subscribeToComponent "k" 5 oneComponent) = oneComponent ∧
  calls (trace (setComponentFocus "k" true
                  (state (runUnsubscribe
                            (value (subscribeToComponent "k" 5 oneComponent))
                            (state (subscribeToComponent "k" 5 oneComponent)))))) = [].
Proof.
  assert (H : registered oneComponent "k" 0 blurredRecord) by (split; reflexivity).
  assert (Hl : 5 ∈ listeners blurredRecord) by (by left).
  destruct (X12_subscribe_twice oneComponent "k" 0 blurredRecord 5 H Hl)
    as (Hs & _).
  split; [exact Hs|reflexivity].
Defined.

(** X13: the function returned by [subscribeToComponent] holds the state
    object it subscribed to.  After the key was registered again and the
    listener subscribed to the new record, calling the earlier function
    removes nothing from the new record: the listener stays subscribed and
    is called on the next focus change. *)
Theorem X13_stale_unsubscribe (s : State) (k : ComponentKey) (a : nat)
    (c : ComponentFocusState) (l : ComponentListener) (el : HTMLElement)
    (qc : option QueryClient) (o : option ComponentFocusManagerOptions) :
  wf s → registered s k a c →
  let r1 := subscribeToComponent k l s in
  let s2 := state (registerComponent k (Some el) qc o (state r1)) in
  let r3 := subscribeToComponent k l s2 in
  let s4 := state (runUnsubscribe (value r1) (state r3)) in
  value r1 = UnsubscribeClosure a l ∧
  value r3 = UnsubscribeClosure (nextId s) l ∧
  a ≠ nextId s ∧
  registered s4 k (nextId s) (withListeners [l] (newComponent qc o)) ∧
  calls (trace (setComponentFocus k true s4)) = [(l, true)].
Proof.
  intros Hwf Hreg r1 s2 r3 s4. subst s4 r3 s2 r1.
  rewrite (subscribeToComponent_eq _ _ _ _ _ Hreg). cbn [value state fst snd].
  set (s1 := setHeap (alter (λ c, withListeners (JsSet.add l (listeners c)) c)
                        a (heap s)) s).
  rewrite registerComponent_eq. cbn [state fst snd].
  assert (Hn : nextId s1 = nextId s) by done.
  assert (Hreg2 := registration_registered k el qc o s1). rewrite Hn in Hreg2.
  rewrite (subscribeToComponent_eq _ _ _ _ _ Hreg2). cbn [value state fst snd].
  assert (Hne : a ≠ nextId s).
  { destruct Hreg as [_ Ha]. apply (wf_heap_bound s a c Hwf) in Ha. lia. }
  assert (Hreg4 : registered
    (state (runUnsubscribe (UnsubscribeClosure a l)
       (setHeap (alter (λ c, withListeners (JsSet.add l (listeners c)) c)
                   (nextId s) (heap (registration k el qc o s1)))
          (registration k el qc o s1))))
    k (nextId s) (withListeners [l] (newComponent qc o))).
  { unfold runUnsubscribe, mutate, modify. cbn [state fst snd]. split; fields.
    - apply Hreg2.
    - rewrite lookup_alter_ne by done. rewrite lookup_alter_eq.
      destruct Hreg2 as [_ ->]. done. }
  split_and!; try done.
  rewrite (calls_set_focus _ _ _ _ _ Hreg4). done.
Qed.

Lemma X13_stale_unsubscribe_witness :
  wf oneComponent ∧
  calls (trace (setComponentFocus "k" true
    (state (runUnsubscribe (value (subscribeToComponent "k" 6 oneComponent))
       (state (subscribeToComponent "k" 6
          (state (registerComponent "k" (Some panel) None None
             (state (subscribeToComponent "k" 6 oneComponent)))))))))) =
  [(6, true)].
Proof.
  assert (Hwf : wf oneComponent) by compute_done.
  assert (H : registered oneComponent "k" 0 blurredRecord) by (split; reflexivity).
  destruct (X13_stale_unsubscribe oneComponent "k" 0 blurredRecord 6 panel None None
              Hwf H) as (_ & _ & _ & _ & Hc).
  split; [exact Hwf|exact Hc].
Defined.

(** ** Observers and registered keys *)

Lemma steps_setComponentFocus k v s : rtc step s (state (setComponentFocus k v s)).
Proof.
  rewrite setComponentFocus_state.
  destruct (JsMap.get k (components s)); [apply rtc_once, step_heap|done].
Qed.

Lemma steps_forEach {A} (f : A → M unit) (l : list A) s :
  (∀ x s, rtc step s (state (f x s))) → rtc step s (state (forEach f l s)).
Proof.
  intros Hf. revert s. induction l as [|x l IH]; intros s; [done|].
  simpl. rewrite state_bind. by etrans; [apply Hf|apply IH].
Qed.

Lemma steps_unregisterComponent k s : rtc step s (state (unregisterComponent k s)).
Proof. rewrite unregisterComponent_eq. apply rtc_once, step_unregister. Qed.

Lemma steps_notifyAllComponents s : rtc step s (state (notifyAllComponents s)).
Proof.
  unfold notifyAllComponents. rewrite get_bind.
  destruct (globalFocused s); [done|].
  apply steps_forEach. intros k s'. apply steps_setComponentFocus.
Qed.

Lemma steps_handleVisibilityChange b s :
  rtc step s (state (handleVisibilityChange b s)).
Proof.
  unfold handleVisibilityChange. rewrite state_bind.
  etrans; [apply rtc_once, (step_globalFocused s b)|].
  apply steps_notifyAllComponents.
Qed.

(** Every call is a sequence of elementary changes. *)
Lemma exec_steps c s : rtc step s (state (exec c s)).
Proof.
  destruct c; simpl.
  - rewrite discard_eq. cbn [state fst snd].
    destruct element as [el|]; [|done].
    rewrite registerComponent_eq. apply rtc_once, step_register.
  - destruct t as [|el h1 h2 k]; [done|].
    unfold runTeardown, removeEventListener. rewrite !state_bind.
    etrans; [apply rtc_once, (step_detach s el MouseEnter h1)|].
    etrans; [apply rtc_once, step_detach|]. apply steps_unregisterComponent.
  - apply steps_unregisterComponent.
  - apply steps_setComponentFocus.
  - rewrite discard_eq. cbn [state fst snd].
    destruct (JsMap.get k (components s)) as [a|] eqn:Hk.
    + destruct (heap s !! a) as [c|] eqn:Ha.
      * rewrite (subscribeToComponent_eq k l s a c) by done.
        apply rtc_once, step_heap.
      * unfold subscribeToComponent, bind, get, ret. simpl. by rewrite Hk, Ha.
    + by rewrite subscribeToComponent_absent.
  - destruct u; [done|]. apply rtc_once, step_heap.
  - apply steps_setComponentFocus.
  - apply steps_setComponentFocus.
  - unfold blurAllComponents. rewrite get_bind.
    apply steps_forEach. intros k s'. apply steps_setComponentFocus.
  - rewrite updateComponentQueryClient_eq.
    destruct (JsMap.get k (components s)); [apply rtc_once, step_heap|done].
  - rewrite updateComponentOptions_eq.
    destruct (JsMap.get k (components s)); [apply rtc_once, step_heap|done].
  - rewrite destroy_state.
    etrans; [|apply rtc_once, step_globalCleanup].
    rewrite <- forEach_unregister_state. apply steps_forEach.
    intros k s'. apply steps_unregisterComponent.
  - rewrite whenAttached_eq. destruct (globalCleanup s); [|done].
    apply steps_handleVisibilityChange.
  - rewrite whenAttached_eq. destruct (globalCleanup s); [|done].
    apply (steps_handleVisibilityChange true).
  - rewrite whenAttached_eq. destruct (globalCleanup s); [|done].
    apply (steps_handleVisibilityChange false).
  - rewrite intersectionCallback_single. apply steps_setComponentFocus.
  - unfold mutationCallback. destruct (_ && _); [|done].
    apply steps_unregisterComponent.
  - rewrite handleMouseEnter_eq. destruct (globalFocused s); [|done].
    apply steps_setComponentFocus.
  - unfold handleMouseLeave. destruct (negb isInViewport); [|done].
    apply steps_setComponentFocus.
Qed.

Lemma reachable_invariant (P : State → Prop) :
  (∀ opts isServer, P (constructor opts isServer)) →
  (∀ s s', step s s' → P s → P s') →
  ∀ s, reachable s → P s.
Proof.
  intros Hinit Hstep s Hs. induction Hs as [opts isServer|s c _ IH]; [apply Hinit|].
  assert (Hrtc : ∀ s0 s1, rtc step s0 s1 → P s0 → P s1).
  { intros s0 s1 H01. induction H01 as [|s0 s1 s2 H01 _ IH12]; [done|].
    intros H0. apply IH12. by apply (Hstep s0 s1). }
  apply (Hrtc s); [apply exec_steps|done].
Qed.

Lemma observed_step s s' : step s s' → observed s → observed s'.
Proof.
  unfold observed, getRegisteredComponents.
  intros Hstep Hobs. destruct Hstep; fields; try done.
  - intros k' Hk'. unfold unregistered in *. revert Hk'. fields.
    rewrite JsMap_keys_delete. intros [Hne Hin]%list_elem_of_filter.
    rewrite lookup_delete_ne by done. by apply Hobs.
  - intros k' Hk'. rewrite registration_keys in Hk'. rewrite registration_io.
    destruct (decide (k = k')) as [->|Hne]; [rewrite lookup_insert_eq; by eexists|].
    rewrite lookup_insert_ne, lookup_delete_ne by done. apply Hobs.
    apply elem_of_app in Hk' as [Hk'|Hk'].
    + by apply list_elem_of_filter in Hk' as [_ ?].
    + apply list_elem_of_singleton in Hk'. congruence.
Qed.

Lemma handlersFresh_step s s' : step s s' → handlersFresh s → handlersFresh s'.
Proof.
  unfold handlersFresh. intros Hstep Hf. destruct Hstep; fields; try done.
  - rewrite Forall_forall in *. intros p Hp%list_elem_of_filter. apply Hf, Hp.
  - rewrite registration_pointerListeners, registration_nextId.
    pose proof (enterHandler_bound el (nextId s)).
    apply Forall_app. split.
    + eapply Forall_impl; [exact Hf|]. intros p Hp. simpl in *. lia.
    + repeat constructor; simpl; lia.
Qed.

(** X14: in every state a manager can be in, a key has an intersection
    observer exactly when it is registered and a mutation observer only when
    it is registered, so no observer outlives its record; every identity
    handed out so far, of state objects, observers and pointer handlers, is
    below the next one. *)
Theorem X14_no_dangling_observers (s : State) :
  reachable s →
  (∀ k, k ∈ getRegisteredComponents s ↔ is_Some (intersectionObservers s !! k)) ∧
  (∀ k, is_Some (mutationObservers s !! k) → k ∈ getRegisteredComponents s) ∧
  (∀ k o, intersectionObservers s !! k = Some o → o < nextId s) ∧
  (∀ k o, mutationObservers s !! k = Some o → o < nextId s) ∧
  (∀ k a, JsMap.get k (components s) = Some a →
     is_Some (heap s !! a) ∧ a < nextId s) ∧
  handlersFresh s.
Proof.
  intros Hreach. assert (Hwf := reachable_wf s Hreach).
  assert (Hobs : observed s).
  { apply (reachable_invariant observed); [|apply observed_step|done].
    intros opts isServer k Hk. by apply elem_of_nil in Hk. }
  assert (Hfresh : handlersFresh s).
  { apply (reachable_invariant handlersFresh); [|apply handlersFresh_step|done].
    intros opts isServer. constructor. }
  split_and!; try done.
  - intros k. split; [apply Hobs|]. intros [o Ho].
    destruct Hwf as (_ & _ & _ & _ & Hio & _). apply (Hio _ _ Ho).
  - intros k [o Ho]. destruct Hwf as (_ & _ & _ & _ & _ & Hmo). apply (Hmo _ _ Ho).
  - intros k o Ho. destruct Hwf as (_ & _ & _ & _ & Hio & _). apply (Hio _ _ Ho).
  - intros k o Ho. destruct Hwf as (_ & _ & _ & _ & _ & Hmo). apply (Hmo _ _ Ho).
  - intros k a Hk. apply JsMap_get_Some_elem in Hk.
    apply (list_elem_of_fmap_2 snd) in Hk. simpl in Hk.
    pose proof (wf_addr_bound s a Hwf Hk).
    destruct Hwf as (_ & _ & H3 & _). rewrite Forall_forall in H3.
    split; [by apply H3|done].
Qed.

Lemma X14_no_dangling_observers_witness :
  reachable oneComponent ∧ handlersFresh oneComponent ∧
  is_Some (intersectionObservers oneComponent !! "k").
Proof.
  assert (Hreach := reachable_oneComponent).
  destruct (X14_no_dangling_observers oneComponent Hreach) as (Hio & _ & _ & _ & _ & Hf).
  split_and!; [exact Hreach|exact Hf|]. apply Hio. by left.
Defined.

(** * The hooks *)

(** ** The focused keys of a group *)

Lemma indexOf_app_notin key pre l :
  key ∉ pre → indexOf key (pre ++ l) = (λ i, length pre + i) <$> indexOf key l.
Proof.
  induction pre as [|x pre IH]; intros Hnin; simpl.
  - by destruct (indexOf key l).
  - apply not_elem_of_cons in Hnin as [Hne Hnin].
    rewrite decide_False by done. rewrite IH by done.
    by destruct (indexOf key l).
Qed.

Lemma indexOf_in_lt key pre l :
  key ∈ pre → ∃ i, indexOf key (pre ++ l) = Some i ∧ i < length pre.
Proof.
  induction pre as [|x pre IH]; intros Hin; [by apply elem_of_nil in Hin|]. simpl.
  destruct (decide (x = key)) as [->|Hne]; [exists 0; split; [done|lia]|].
  apply elem_of_cons in Hin as [?|Hin]; [congruence|].
  destruct (IH Hin) as (i & -> & Hi). exists (S i). split; [done|lia].
Qed.

Lemma filterFrom_keepFirst pre l :
  filterFrom (λ key index, bool_decide (indexOf key (pre ++ l) = Some index))
             (length pre) l = keepFirst pre l.
Proof.
  revert pre. induction l as [|x l IH]; intros pre; [done|]. simpl.
  assert (Hself : pre ++ x :: l = (pre ++ [x]) ++ l) by (by rewrite <- app_assoc).
  assert (Hlen : S (length pre) = length (pre ++ [x]))
    by (rewrite length_app; simpl; lia).
  specialize (IH (pre ++ [x])). rewrite <- Hself, <- Hlen in IH.
  destruct (decide (x ∈ pre)) as [Hin|Hnin].
  - destruct (indexOf_in_lt x pre (x :: l) Hin) as (i & Hi & Hlt).
    rewrite bool_decide_eq_false_2; [done|]. rewrite Hi. intros [= ->]. lia.
  - rewrite bool_decide_eq_true_2; [by rewrite IH|].
    rewrite indexOf_app_notin by done. simpl. rewrite decide_True by done.
    simpl. f_equal. lia.
Qed.

Lemma uniqueKeys_keepFirst self : uniqueKeys self = keepFirst [] self.
Proof. apply (filterFrom_keepFirst [] self). Qed.

Lemma keepFirst_elem seen l x : x ∈ keepFirst seen l ↔ x ∈ l ∧ x ∉ seen.
Proof.
  revert seen. induction l as [|y l IH]; intros seen; simpl.
  - split; [by intros ?%elem_of_nil|by intros [?%elem_of_nil _]].
  - destruct (decide (y ∈ seen)) as [Hy|Hy].
    + rewrite IH, elem_of_cons, not_elem_of_app, list_elem_of_singleton.
      split; [tauto|]. intros [[->|?] ?]; [done|]. split; [done|].
      split; [done|]. by intros ->.
    + rewrite elem_of_cons, IH, elem_of_cons, not_elem_of_app, list_elem_of_singleton.
      split; [intros [->|?]; tauto|].
      destruct (decide (x = y)) as [->|]; tauto.
Qed.

Lemma keepFirst_NoDup seen l : NoDup (keepFirst seen l).
Proof.
  revert seen. induction l as [|y l IH]; intros seen; simpl; [constructor|].
  destruct (decide (y ∈ seen)); [apply IH|].
  constructor; [|apply IH]. rewrite keepFirst_elem, not_elem_of_app.
  intros [_ [_ Hy]]. apply Hy. by left.
Qed.

Lemma keepFirst_id seen l :
  NoDup l → (∀ x, x ∈ l → x ∉ seen) → keepFirst seen l = l.
Proof.
  revert seen. induction l as [|y l IH]; intros seen Hnd Hdisj; [done|]. simpl.
  apply NoDup_cons in Hnd as [Hy Hnd].
  rewrite decide_False by (apply Hdisj; left). f_equal. apply IH; [done|].
  intros x Hx. rewrite not_elem_of_app, list_elem_of_singleton. split.
  - apply Hdisj. by right.
  - by intros ->.
Qed.

Lemma keepFirst_app seen l1 l2 :
  keepFirst seen (l1 ++ l2) = keepFirst seen l1 ++ keepFirst (seen ++ l1) l2.
Proof.
  revert seen. induction l1 as [|y l1 IH]; intros seen; simpl.
  - by rewrite app_nil_r.
  - rewrite IH, <- app_assoc. simpl. by destruct (decide (y ∈ seen)).
Qed.

Lemma nextFocusedKeys_true k prev :
  NoDup prev →
  nextFocusedKeys true k prev = if decide (k ∈ prev) then prev else prev ++ [k].
Proof.
  intros Hnd. unfold nextFocusedKeys. rewrite uniqueKeys_keepFirst, keepFirst_app.
  rewrite keepFirst_id by (done || (intros; apply not_elem_of_nil)).
  simpl. destruct (decide (k ∈ prev)); [apply app_nil_r|done].
Qed.

(** X15: the update of a group's focused keys on a notification.  For
    [true] the result holds the former keys and the key of the component,
    each once, whatever the former list was; for [false] it is the former
    list without that key.  From a list without repetition, [true] appends
    the key unless it is there already, and the result has no repetition
    either way.  Applying the same notification again changes nothing. *)
Theorem X15_group_focused_keys (isFocused : bool) (k : string) (prev : list string) :
  let next := nextFocusedKeys isFocused k prev in
  (∀ x, x ∈ next ↔ if isFocused then x ∈ prev ∨ x = k else x ∈ prev ∧ x ≠ k) ∧
  (isFocused = true → NoDup next) ∧
  (NoDup prev →
     NoDup next ∧
     (isFocused = true →
        next = if decide (k ∈ prev) then prev else prev ++ [k])) ∧
  nextFocusedKeys isFocused k next = next.
Proof.
  intros next. subst next.
  assert (Hnd : isFocused = true → NoDup (nextFocusedKeys isFocused k prev)).
  { intros ->. unfold nextFocusedKeys. rewrite uniqueKeys_keepFirst.
    apply keepFirst_NoDup. }
  assert (Hel : ∀ x, x ∈ nextFocusedKeys isFocused k prev ↔
                     if isFocused then x ∈ prev ∨ x = k else x ∈ prev ∧ x ≠ k).
  { intros x. destruct isFocused; unfold nextFocusedKeys.
    - rewrite uniqueKeys_keepFirst, keepFirst_elem, elem_of_app,
        list_elem_of_singleton.
      split; [tauto|]. intros H. split; [done|apply not_elem_of_nil].
    - rewrite list_elem_of_filter. tauto. }
  split_and!; try done.
  - intros Hprev. split.
    + destruct isFocused; [by apply Hnd|]. by apply NoDup_filter.
    + intros ->. by apply nextFocusedKeys_true.
  - destruct isFocused.
    + rewrite nextFocusedKeys_true by (by apply Hnd).
      rewrite decide_True; [done|]. apply Hel. by right.
    + unfold nextFocusedKeys. rewrite list_filter_filter.
      apply list_filter_iff. intros x. tauto.
Qed.

Lemma X15_group_focused_keys_witness :
  nextFocusedKeys true "b" ["a"; "b"] = ["a"; "b"] ∧
  nextFocusedKeys true "c" ["a"; "b"] = ["a"; "b"; "c"].
Proof.
  assert (Hnd : NoDup ["a"; "b"]) by compute_done.
  destruct (X15_group_focused_keys true "b" ["a"; "b"]) as (_ & _ & H1 & _).
  destruct (X15_group_focused_keys true "c" ["a"; "b"]) as (_ & _ & H2 & _).
  destruct (H1 Hnd) as [_ H1']. destruct (H2 Hnd) as [_ H2'].
  split; [by rewrite H1'|by rewrite H2'].
Defined.

(** ** Focusing a group *)

Lemma forEach_fmap {A B} (g : A → B) (f : B → M unit) (l : list A) s :
  forEach (λ x, f (g x)) l s = forEach f (g <$> l) s.
Proof.
  revert s. induction l as [|x l IH]; intros s; [done|]. simpl.
  unfold bind. destruct (f (g x) s) as [[[] s1] t1]. by rewrite IH.
Qed.

Lemma forEach_setComponentFocus ks v s :
  wf s →
  let s' := state (forEach (λ k, setComponentFocus k v) ks s) in
  components s' = components s ∧
  (∀ a, is_Some (heap s !! a) → is_Some (heap s' !! a)) ∧
  (∀ k a, k ∈ ks → JsMap.get k (components s) = Some a → is_Some (heap s !! a) →
     isComponentFocused k s' = v) ∧
  (∀ k, k ∉ ks → isComponentFocused k s' = isComponentFocused k s).
Proof.
  revert s. induction ks as [|k1 ks IH]; intros s Hwf; simpl.
  - split_and!; try done. intros k a Hk. by apply elem_of_nil in Hk.
  - rewrite state_bind. set (s1 := state (setComponentFocus k1 v s)).
    destruct (setComponentFocus_frame k1 v s) as (Hc1 & _ & Hh1). fold s1 in Hc1, Hh1.
    destruct (IH s1 (wf_setComponentFocus k1 v s Hwf)) as (Hc & Hh & Hin & Hout).
    split_and!.
    + by rewrite Hc.
    + intros a Ha. by apply Hh, Hh1.
    + intros k a Hk Hget Hsome. destruct (decide (k ∈ ks)) as [Hks|Hks].
      * apply (Hin k a); [done|by rewrite Hc1|by apply Hh1].
      * apply elem_of_cons in Hk as [->|?]; [|done].
        rewrite Hout by done. by apply (setComponentFocus_result k1 v s a).
    + intros k [Hne Hks]%not_elem_of_cons. rewrite Hout by done.
      by apply setComponentFocus_other.
Qed.

Lemma string_app_assoc (a b c : string) : (a +:+ b) +:+ c = a +:+ b +:+ c.
Proof.
  induction a as [|ch a IH]; [done|].
  change (String ch ((a +:+ b) +:+ c) = String ch (a +:+ b +:+ c)).
  by rewrite IH.
Qed.

(** X16: [focusGroup] focuses every registered component of the group and
    changes no other key; [blurGroup] after it leaves the components of the
    group not focused and the other keys as they were before.  The key of a
    component in the manager is the group key, a dash and the component
    key, so a group ["g-x"] with component ["c"] and a group ["g"] with
    component ["x-c"] address the same record. *)
Theorem X16_focus_group (s : State) (groupKey : string)
    (componentKeys : list string) :
  wf s →
  let full := fullComponentKey groupKey <$> componentKeys in
  let s' := state (focusGroup groupKey componentKeys s) in
  let s'' := state (blurGroup groupKey componentKeys s') in
  (∀ k a c, k ∈ full → registered s k a c → isComponentFocused k s' = true) ∧
  (∀ k, k ∉ full → isComponentFocused k s' = isComponentFocused k s) ∧
  getRegisteredComponents s' = getRegisteredComponents s ∧
  (∀ k, k ∈ full → isComponentFocused k s'' = false) ∧
  (∀ k, k ∉ full → isComponentFocused k s'' = isComponentFocused k s) ∧
  (∀ x c, fullComponentKey (groupKey +:+ "-" +:+ x) c =
          fullComponentKey groupKey (x +:+ "-" +:+ c)).
Proof.
  intros Hwf full s' s''. subst s'' s'. unfold focusGroup, blurGroup.
  rewrite (forEach_fmap (fullComponentKey groupKey) focusComponent).
  fold full. unfold focusComponent.
  destruct (forEach_setComponentFocus full true s Hwf) as (Hc & Hh & Hin & Hout).
  set (s' := state (forEach (λ k, setComponentFocus k true) full s)) in *.
  assert (Hwf' : wf s').
  { apply wf_forEach; [|done]. intros k s0. apply wf_setComponentFocus. }
  rewrite (forEach_fmap (fullComponentKey groupKey) blurComponent).
  fold full. unfold blurComponent.
  destruct (forEach_setComponentFocus full false s' Hwf') as (Hc' & Hh' & Hin' & Hout').
  set (s'' := state (forEach (λ k, setComponentFocus k false) full s')) in *.
  split_and!.
  - intros k a c Hk [Hget Ha]. apply (Hin k a); [done|done|by eexists].
  - done.
  - unfold getRegisteredComponents. by rewrite Hc.
  - intros k Hk. destruct (JsMap.get k (components s')) as [a|] eqn:Hget.
    + destruct (heap s' !! a) as [c|] eqn:Ha.
      * apply (Hin' k a); [done|done|by eexists].
      * unfold isComponentFocused. rewrite Hc', Hget.
        destruct (heap s'' !! a) as [c|] eqn:Ha''; [|done].
        exfalso. clear Hin Hin' Hout Hout' Hh Hh'.
        assert (Hstate : ∀ ks s0, heap s0 !! a = None →
                  heap (state (forEach (λ k, setComponentFocus k false) ks s0)) !! a = None).
        { clear. intros ks. induction ks as [|k1 ks IH]; intros s0 H0; [done|].
          simpl. rewrite state_bind. apply IH. rewrite setComponentFocus_state.
          destruct (JsMap.get k1 (components s0)) as [a1|]; [|done]. fields.
          destruct (decide (a1 = a)) as [->|Hne].
          - by rewrite lookup_alter_eq, H0.
          - by rewrite lookup_alter_ne. }
        specialize (Hstate full s' Ha). fold s'' in Hstate. congruence.
    + apply isComponentFocused_absent. by rewrite Hc'.
  - intros k Hk. by rewrite Hout', Hout.
  - intros x c. unfold fullComponentKey. by rewrite !string_app_assoc.
Qed.

Lemma X16_focus_group_witness :
  wf oneComponent ∧
  isComponentFocused "k" (state (focusGroup "group" ["k"] oneComponent)) = false.
Proof.
  assert (Hwf : wf oneComponent) by compute_done.
  destruct (X16_focus_group oneComponent "group" ["k"] Hwf) as (_ & Hout & _).
  split; [exact Hwf|].
  rewrite (Hout "k"); [reflexivity|]. compute_done.
Defined.

(** ** The effects of [useComponentFocus] *)

Lemma spread_hookOptions m h : spread m (hookOptions h) = hookOptions h.
Proof. reflexivity. Qed.

Lemma handleComponentFocus_hook qc h s :
  trace (handleComponentFocus qc (Some (hookOptions h)) s) =
  policy qc (hookOptions h).
Proof. by rewrite handleComponentFocus_eq. Qed.



(** X18: when the element reference is still empty, the effects of
    [useComponentFocus] on a key that is not registered warn twice on the
    console, once for the registration and once for the subscription, and
    leave the manager as it was; the cleanup they return does nothing. *)
Theorem X18_hook_without_element (s : State) (h : UseComponentFocusOptions)
    (qc : QueryClient) (l : ComponentListener) :
  default true (use_enabled h) = true →
  JsMap.get (use_componentKey h) (components s) = None →
  let r := useComponentFocusEffects h None qc l s in
  state r = s ∧
  trace r =
    [ConsoleWarn ("ComponentFocusManager: Element not found for component "
                  +:+ use_componentKey h);
     ConsoleWarn ("Component " +:+ use_componentKey h +:+ " is not registered")] ∧
  value r = Some (UnsubscribeNoop, TeardownNoop) ∧
  useComponentFocusCleanup (value r) (state r) = (tt, s, []).
Proof.
  intros Hen Hk r. subst r. unfold useComponentFocusEffects. rewrite Hen.
  rewrite bind_unfold. cbn [registerComponent].
  rewrite (bind_unfold (emit _)). cbn [emit ret value state trace fst snd].
  rewrite bind_unfold, subscribeToComponent_absent by done.
  cbn [value state trace fst snd].
  rewrite bind_unfold, updateComponentOptions_eq, Hk.
  cbn [value state trace fst snd ret]. done.
Qed.

Lemma X18_hook_without_element_witness :
  state (useComponentFocusEffects (plainHook "other") None 7 5 oneComponent) =
  oneComponent.
Proof.
  destruct (X18_hook_without_element oneComponent (plainHook "other") 7 5
              eq_refl eq_refl) as (Hs & _).
  exact Hs.
Defined.

(** ** The base class and the persisted client *)

(** X19: subscribing the same function twice is one subscription; the
    returned function removes exactly that listener, at most once, and
    [hasListeners] then tells whether another listener is left. *)
Theorem X19_subscribable (l : nat) (ls : list nat) :
  let ls' := Subscribable.subscribe l ls in
  Subscribable.hasListeners ls' = true ∧
  Subscribable.subscribe l ls' = ls' ∧
  (∀ l', l' ∈ Subscribable.unsubscribe l ls' ↔ l' ∈ ls ∧ l' ≠ l) ∧
  (l ∉ ls → Subscribable.unsubscribe l ls' = ls) ∧
  Subscribable.unsubscribe l (Subscribable.unsubscribe l ls') =
    Subscribable.unsubscribe l ls' ∧
  (Subscribable.hasListeners (Subscribable.unsubscribe l ls') = true ↔
   ∃ l', l' ∈ ls ∧ l' ≠ l).
Proof.
  cbv zeta. unfold Subscribable.subscribe, Subscribable.unsubscribe,
    Subscribable.hasListeners.
  assert (Hmem : ∀ l', l' ∈ JsSet.delete l (JsSet.add l ls) ↔ l' ∈ ls ∧ l' ≠ l).
  { intros l'. unfold JsSet.delete, JsSet.add. rewrite list_elem_of_filter.
    case_decide as Hl; [tauto|]. rewrite elem_of_app, list_elem_of_singleton.
    tauto. }
  split_and!.
  - pose proof (JsSet_add_elem l ls) as Hin.
    destruct (JsSet.add l ls); [by apply elem_of_nil in Hin|].
    apply bool_decide_eq_true. simpl. lia.
  - apply JsSet_add_member, JsSet_add_elem.
  - done.
  - intros Hl. unfold JsSet.add, JsSet.delete. rewrite decide_False by done.
    rewrite filter_app, filter_cons_False, filter_nil, app_nil_r by tauto.
    apply filter_all.
    intros y Hy ->. done.
  - apply JsSet_delete_idemp.
  - rewrite bool_decide_eq_true. split.
    + intros Hlen. destruct (JsSet.delete l (JsSet.add l ls)) as [|l' r] eqn:E;
        [simpl in Hlen; lia|].
      exists l'. apply Hmem. by left.
    + intros (l' & Hl'). apply Hmem in Hl'.
      destruct (JsSet.delete l (JsSet.add l ls)); [by apply elem_of_nil in Hl'|].
      simpl. lia.
Qed.

Lemma usable_dec env opts pc :
  usable env opts pc ↔
  truthyNumber (timestamp pc) = true ∧
  (olderThan (now env - timestamp pc) (default defaultMaxAge (opt_maxAge opts))
    || negb (bool_decide (buster pc = default "" (opt_buster opts)))) = false.
Proof.
  unfold usable, truthyNumber. rewrite negb_true_iff, Z.eqb_neq.
  rewrite orb_false_iff, negb_false_iff, bool_decide_eq_true. tauto.
Qed.

Lemma restoreCatch_calls env before n err :
  (restoreCatch env before n err).1 =
  before ++ (if production env then []
             else [CallConsoleError err; CallConsoleWarn restoreWarning]) ++
  [CallRemoveClient].
Proof. unfold restoreCatch. by destruct (removeClient env n). Qed.

Lemma restoreCatch_rejects env before n err :
  ∃ e, (restoreCatch env before n err).2 = RejectedWith e ∧
       (removeClient env n = RemoveOk → e = err).
Proof.
  unfold restoreCatch. destruct (removeClient env n); simpl; eauto.
  all: eexists; split; [done|]; done.
Qed.

Lemma restoreRemove_calls env :
  ∃ rest, (restoreRemove env [CallRestoreClient]).1 =
          CallRestoreClient :: CallRemoveClient :: rest ∧
          (∀ st, CallHydrate st ∉ rest) ∧ (CallRestoreClient ∉ rest) ∧
          (production env = true → ∀ c, c ∈ rest → isConsoleCall c = false) ∧
          (removeClient env 0 = RemoveOk → rest = []).
Proof.
  unfold restoreRemove. destruct (removeClient env 0) eqn:E.
  - exists []. simpl. split_and!; try done; try (intros; apply not_elem_of_nil).
    intros _ c Hc. by apply elem_of_nil in Hc.
  - exists []. simpl. split_and!; try done; try (intros; apply not_elem_of_nil).
    intros _ c Hc. by apply elem_of_nil in Hc.
  - rewrite restoreCatch_calls. eexists. split; [simpl; reflexivity|].
    destruct (production env); simpl; split_and!; try done.
    + intros st Hin. set_solver.
    + set_solver.
    + intros _ c Hc. apply list_elem_of_singleton in Hc. by subst.
    + intros st Hin. set_solver.
    + set_solver.
Qed.

Lemma restoreRemove_result env :
  (restoreRemove env [CallRestoreClient]).2 = Fulfilled tt ↔
  removeClient env 0 = RemoveOk.
Proof.
  unfold restoreRemove. destruct (removeClient env 0) eqn:E; [by split|by split|].
  destruct (restoreCatch_rejects env ([CallRestoreClient] ++ [CallRemoveClient]) 1 err)
    as (e & He & _). rewrite He. by split.
Qed.


Lemma sessionStep_unsubscribed st e :
  hasUnsubscribed st = true → subscribed st = false →
  hasUnsubscribed (sessionStep st e) = true ∧
  subscribed (sessionStep st e) = false ∧
  subscriptions (sessionStep st e) = subscriptions st.
Proof.
  intros Hu Hs. destruct e; simpl.
  - rewrite Hs. by destruct (persistQueryClientUnsubscribe st).
  - by rewrite Hu.
Qed.

Lemma session_unsubscribed st events :
  hasUnsubscribed st = true → subscribed st = false →
  hasUnsubscribed (foldl sessionStep st events) = true ∧
  subscribed (foldl sessionStep st events) = false ∧
  subscriptions (foldl sessionStep st events) = subscriptions st.
Proof.
  revert st. induction events as [|e events IH]; intros st Hu Hs; [done|].
  simpl. destruct (sessionStep_unsubscribed st e Hu Hs) as (Hu' & Hs' & Hn).
  destruct (IH _ Hu' Hs') as (? & ? & ?). split_and!; congruence.
Qed.

(** While [unsubscribe] has not been called, the caches are subscribed
    exactly when the unsubscribe function is stored. *)
Lemma session_linked events :
  let st := sessionRun events in
  hasUnsubscribed st = false →
  subscribed st = persistQueryClientUnsubscribe st.
Proof.
  unfold sessionRun. induction events as [|e events IH] using rev_ind; [done|].
  rewrite foldl_app. simpl. cbv zeta in IH.
  destruct e; simpl; [done|].
  destruct (hasUnsubscribed (foldl sessionStep sessionStart events)) eqn:Hu; [|done].
  intros Hu'. congruence.
Qed.

Lemma session_after_unsubscribe before :
  let st := sessionStep (sessionRun before) UnsubscribeCalled in
  hasUnsubscribed st = true ∧ subscribed st = false ∧
  subscriptions st = subscriptions (sessionRun before).
Proof.
  cbv zeta. simpl. split_and!; [done| |done].
  destruct (hasUnsubscribed (sessionRun before)) eqn:Hu.
  - destruct (persistQueryClientUnsubscribe (sessionRun before)) eqn:Hp; [done|].
    (* already unsubscribed: nothing was subscribed since *)
    revert Hu Hp. unfold sessionRun.
    induction before as [|e before IH] using rev_ind; [done|].
    rewrite foldl_app. simpl. destruct e; simpl.
    + intros _ Hp.
      destruct (hasUnsubscribed (foldl sessionStep sessionStart before)) eqn:Hu.
      * rewrite Hp. by apply IH.
      * rewrite Hp. rewrite <- Hp. by apply (session_linked before).
    + destruct (hasUnsubscribed (foldl sessionStep sessionStart before)) eqn:Hu;
        [|done]. intros _ Hp. by apply IH.
  - pose proof (session_linked before Hu) as Hl.
    by destruct (persistQueryClientUnsubscribe (sessionRun before)).
Qed.

(** X21: once the function returned by [persistQueryClient] has been called,
    the caches are not subscribed and never will be, whether the restore
    finishes before or after the call; no subscription is made after it.
    If it is never called, the caches are subscribed exactly when the
    restore has fulfilled. *)
Theorem X21_unsubscribe_wins (events : list SessionEvent) :
  let st := sessionRun events in
  (∀ before after, events = before ++ UnsubscribeCalled :: after →
     hasUnsubscribed st = true ∧ subscribed st = false ∧
     subscriptions st = subscriptions (sessionRun before)) ∧
  (UnsubscribeCalled ∉ events →
     hasUnsubscribed st = false ∧
     (subscribed st = true ↔ RestoreFulfilled ∈ events) ∧
     subscriptions st = length events).
Proof.
  cbv zeta. split.
  - intros before after ->. unfold sessionRun. rewrite foldl_app. simpl.
    destruct (session_after_unsubscribe before) as (Hu & Hs & Hn).
    destruct (session_unsubscribed _ after Hu Hs) as (? & ? & ?).
    split_and!; [done|done|]. etrans; [done|]. done.
  - unfold sessionRun. induction events as [|e events IH] using rev_ind.
    + intros _. split_and!; [done| |done].
      split; [done|]. intros Hin. by apply elem_of_nil in Hin.
    + intros Hn. rewrite foldl_app. simpl.
      destruct e; [exfalso; apply Hn; set_solver|].
      destruct IH as (Hu & Hs & Hc); [set_solver|].
      simpl. rewrite Hu. simpl. split_and!; [done| |].
      * split; [set_solver|done].
      * rewrite Hc, length_app. simpl. lia.
Qed.


